(** * DIQ Gift Tracker: the ledger logic of [gift_tracker_app.py]

    A shallow embedding of the data-handling code of the Streamlit
    application: the schema normaliser [ensure_df], the CSV export and
    import ([download_csv], [pd.read_csv] followed by [ensure_df]), the
    filter of [main], the "Add a gift" form and the write-back of the
    inline editor.

    The application is written against pandas.  The parts of pandas that
    the code calls are modelled here as executable functions over
    dynamically typed cells: a column is a list of cells, a frame is a
    list of named columns.  Python [str] values are carried as their
    UTF-8 byte strings; [str.lower] and [str.strip] act on the ASCII
    range.  A [float] is an IEEE-754 binary64 value ([spec_float] of the
    standard library, precision 53, maximal exponent 1024). *)

From Stdlib Require Import ZArith List String Ascii Bool Lia.
From Stdlib Require Import Floats.SpecFloat.
From stdpp Require Import base list.

Open Scope string_scope.
Open Scope Z_scope.

(* ================================================================= *)
(** ** Characters and text *)

Definition code (c : ascii) : Z := Z.of_N (N_of_ascii c).

Definition is_digit (c : ascii) : bool := (48 <=? code c) && (code c <=? 57).

(** ASCII white space, as [isspace] of the C locale sees it. *)
Definition is_space (c : ascii) : bool :=
  (code c =? 32) || ((9 <=? code c) && (code c <=? 13)).

(** White space for [str.strip()]: Python adds the four ASCII separator
    controls 0x1c..0x1f to the C set. *)
Definition is_py_space (c : ascii) : bool :=
  is_space c || ((28 <=? code c) && (code c <=? 31)).

Definition lower_char (c : ascii) : ascii :=
  if (65 <=? code c) && (code c <=? 90)
  then ascii_of_N (N_of_ascii c + 32) else c.

(** [str.lower()] *)
Fixpoint lower (s : string) : string :=
  match s with
  | EmptyString => EmptyString
  | String c r => String (lower_char c) (lower r)
  end.

Fixpoint lstrip (s : string) : string :=
  match s with
  | String c r => if is_py_space c then lstrip r else s
  | EmptyString => EmptyString
  end.

Fixpoint rstrip (s : string) : string :=
  match s with
  | EmptyString => EmptyString
  | String c r =>
      match rstrip r with
      | EmptyString => if is_py_space c then EmptyString else String c EmptyString
      | r' => String c r'
      end
  end.

(** [str.strip()] *)
Definition strip (s : string) : string := rstrip (lstrip s).

(** Python truthiness of a [str]: [bool(s)]. *)
Definition nonempty (s : string) : bool :=
  match s with EmptyString => false | _ => true end.

Fixpoint str_mem (s : string) (l : list string) : bool :=
  match l with
  | [] => false
  | x :: r => String.eqb s x || str_mem s r
  end.

Fixpoint repeat_char (c : ascii) (n : nat) : string :=
  match n with O => EmptyString | S k => String c (repeat_char c k) end.

(* ================================================================= *)
(** ** Integers as text *)

Definition digit_char (d : Z) : ascii := ascii_of_N (Z.to_N (48 + d)).
Definition digit_val (c : ascii) : Z := code c - 48.

Fixpoint digits_acc (fuel : nat) (z : Z) (acc : string) : string :=
  match fuel with
  | O => acc
  | S k =>
      let acc' := String (digit_char (z mod 10)) acc in
      if z <? 10 then acc' else digits_acc k (z / 10) acc'
  end.

(** Decimal digits of a natural number, most significant first. *)
Definition nat_text (z : Z) : string :=
  digits_acc (S (Z.to_nat (Z.log2 z))) z EmptyString.

(** [str(int)] *)
Definition int_text (z : Z) : string :=
  if z <? 0 then String "-" (nat_text (- z)) else nat_text z.

(** Value of a string of decimal digits, read left to right. *)
Fixpoint digits_val (acc : Z) (s : string) : Z :=
  match s with
  | EmptyString => acc
  | String c r => digits_val (10 * acc + digit_val c) r
  end.

Fixpoint all_digits (s : string) : bool :=
  match s with
  | EmptyString => true
  | String c r => is_digit c && all_digits r
  end.

(** Splits off the longest prefix of decimal digits. *)
Fixpoint span_digits (s : string) : string * string :=
  match s with
  | String c r =>
      if is_digit c then let '(d, t) := span_digits r in (String c d, t)
      else (EmptyString, s)
  | EmptyString => (EmptyString, EmptyString)
  end.

Fixpoint skip_spaces (s : string) : string :=
  match s with
  | String c r => if is_space c then skip_spaces r else s
  | EmptyString => EmptyString
  end.

(** 64-bit two's complement, the range of pandas' [int64]. *)
Definition INT64_MIN : Z := - 2 ^ 63.
Definition INT64_MAX : Z := 2 ^ 63 - 1.
Definition UINT64_MAX : Z := 2 ^ 64 - 1.

Definition in_int64 (z : Z) : bool := (INT64_MIN <=? z) && (z <=? INT64_MAX).

Definition wrap64 (z : Z) : Z := (z + 2 ^ 63) mod 2 ^ 64 - 2 ^ 63.

(* ================================================================= *)
(** ** Numerals

    The scanner follows [xstrtod] of pandas' tokenizer, which both
    [pd.to_numeric] (through [floatify]) and the C parser of
    [pd.read_csv] use: optional white space, an optional sign, digits,
    an optional point followed by digits, an optional exponent, optional
    trailing white space, and nothing else.  At least one digit has to be
    present; an ['e'] that no digit follows is not consumed. *)

Record numeral := mkNumeral {
  num_neg : bool;
  num_int : string;            (* digits before the point *)
  num_frac : option string;    (* digits after the point, when there is one *)
  num_exp : option Z           (* the exponent, when there is one *)
}.

Definition scan_sign (s : string) : bool * string :=
  match s with
  | String c r =>
      if Ascii.eqb c "-" then (true, r)
      else if Ascii.eqb c "+" then (false, r)
      else (false, s)
  | EmptyString => (false, s)
  end.

Definition scan_frac (s : string) : option string * string :=
  match s with
  | String c r =>
      if Ascii.eqb c "." then let '(d, t) := span_digits r in (Some d, t)
      else (None, s)
  | EmptyString => (None, s)
  end.

Definition scan_exp (s : string) : option Z * string :=
  match s with
  | String c r =>
      if Ascii.eqb c "e" || Ascii.eqb c "E" then
        let '(neg, r1) := scan_sign r in
        let '(d, t) := span_digits r1 in
        if nonempty d
        then (Some (if neg then - digits_val 0 d else digits_val 0 d), t)
        else (None, s)
      else (None, s)
  | EmptyString => (None, s)
  end.

Definition scan_numeral (s : string) : option numeral :=
  let '(neg, s1) := scan_sign (skip_spaces s) in
  let '(ip, s2) := span_digits s1 in
  let '(fp, s3) := scan_frac s2 in
  if nonempty ip || match fp with Some d => nonempty d | None => false end then
    let '(ep, s4) := scan_exp s3 in
    match skip_spaces s4 with
    | EmptyString => Some (mkNumeral neg ip fp ep)
    | _ => None
    end
  else None.

(** A numeral that denotes an integer: no point, no exponent. *)
Definition numeral_int (n : numeral) : option Z :=
  match num_frac n, num_exp n with
  | None, None =>
      let v := digits_val 0 (num_int n) in
      Some (if num_neg n then - v else v)
  | _, _ => None
  end.

(* ================================================================= *)
(** ** Floats *)

Abbreviation float := spec_float.

Definition prec : Z := 53.
Definition emax : Z := 1024.

Definition float_is_nan (f : float) : bool :=
  match f with S754_nan => true | _ => false end.

Definition float_is_finite (f : float) : bool :=
  match f with S754_zero _ | S754_finite _ _ _ => true | _ => false end.

Definition float_is_zero (f : float) : bool :=
  match f with S754_zero _ => true | _ => false end.

(** [f < 0.0] *)
Definition float_is_negative (f : float) : bool :=
  SFltb f (S754_zero false).

(** Identity of two floats as values of the embedding (bit for bit, up
    to the payload of NaN). *)
Definition float_same (a b : float) : bool :=
  match a, b with
  | S754_zero s, S754_zero t => Bool.eqb s t
  | S754_infinity s, S754_infinity t => Bool.eqb s t
  | S754_nan, S754_nan => true
  | S754_finite s m e, S754_finite t n k => Bool.eqb s t && Pos.eqb m n && Z.eqb e k
  | _, _ => false
  end.

(** [float(z)]: the nearest binary64, ties to even. *)
Definition float_of_Z (z : Z) : float := binary_normalize prec emax z 0 false.

(** The integer part of a finite float (truncation toward zero). *)
Definition float_trunc (f : float) : Z :=
  match f with
  | S754_finite s m e =>
      cond_Zopp s (if 0 <=? e then Zpos m * 2 ^ e else Zpos m / 2 ^ (- e))
  | _ => 0
  end.

(** The binary64 nearest to [d * 10 ^ e10], for a natural number [d]. *)
Definition decimal_float (neg : bool) (d e10 : Z) : float :=
  if d =? 0 then S754_zero neg
  else
    let nd := Z.of_nat (String.length (nat_text d)) in
    if 310 <? nd + e10 then S754_infinity neg
    else if nd + e10 <? - 330 then S754_zero neg
    else if 0 <=? e10
    then binary_normalize prec emax (cond_Zopp neg (d * 10 ^ e10)) 0 neg
    else
      let '(q, e, l) := SFdiv_core_binary prec emax d 0 (10 ^ (- e10)) 0 in
      binary_round_aux prec emax neg q e l.

(** The float a numeral denotes.  (The default converter of pandas
    agrees with this correctly rounded value on numerals of up to 15
    significant digits and a decimal exponent of magnitude at most 22;
    on longer numerals it may be off by one unit in the last place.) *)
Definition numeral_float (n : numeral) : float :=
  let fd := match num_frac n with Some d => d | None => "" end in
  let e := match num_exp n with Some e => e | None => 0 end in
  decimal_float (num_neg n) (digits_val 0 (num_int n ++ fd))
                (e - Z.of_nat (String.length fd)).

(** *** [repr(float)]: the shortest decimal text that reads back *)

Definition round_half_even (a b : Z) : Z :=
  let q := a / b in
  match 2 * (a mod b) ?= b with
  | Lt => q
  | Gt => q + 1
  | Eq => if Z.even q then q else q + 1
  end.

(** Least [j >= 1] with [n * 10 ^ j >= d]. *)
Fixpoint find_neg_exp (fuel : nat) (n d j : Z) : Z :=
  match fuel with
  | O => j
  | S k => if d <=? n * 10 then j else find_neg_exp k (n * 10) d (j + 1)
  end.

(** The decimal exponent [p] of the fraction [n / d]:
    [10 ^ p <= n / d < 10 ^ (p + 1)]. *)
Definition dec_exponent (n d : Z) : Z :=
  if d <=? n then Z.of_nat (String.length (nat_text (n / d))) - 1
  else - find_neg_exp 400 n d 1.

(** The two [k]-digit decimals around [n / d], the nearer one first, as
    pairs of a [k]-digit integer and the decimal exponent of its first
    digit. *)
Definition repr_candidates (n d p k : Z) : list (Z * Z) :=
  let sh := k - 1 - p in
  let '(a, b) := if 0 <=? sh then (n * 10 ^ sh, d) else (n, d * 10 ^ (- sh)) in
  let near := round_half_even a b in
  let other := if near =? a / b then a / b + 1 else a / b in
  map (fun q => if q =? 10 ^ k then (10 ^ (k - 1), p + 1) else (q, p))
      [near; other].

Fixpoint shortest_digits (fuel : nat) (k n d p : Z) (f : float) : Z * Z * Z :=
  let cands := repr_candidates n d p k in
  match fuel with
  | O => match cands with (q, p') :: _ => (q, k, p') | [] => (0, k, p) end
  | S fuel' =>
      match List.find (fun c => float_same (decimal_float false (fst c) (snd c - k + 1)) f)
                      cands with
      | Some (q, p') => (q, k, p')
      | None => shortest_digits fuel' (k + 1) n d p f
      end
  end.

Fixpoint strip_zeros (s : string) : string :=
  match s with
  | EmptyString => EmptyString
  | String c r =>
      match strip_zeros r with
      | EmptyString => if Ascii.eqb c "0" then EmptyString else String c EmptyString
      | r' => String c r'
      end
  end.

(** Layout of [repr]: positional for decimal exponents from -4 to 15,
    scientific with a two-digit exponent otherwise. *)
Definition format_repr (ds : string) (p : Z) : string :=
  if (-4 <=? p) && (p <? 16) then
    if 0 <=? p then
      let ilen := Z.to_nat (p + 1) in
      let len := String.length ds in
      if (len <=? ilen)%nat
      then ds ++ repeat_char "0" (ilen - len) ++ ".0"
      else substring 0 ilen ds ++ "." ++ substring ilen (len - ilen) ds
    else "0." ++ repeat_char "0" (Z.to_nat (- p - 1)) ++ ds
  else
    let mant := match ds with
                | String c (String c' r) => String c ("." ++ String c' r)
                | _ => ds
                end in
    let ex := nat_text (Z.abs p) in
    mant ++ "e" ++ (if p <? 0 then "-" else "+")
         ++ (if (String.length ex <? 2)%nat then "0" ++ ex else ex).

(** [repr(f)], which is also [str(f)] and the text numpy gives a
    [float64]. *)
Definition float_text (f : float) : string :=
  match f with
  | S754_nan => "nan"
  | S754_infinity s => if s then "-inf" else "inf"
  | S754_zero s => if s then "-0.0" else "0.0"
  | S754_finite s m e =>
      let '(n, d) := if 0 <=? e then (Zpos m * 2 ^ e, 1) else (Zpos m, 2 ^ (- e)) in
      let '(q, _, p) :=
        shortest_digits 17 1 n d (dec_exponent n d) (S754_finite false m e) in
      let body := format_repr (match strip_zeros (nat_text q) with
                               | EmptyString => "0"
                               | ds => ds
                               end) p in
      if s then "-" ++ body else body
  end.

(** A numeral as a float, for tests and examples. *)
Definition float_lit (s : string) : float :=
  match scan_numeral s with
  | Some n => numeral_float n
  | None => S754_nan
  end.

(* ================================================================= *)
(** ** Cells, columns and frames *)

(** A value held by a cell of a pandas column. [VNone] is [None]; a
    missing value of a float column is [VFloat S754_nan]. *)
Inductive cell :=
| VNone
| VBool (b : bool)
| VInt (z : Z)
| VFloat (f : float)
| VStr (s : string).

(** [pd.isna] on a scalar. *)
Definition isna (c : cell) : bool :=
  match c with
  | VNone => true
  | VFloat f => float_is_nan f
  | _ => false
  end.

(** [str(x)] *)
Definition py_str (c : cell) : string :=
  match c with
  | VNone => "None"
  | VBool b => if b then "True" else "False"
  | VInt z => int_text z
  | VFloat f => float_text f
  | VStr s => s
  end.

(** [bool(x)] *)
Definition truthy (c : cell) : bool :=
  match c with
  | VNone => false
  | VBool b => b
  | VInt z => negb (z =? 0)
  | VFloat f => negb (float_is_zero f)
  | VStr s => nonempty s
  end.

Abbreviation column := (list cell).

(** A [pd.DataFrame]: the row labels and the named columns, in column
    order.  Row labels are row numbers: every frame the application
    builds carries a [RangeIndex] ([empty_df], [pd.read_csv],
    [pd.concat(..., ignore_index=True)]) or a selection of one
    ([df.loc[mask]]).  Column labels are taken to be distinct; a lookup
    returns the first column of that name. *)
Record DataFrame := mkDF {
  index : list nat;
  columns : list (string * column)
}.

Definition nrows (df : DataFrame) : nat := length (index df).

Definition names (df : DataFrame) : list string := map fst (columns df).

(** Every column has one cell per row. *)
Definition rectangular (df : DataFrame) : Prop :=
  Forall (fun nc => length (snd nc) = nrows df) (columns df).

(** *** Exceptions *)

Inductive exn :=
| KeyError (key : string)
| IntCastingNaNError       (* "Cannot convert non-finite values (NA or inf) to integer" *)
| ReError (msg : string)   (* [re.error] *)
| TypeError (msg : string)
| EmptyDataError           (* "No columns to parse from file" *)
| ParserError (msg : string)
| NotModelled (what : string).
    (* the input uses a feature of a library that this development does
       not cover; nothing is stated about the program there *)

Inductive result (A : Type) :=
| Ok (a : A)
| Raise (e : exn).
Arguments Ok {A} a.
Arguments Raise {A} e.

#[global] Instance result_ret : MRet result := fun A a => Ok a.
#[global] Instance result_bind : MBind result := fun A B k m =>
  match m with
  | Ok a => k a
  | Raise e => Raise e
  end.

Definition is_ok {A} (r : result A) : bool :=
  match r with Ok _ => true | Raise _ => false end.

(** *** Column access *)

Fixpoint lookup_col (c : string) (cols : list (string * column)) : option column :=
  match cols with
  | [] => None
  | (n, v) :: r => if String.eqb c n then Some v else lookup_col c r
  end.

(** [c in df.columns] *)
Definition has_column (c : string) (df : DataFrame) : bool :=
  match lookup_col c (columns df) with Some _ => true | None => false end.

(** [df[c]] *)
Definition getitem (c : string) (df : DataFrame) : result column :=
  match lookup_col c (columns df) with
  | Some v => Ok v
  | None => Raise (KeyError c)
  end.

Fixpoint replace_col (c : string) (v : column) (cols : list (string * column))
  : list (string * column) :=
  match cols with
  | [] => [(c, v)]
  | (n, w) :: r => if String.eqb c n then (n, v) :: r else (n, w) :: replace_col c v r
  end.

(** [df[c] = v]: overwrites the column of that name, or appends a new
    last column. *)
Definition setitem (c : string) (v : column) (df : DataFrame) : DataFrame :=
  mkDF (index df) (replace_col c v (columns df)).

(** [df[c] = x] for a scalar [x], which is broadcast over the rows. *)
Definition setitem_scalar (c : string) (x : cell) (df : DataFrame) : DataFrame :=
  setitem c (repeat x (nrows df)) df.

Fixpoint select_cols (cs : list string) (cols : list (string * column))
  : result (list (string * column)) :=
  match cs with
  | [] => Ok []
  | c :: r =>
      match lookup_col c cols with
      | Some v => rest ← select_cols r cols; Ok ((c, v) :: rest)
      | None => Raise (KeyError c)
      end
  end.

(** [df[cs].copy()] for a list of labels. *)
Definition getitem_list (cs : list string) (df : DataFrame) : result DataFrame :=
  cols ← select_cols cs (columns df); Ok (mkDF (index df) cols).

(** The cell of column [c] in the row at position [i]. *)
Definition cell_at (df : DataFrame) (c : string) (i : nat) : option cell :=
  match lookup_col c (columns df) with
  | Some v => v !! i
  | None => None
  end.

(* ================================================================= *)
(** ** The pandas operations [ensure_df] uses *)

(** [Series.fillna(v)] on a column of objects. *)
Definition fillna (v : cell) (col : column) : column :=
  map (fun c => if isna c then v else c) col.

(** [Series.astype(str)] *)
Definition astype_str (col : column) : column := map (fun c => VStr (py_str c)) col.

(** [Series.astype(bool)] *)
Definition astype_bool (col : column) : column := map (fun c => VBool (truthy c)) col.

(** *** [pd.to_numeric(col, errors="coerce")] *)

(** What one element turns into. *)
Inductive numeric :=
| NNull
| NBool (b : bool)
| NInt (z : Z)
| NFloat (f : float).

(** The names [floatify] accepts besides numerals, in any letter case. *)
Definition special_float (s : string) : option float :=
  let l := lower s in
  if str_mem l ["nan"; "+nan"; "-nan"] then Some S754_nan
  else if str_mem l ["inf"; "+inf"; "infinity"; "+infinity"] then Some (S754_infinity false)
  else if str_mem l ["-inf"; "-infinity"] then Some (S754_infinity true)
  else None.

Definition numeric_of_float (f : float) : numeric :=
  if float_is_nan f then NNull else NFloat f.

(** A string that is not a number is coerced to NaN. *)
Definition str_numeric (s : string) : numeric :=
  match scan_numeral s with
  | Some n =>
      match numeral_int n with
      | Some z => NInt z
      | None => NFloat (numeral_float n)
      end
  | None =>
      match special_float s with
      | Some f => numeric_of_float f
      | None => NNull
      end
  end.

Definition cell_numeric (c : cell) : numeric :=
  match c with
  | VNone => NNull
  | VBool b => NBool b
  | VInt z => NInt z
  | VFloat f => numeric_of_float f
  | VStr s => str_numeric s
  end.

(** A numeric column, by dtype: [float64], [int64] (or [uint64]; the
    values are kept as they are and wrapped by a later cast), [bool]. *)
Inductive numcol :=
| FloatCol (l : list float)
| IntCol (l : list Z)
| BoolCol (l : list bool).

Definition bool_Z (b : bool) : Z := if b then 1 else 0.

Definition numeric_float (n : numeric) : float :=
  match n with
  | NNull => S754_nan
  | NBool b => float_of_Z (bool_Z b)
  | NInt z => float_of_Z z
  | NFloat f => f
  end.

Definition numeric_int (n : numeric) : Z :=
  match n with
  | NInt z => z
  | NBool b => bool_Z b
  | _ => 0
  end.

Definition numeric_bool (n : numeric) : bool :=
  match n with NBool b => b | _ => false end.

Definition is_NInt (n : numeric) : bool := match n with NInt _ => true | _ => false end.
Definition is_NBool (n : numeric) : bool := match n with NBool _ => true | _ => false end.

(** The result is a float column as soon as one element is a float or
    missing, or an integer does not fit 64 bits, or negative integers
    meet integers above [INT64_MAX]. *)
Definition forces_float (n : numeric) : bool :=
  match n with
  | NNull | NFloat _ => true
  | NInt z => (z <? INT64_MIN) || (UINT64_MAX <? z)
  | NBool _ => false
  end.

Definition needs_float (ns : list numeric) : bool :=
  existsb forces_float ns
  || (existsb (fun n => match n with NInt z => z <? 0 | _ => false end) ns
      && existsb (fun n => match n with NInt z => INT64_MAX <? z | _ => false end) ns).

Definition to_numeric (col : column) : numcol :=
  let ns := map cell_numeric col in
  if needs_float ns then FloatCol (map numeric_float ns)
  else if existsb is_NInt ns then IntCol (map numeric_int ns)
  else if existsb is_NBool ns then BoolCol (map numeric_bool ns)
  else IntCol [].

(** [fillna(v)] on a numeric column: only a float column has missing
    values, and it takes the fill value as a float. *)
Definition numcol_fillna (v : float) (c : numcol) : numcol :=
  match c with
  | FloatCol l => FloatCol (map (fun f => if float_is_nan f then v else f) l)
  | _ => c
  end.

(** The C cast of a finite double to [int64]; out of range it yields the
    "integer indefinite" value of x86-64. *)
Definition float_to_int64 (f : float) : Z :=
  let z := float_trunc f in if in_int64 z then z else INT64_MIN.

(** [astype(int)]: pandas refuses to cast NaN or an infinity. *)
Definition astype_int (c : numcol) : result (list Z) :=
  match c with
  | FloatCol l =>
      if forallb float_is_finite l then Ok (map float_to_int64 l)
      else Raise IntCastingNaNError
  | IntCol l => Ok (map wrap64 l)
  | BoolCol l => Ok (map bool_Z l)
  end.

(** [astype(float)] *)
Definition astype_float (c : numcol) : list float :=
  match c with
  | FloatCol l => l
  | IntCol l => map float_of_Z l
  | BoolCol l => map (fun b => float_of_Z (bool_Z b)) l
  end.

(* ================================================================= *)
(** ** The clock *)

(** [date.today()]; [datetime.now().year] is its year. *)
Record pydate := mkDate { d_year : Z; d_month : Z; d_day : Z }.

Definition is_leap (y : Z) : bool :=
  (y mod 4 =? 0) && (negb (y mod 100 =? 0) || (y mod 400 =? 0)).

Definition days_in_month (y m : Z) : Z :=
  if m =? 2 then (if is_leap y then 29 else 28)
  else if (m =? 4) || (m =? 6) || (m =? 9) || (m =? 11) then 30 else 31.

(** Years run from [datetime.MINYEAR] to [datetime.MAXYEAR]. *)
Definition valid_date (d : pydate) : Prop :=
  1 <= d_year d <= 9999 /\ 1 <= d_month d <= 12 /\
  1 <= d_day d <= days_in_month (d_year d) (d_month d).

Definition zero_pad (w : nat) (z : Z) : string :=
  let t := nat_text z in repeat_char "0" (w - String.length t) ++ t.

(** [date.isoformat()]: YYYY-MM-DD. *)
Definition isoformat (d : pydate) : string :=
  zero_pad 4 (d_year d) ++ "-" ++ zero_pad 2 (d_month d) ++ "-" ++ zero_pad 2 (d_day d).

(* ================================================================= *)
(** ** The schema and its normaliser *)

Definition COLUMNS : list string :=
  ["date"; "year"; "recipient"; "occasion"; "idea";
   "budget"; "purchased"; "purchased_cost"].

Definition empty_df : DataFrame := mkDF [] (map (fun c => (c, [])) COLUMNS).

Definition zero : float := S754_zero false.

(** The scalar a missing column is filled with (the [if]/[elif] chain of
    the first loop of [ensure_df]). *)
Definition missing_default (today : pydate) (c : string) : cell :=
  if str_mem c ["budget"; "purchased_cost"] then VFloat zero
  else if String.eqb c "purchased" then VBool false
  else if String.eqb c "year" then VInt (d_year today)
  else if String.eqb c "date" then VStr (isoformat today)
  else VStr "".

Definition add_missing (today : pydate) (df : DataFrame) (c : string) : DataFrame :=
  if has_column c df then df else setitem_scalar c (missing_default today c) df.

Definition coerce_text (col : column) : column := astype_str (fillna (VStr "") col).

Definition coerce_year (today : pydate) (col : column) : result column :=
  l ← astype_int (numcol_fillna (float_of_Z (d_year today)) (to_numeric col));
  Ok (map VInt l).

Definition coerce_money (col : column) : column :=
  map VFloat (astype_float (numcol_fillna zero (to_numeric col))).

Definition coerce_purchased (col : column) : column :=
  astype_bool (fillna (VBool false) col).

(** One step of the two [for col in (...)] loops: [df[col] = f(df[col])]. *)
Definition update_col (f : column -> column) (df : DataFrame) (c : string)
  : result DataFrame :=
  v ← getitem c df; Ok (setitem c (f v) df).

Definition ensure_df (today : pydate) (df : DataFrame) : result DataFrame :=
  (* add missing *)
  let df := fold_left (add_missing today) COLUMNS df in
  (* coerce types safely *)
  df ← getitem_list COLUMNS df;
  d ← getitem "date" df;
  let df := setitem "date" (coerce_text d) df in
  y ← getitem "year" df;
  y' ← coerce_year today y;
  let df := setitem "year" y' df in
  df ← update_col coerce_money df "budget";
  df ← update_col coerce_money df "purchased_cost";
  p ← getitem "purchased" df;
  let df := setitem "purchased" (coerce_purchased p) df in
  df ← update_col coerce_text df "recipient";
  df ← update_col coerce_text df "occasion";
  df ← update_col coerce_text df "idea";
  Ok df.

(** The column of [c] that [ensure_df] works on: the one of the input,
    or the broadcast default when the input has none. *)
Definition col_or_default (today : pydate) (df : DataFrame) (c : string) : column :=
  match lookup_col c (columns df) with
  | Some v => v
  | None => repeat (missing_default today c) (nrows df)
  end.

(** The frame [ensure_df] returns, given the coerced [year] column. *)
Definition normal_form (today : pydate) (df : DataFrame) (y : column) : DataFrame :=
  let col := col_or_default today df in
  mkDF (index df)
    [("date", coerce_text (col "date"));
     ("year", y);
     ("recipient", coerce_text (col "recipient"));
     ("occasion", coerce_text (col "occasion"));
     ("idea", coerce_text (col "idea"));
     ("budget", coerce_money (col "budget"));
     ("purchased", coerce_purchased (col "purchased"));
     ("purchased_cost", coerce_money (col "purchased_cost"))].


(* ================================================================= *)
(** ** Typed ledgers *)

Definition is_text (c : cell) : bool := match c with VStr _ => true | _ => false end.
Definition is_int64 (c : cell) : bool := match c with VInt z => in_int64 z | _ => false end.
Definition is_flag (c : cell) : bool := match c with VBool _ => true | _ => false end.
(** A float that is not NaN. *)
Definition is_money (c : cell) : bool :=
  match c with VFloat f => negb (float_is_nan f) | _ => false end.

(** The dtype [ensure_df] gives each column of the schema. *)
Definition column_type (c : string) : cell -> bool :=
  if String.eqb c "year" then is_int64
  else if str_mem c ["budget"; "purchased_cost"] then is_money
  else if String.eqb c "purchased" then is_flag
  else is_text.

(** A frame that has the schema: the eight columns in order, one cell
    per row in each, every cell of the type of its column. *)
Definition ledger_ok (df : DataFrame) : Prop :=
  names df = COLUMNS /\
  Forall (fun nc => length (snd nc) = nrows df /\
                    forallb (column_type (fst nc)) (snd nc) = true) (columns df).

(** *** Calendar dates in ISO-8601 form (YYYY-MM-DD) *)

Definition is_iso_date (s : string) : bool :=
  match s with
  | String y1 (String y2 (String y3 (String y4 (String "-"
      (String m1 (String m2 (String "-" (String d1 (String d2 EmptyString))))))))) =>
      let y := digits_val 0 (String y1 (String y2 (String y3 (String y4 "")))) in
      let m := digits_val 0 (String m1 (String m2 "")) in
      let d := digits_val 0 (String d1 (String d2 "")) in
      forallb is_digit [y1; y2; y3; y4; m1; m2; d1; d2]
      && (1 <=? y) && (1 <=? m) && (m <=? 12) && (1 <=? d) && (d <=? days_in_month y m)
  | _ => false
  end.

(** No cell of the [year] column coerces to an infinite number (the one
    value [astype(int)] refuses once the missing values are filled). *)
Definition year_castable (df : DataFrame) : bool :=
  match lookup_col "year" (columns df) with
  | Some col =>
      forallb (fun c => match numeric_float (cell_numeric c) with
                        | S754_infinity _ => false
                        | _ => true
                        end) col
  | None => true
  end.

(* ================================================================= *)
(** ** Regular expressions

    [Series.str.contains(pat)] compiles [pat] with [re.compile] (its
    [regex] argument defaults to [True]) and keeps the rows where
    [regex.search] finds a match.  Only whether a match exists matters,
    so a pattern is modelled by the language it denotes.  The fragment
    covered: ordinary characters, [.], [( )], [|], the repetitions [*],
    [+], [?] (and their lazy forms), and [\] before a character that is
    not a letter or a digit.  Character classes, anchors, counted
    repetition and the other extensions are reported as [NotModelled]. *)

Inductive regex :=
| REmpty                      (* the empty string *)
| RChar (c : ascii)
| RDot                        (* any character but the newline *)
| RAll                        (* any character *)
| RCat (r1 r2 : regex)
| RAlt (r1 r2 : regex)
| RStar (r : regex).

Inductive parse_res :=
| POk (r : regex) (rest : string)
| PErr (e : exn).

Definition is_alnum (c : ascii) : bool :=
  is_digit c || ((65 <=? code c) && (code c <=? 90)) || ((97 <=? code c) && (code c <=? 122)).

(** The repetition that follows an atom, if any. *)
Definition lazy_mark (r : regex) (rest : string) : parse_res :=
  match rest with
  | String c rest' =>
      if Ascii.eqb c "?" then POk r rest'
      else if Ascii.eqb c "*" then PErr (ReError "multiple repeat")
      else if Ascii.eqb c "+" then PErr (NotModelled "possessive repetition")
      else POk r rest
  | EmptyString => POk r rest
  end.

Definition parse_quant (a : regex) (s : string) : parse_res :=
  match s with
  | String c rest =>
      if Ascii.eqb c "*" then lazy_mark (RStar a) rest
      else if Ascii.eqb c "+" then lazy_mark (RCat a (RStar a)) rest
      else if Ascii.eqb c "?" then lazy_mark (RAlt REmpty a) rest
      else POk a s
  | EmptyString => POk a s
  end.

Definition str_tail (s : string) : string :=
  match s with
  | String _ r => r
  | EmptyString => EmptyString
  end.

Definition starts_with (c : ascii) (s : string) : bool :=
  match s with
  | String d _ => Ascii.eqb c d
  | EmptyString => false
  end.

Fixpoint parse_alt (fuel : nat) (s : string) : parse_res :=
  match fuel with
  | O => PErr (NotModelled "pattern too long")
  | S k =>
      match parse_seq k s REmpty with
      | POk r rest =>
          if starts_with "|" rest then
            match parse_alt k (str_tail rest) with
            | POk r2 rest2 => POk (RAlt r r2) rest2
            | e => e
            end
          else POk r rest
      | e => e
      end
  end
with parse_seq (fuel : nat) (s : string) (acc : regex) : parse_res :=
  match fuel with
  | O => PErr (NotModelled "pattern too long")
  | S k =>
      if starts_with "|" s || starts_with ")" s || negb (nonempty s) then POk acc s
      else
        match parse_atom k s with
        | POk a rest =>
            match parse_quant a rest with
            | POk a' rest' => parse_seq k rest' (RCat acc a')
            | e => e
            end
        | e => e
        end
  end
with parse_atom (fuel : nat) (s : string) : parse_res :=
  match fuel with
  | O => PErr (NotModelled "pattern too long")
  | S k =>
      match s with
      | EmptyString => PErr (ReError "unexpected end of pattern")
      | String c rest =>
          if Ascii.eqb c "(" then
            if starts_with "?" rest then PErr (NotModelled "extension group")
            else
              match parse_alt k rest with
              | POk g rest' =>
                  if starts_with ")" rest'
                  then POk g (str_tail rest')
                  else PErr (ReError "missing ), unterminated subpattern")
              | e => e
              end
          else if Ascii.eqb c "." then POk RDot rest
          else if Ascii.eqb c "\" then
            match rest with
            | EmptyString => PErr (ReError "bad escape (end of pattern)")
            | String d rest' =>
                if is_alnum d then PErr (NotModelled "escape sequence")
                else POk (RChar d) rest'
            end
          else if Ascii.eqb c "*" || Ascii.eqb c "+" || Ascii.eqb c "?"
          then PErr (ReError "nothing to repeat")
          else if Ascii.eqb c "[" || Ascii.eqb c "{" || Ascii.eqb c "^" || Ascii.eqb c "$"
          then PErr (NotModelled "character class, anchor or counted repetition")
          else POk (RChar c) rest
      end
  end.

(** [re.compile(pat)] *)
Definition re_compile (pat : string) : result regex :=
  match parse_alt (3 * String.length pat + 3) pat with
  | POk r EmptyString => Ok r
  | POk _ _ => Raise (ReError "unbalanced parenthesis")
  | PErr e => Raise e
  end.

Fixpoint nullable (r : regex) : bool :=
  match r with
  | REmpty | RStar _ => true
  | RChar _ | RDot | RAll => false
  | RCat a b => nullable a && nullable b
  | RAlt a b => nullable a || nullable b
  end.

Definition newline : ascii := ascii_of_N 10.

(** The Brzozowski derivative. *)
Fixpoint deriv (c : ascii) (r : regex) : option regex :=
  match r with
  | REmpty => None
  | RChar d => if Ascii.eqb c d then Some REmpty else None
  | RDot => if Ascii.eqb c newline then None else Some REmpty
  | RAll => Some REmpty
  | RCat a b =>
      let left := option_map (fun a' => RCat a' b) (deriv c a) in
      if nullable a then
        match left, deriv c b with
        | Some x, Some y => Some (RAlt x y)
        | Some x, None => Some x
        | None, y => y
        end
      else left
  | RAlt a b =>
      match deriv c a, deriv c b with
      | Some x, Some y => Some (RAlt x y)
      | Some x, None => Some x
      | None, y => y
      end
  | RStar a => option_map (fun a' => RCat a' (RStar a)) (deriv c a)
  end.

(** [regex.fullmatch(s) is not None] *)
Fixpoint matches (r : regex) (s : string) : bool :=
  match s with
  | EmptyString => nullable r
  | String c t =>
      match deriv c r with
      | Some r' => matches r' t
      | None => false
      end
  end.

(** [regex.search(s) is not None]: some substring of [s] matches. *)
Definition re_search (r : regex) (s : string) : bool :=
  matches (RCat (RStar RAll) (RCat r (RStar RAll))) s.

(** The words of a pattern. *)
Inductive lang : regex -> string -> Prop :=
| L_empty : lang REmpty ""
| L_char c : lang (RChar c) (String c "")
| L_dot c : c <> newline -> lang RDot (String c "")
| L_all c : lang RAll (String c "")
| L_cat a b s t : lang a s -> lang b t -> lang (RCat a b) (s ++ t)
| L_alt_l a b s : lang a s -> lang (RAlt a b) s
| L_alt_r a b s : lang b s -> lang (RAlt a b) s
| L_star_nil a : lang (RStar a) ""
| L_star_cons a s t : lang a s -> lang (RStar a) t -> lang (RStar a) (s ++ t).

(** The pattern that a text without special characters compiles to. *)
Fixpoint literal_from (acc : regex) (p : string) : regex :=
  match p with
  | EmptyString => acc
  | String c r => literal_from (RCat acc (RChar c)) r
  end.

(** The characters [re] gives a meaning of their own. *)
Definition is_meta (c : ascii) : bool :=
  existsb (Ascii.eqb c)
    ["."; "^"; "$"; "*"; "+"; "?"; "{"; "}"; "["; "]"; "\"; "|"; "("; ")"]%char.

Fixpoint has_meta (s : string) : bool :=
  match s with
  | EmptyString => false
  | String c r => is_meta c || has_meta r
  end.

(** [s.startswith(p)] *)
Fixpoint is_prefix (p s : string) : bool :=
  match p with
  | EmptyString => true
  | String a p' =>
      match s with
      | String b s' => Ascii.eqb a b && is_prefix p' s'
      | EmptyString => false
      end
  end.

(** [p in s] for two strings: [p] occurs in [s] as a substring. *)
Fixpoint is_substring (p s : string) : bool :=
  is_prefix p s ||
  match s with
  | EmptyString => false
  | String _ t => is_substring p t
  end.

(* ================================================================= *)
(** ** The filter of [main] *)

(** The values of the four filter widgets: the years ticked in the
    multiselect, the two text inputs as typed, and the checkbox. *)
Record FilterInput := mkFilter {
  f_year : list Z;
  rec_text : string;
  occ_text : string;
  show_only_unpurchased : bool
}.

(** [df.empty] *)
Definition df_empty (df : DataFrame) : bool :=
  (nrows df =? 0)%nat || (length (columns df) =? 0)%nat.

(** [x in values] as [Series.isin] decides it for one cell. *)
Definition cell_isin (values : list Z) (c : cell) : bool :=
  match c with
  | VInt z => existsb (Z.eqb z) values
  | VBool b => existsb (Z.eqb (bool_Z b)) values
  | VFloat f => existsb (fun y => SFeqb f (float_of_Z y)) values
  | _ => false
  end.

(** [col.str.lower()]: an element that is not a string becomes NaN. *)
Definition str_lower (col : column) : column :=
  map (fun c => match c with VStr s => VStr (lower s) | _ => VFloat S754_nan end) col.

(** [col.str.contains(pat, na=False)] *)
Definition str_contains (pat : string) (col : column) : result (list bool) :=
  r ← re_compile pat;
  Ok (map (fun c => match c with VStr s => re_search r s | _ => false end) col).

(** [~col] for a column of booleans. *)
Fixpoint invert (col : column) : result (list bool) :=
  match col with
  | [] => Ok []
  | VBool b :: r => l ← invert r; Ok (negb b :: l)
  | _ :: _ => Raise (TypeError "bad operand type for unary ~")
  end.

(** [mask &= other] *)
Fixpoint mask_and (m o : list bool) : list bool :=
  match m, o with
  | a :: m', b :: o' => (a && b) :: mask_and m' o'
  | _, _ => []
  end.

Fixpoint select {A} (mask : list bool) (l : list A) : list A :=
  match mask, l with
  | b :: m, x :: r => if b then x :: select m r else select m r
  | _, _ => []
  end.

(** [df.loc[mask].copy()]: the rows whose mask is set, under their labels. *)
Definition loc_mask (mask : list bool) (df : DataFrame) : DataFrame :=
  mkDF (select mask (index df))
       (map (fun nc => (fst nc, select mask (snd nc))) (columns df)).

(** One optional text filter: [if f: mask &= df[c].str.lower().str.contains(f, na=False)]. *)
Definition text_filter (df : DataFrame) (c : string) (f : string) (mask : list bool)
  : result (list bool) :=
  if nonempty f then
    col ← getitem c df;
    m ← str_contains f (str_lower col);
    Ok (mask_and mask m)
  else Ok mask.

Definition filter_mask (df : DataFrame) (flt : FilterInput) : result (list bool) :=
  let f_rec := lower (strip (rec_text flt)) in
  let f_occ := lower (strip (occ_text flt)) in
  y ← getitem "year" df;
  let mask := map (cell_isin (f_year flt)) y in
  mask ← text_filter df "recipient" f_rec mask;
  mask ← text_filter df "occasion" f_occ mask;
  if show_only_unpurchased flt then
    p ← getitem "purchased" df;
    np ← invert p;
    Ok (mask_and mask np)
  else Ok mask.

(** [fdf], the filtered view. *)
Definition filter_view (df : DataFrame) (flt : FilterInput) : result DataFrame :=
  mask ← filter_mask df flt; Ok (loc_mask mask df).

(** The options of the year multiselect:
    [sorted(df["year"].unique().tolist())], or the current year for an
    empty ledger. *)
Fixpoint insert_sorted (z : Z) (l : list Z) : list Z :=
  match l with
  | [] => [z]
  | x :: r => if z <? x then z :: l else if z =? x then l else x :: insert_sorted z r
  end.

Definition year_options (today : pydate) (df : DataFrame) : result (list Z) :=
  if df_empty df then Ok [d_year today]
  else
    col ← getitem "year" df;
    fold_right (fun c acc =>
                  l ← acc;
                  match c with
                  | VInt z => Ok (insert_sorted z l)
                  | _ => Raise (NotModelled "years that are not integers")
                  end) (Ok []) col.

(* ================================================================= *)
(** ** The "Add a gift" form *)

(** The values of the form's widgets when it is submitted. *)
Record GiftForm := mkForm {
  dt_val : pydate;
  year_val : Z;
  recipient : string;
  occasion : string;
  idea : string;
  budget : float;
  purchased : bool;
  purchased_cost : float
}.

(** [float(x or 0.0)] *)
Definition float_or_zero (x : float) : float :=
  if float_is_zero x then zero else x.

Definition new_row (f : GiftForm) : list (string * cell) :=
  [("date", VStr (isoformat (dt_val f)));
   ("year", VInt (year_val f));
   ("recipient", VStr (strip (recipient f)));
   ("occasion", VStr (strip (occasion f)));
   ("idea", VStr (strip (idea f)));
   ("budget", VFloat (float_or_zero (budget f)));
   ("purchased", VBool (purchased f));
   ("purchased_cost", VFloat (float_or_zero (purchased_cost f)))].

Fixpoint lookup_field (c : string) (row : list (string * cell)) : option cell :=
  match row with
  | [] => None
  | (n, v) :: r => if String.eqb c n then Some v else lookup_field c r
  end.

(** [pd.concat([df, pd.DataFrame([row])], ignore_index=True)]: the
    columns of [df], then those only the row has; a cell that one side
    lacks is NaN; the rows are renumbered. *)
Definition concat_row (df : DataFrame) (row : list (string * cell)) : DataFrame :=
  let nan := VFloat S754_nan in
  let old := map (fun nc => (fst nc,
                             (snd nc ++ [match lookup_field (fst nc) row with
                                         | Some v => v
                                         | None => nan
                                         end])%list)) (columns df) in
  let fresh := List.filter (fun nv => negb (has_column (fst nv) df)) row in
  mkDF (seq 0 (S (nrows df)))
       (old ++ map (fun nv => (fst nv, repeat nan (nrows df) ++ [snd nv])) fresh)%list.

(** The [if submitted:] block. *)
Definition add_gift (today : pydate) (gifts : DataFrame) (f : GiftForm) : result DataFrame :=
  ensure_df today (concat_row gifts (new_row f)).

(* ================================================================= *)
(** ** The inline editor and its write-back *)

(** What the user does in the table: for the row of a given label, the
    new content of its [purchased] and of its [purchased_cost] cell,
    given the old one.  The other columns are disabled, and rows can be
    neither added nor removed ([num_rows="fixed"]). *)
Record Edits := mkEdits {
  edit_purchased : nat -> cell -> cell;
  edit_cost : nat -> cell -> cell
}.

Fixpoint zip_with {A B C} (f : A -> B -> C) (la : list A) (lb : list B) : list C :=
  match la, lb with
  | a :: ra, b :: rb => f a b :: zip_with f ra rb
  | _, _ => []
  end.

Definition edit_column (f : nat -> cell -> cell) (c : string) (df : DataFrame)
  : DataFrame :=
  match lookup_col c (columns df) with
  | Some col => setitem c (zip_with f (index df) col) df
  | None => df
  end.

(** [st.data_editor(fdf, num_rows="fixed", disabled=...)] *)
Definition data_editor (fdf : DataFrame) (e : Edits) : DataFrame :=
  edit_column (edit_cost e) "purchased_cost"
    (edit_column (edit_purchased e) "purchased" fdf).

(** The position of the row labelled [l]. *)
Fixpoint label_pos (l : nat) (labels : list nat) : option nat :=
  match labels with
  | [] => None
  | x :: r => if (l =? x)%nat then Some 0%nat else option_map S (label_pos l r)
  end.

(** Writes [vals] into [col] at the rows named by [labels]; a label the
    target does not have is a [KeyError]. *)
Fixpoint assign_rows (target : list nat) (labels : list nat) (vals : column) (col : column)
  : result column :=
  match labels, vals with
  | l :: ls, v :: vs =>
      match label_pos l target with
      | Some p => assign_rows target ls vs (<[p := v]> col)
      | None => Raise (KeyError "row label not in index")
      end
  | _, _ => Ok col
  end.

(** [df.loc[labels, c] = vals] *)
Definition loc_assign (labels : list nat) (c : string) (vals : column) (df : DataFrame)
  : result DataFrame :=
  col ← getitem c df;
  col' ← assign_rows (index df) labels vals col;
  Ok (setitem c col' df).

(** [gifts.loc[edited.index, edit_cols] = edited[edit_cols]] *)
Definition write_back (gifts edited : DataFrame) : result DataFrame :=
  p ← getitem "purchased" edited;
  c ← getitem "purchased_cost" edited;
  g ← loc_assign (index edited) "purchased" p gifts;
  loc_assign (index edited) "purchased_cost" c g.

(** The last block of [main]: nothing is written for an empty view. *)
Definition edit_step (gifts fdf : DataFrame) (e : Edits) : result DataFrame :=
  if df_empty fdf then Ok gifts else write_back gifts (data_editor fdf e).

(** *** The filter as the specification words it

    A record is kept when its year is one of the selected years, its
    recipient contains the recipient text (when there is one), its
    occasion contains the occasion text (when there is one), both
    compared in lower case, and it is not purchased when only
    unpurchased gifts are asked for.  The texts are the widget values
    stripped of surrounding white space. *)
Definition keep_row (df : DataFrame) (flt : FilterInput) (i : nat) : bool :=
  let f_rec := lower (strip (rec_text flt)) in
  let f_occ := lower (strip (occ_text flt)) in
  match cell_at df "year" i, cell_at df "recipient" i,
        cell_at df "occasion" i, cell_at df "purchased" i with
  | Some (VInt y), Some (VStr r), Some (VStr o), Some (VBool p) =>
      existsb (Z.eqb y) (f_year flt)
      && (negb (nonempty f_rec) || is_substring f_rec (lower r))
      && (negb (nonempty f_occ) || is_substring f_occ (lower o))
      && (negb (show_only_unpurchased flt) || negb p)
  | _, _, _, _ => false
  end.

(* ================================================================= *)
(** ** CSV export: [download_csv]

    [df.to_csv(index=False)] writes the header and the rows through
    Python's [csv.writer] with the default dialect: comma, double quote,
    [QUOTE_MINIMAL], doubled quotes inside quoted fields, and the line
    terminator of the platform, here the newline.  A missing value is
    written as the empty field. *)

Definition dquote : ascii := ascii_of_N 34.
Definition comma : ascii := ascii_of_N 44.
Definition cr : ascii := ascii_of_N 13.

(** A field is quoted when it holds the delimiter, the quote character
    or a character of the line terminator. *)
Definition is_special (c : ascii) : bool :=
  Ascii.eqb c comma || Ascii.eqb c dquote || Ascii.eqb c newline.

Fixpoint needs_quote (s : string) : bool :=
  match s with
  | EmptyString => false
  | String c r => is_special c || needs_quote r
  end.

Fixpoint double_quotes (s : string) : string :=
  match s with
  | EmptyString => EmptyString
  | String c r =>
      if Ascii.eqb c dquote then String dquote (String dquote (double_quotes r))
      else String c (double_quotes r)
  end.

Definition quote_field (s : string) : string :=
  if needs_quote s then String dquote (double_quotes s ++ String dquote "") else s.

Fixpoint join_fields (fs : list string) : string :=
  match fs with
  | [] => ""
  | [f] => quote_field f
  | f :: r => quote_field f ++ String comma (join_fields r)
  end.

(** [writer.writerow(fields)]; a record of one empty field is written as
    a pair of quotes. *)
Definition csv_row (fs : list string) : string :=
  match fs with
  | [EmptyString] => String dquote (String dquote (String newline ""))
  | _ => join_fields fs ++ String newline ""
  end.

Fixpoint concat_strings (l : list string) : string :=
  match l with
  | [] => ""
  | s :: r => s ++ concat_strings r
  end.

(** The text of a cell: [na_rep] for a missing value, [str] otherwise. *)
Definition csv_cell (c : cell) : string := if isna c then "" else py_str c.

(** The cells of the row at position [i]. *)
Definition row_at (df : DataFrame) (i : nat) : list cell :=
  map (fun nc => match snd nc !! i with Some c => c | None => VFloat S754_nan end)
      (columns df).

Definition to_csv (df : DataFrame) : string :=
  csv_row (names df)
  ++ concat_strings (map (fun i => csv_row (map csv_cell (row_at df i)))
                         (seq 0 (nrows df))).

(** The bytes are the UTF-8 encoding of the text, which is how the
    embedding carries text already. *)
Definition download_csv (df : DataFrame) : string := to_csv df.

(* ================================================================= *)
(** ** CSV import: [pd.read_csv]

    The tokenizer is the state machine of pandas' C parser with the
    default options (comma, double quote with doubling, no escape
    character, no comment character, blank lines skipped, lines ended by
    LF, CR or CRLF). *)

Inductive tstate :=
| START_RECORD
| WHITESPACE_LINE
| START_FIELD
| IN_FIELD
| IN_QUOTED_FIELD
| QUOTE_IN_QUOTED_FIELD
| EAT_CRNL
| EAT_CRNL_NOP.

(** The tokenizer's state: the automaton state, the characters of the
    current field (last first), the fields of the current record (last
    first) and the finished records (last first). *)
Record tokenizer := mkTok {
  t_state : tstate;
  t_field : list ascii;
  t_line : list string;
  t_lines : list (list string)
}.

Definition push_char (c : ascii) (t : tokenizer) (s : tstate) : tokenizer :=
  mkTok s (c :: t_field t) (t_line t) (t_lines t).

Definition end_field (t : tokenizer) (s : tstate) : tokenizer :=
  mkTok s [] (string_of_list_ascii (rev (t_field t)) :: t_line t) (t_lines t).

Definition end_line (t : tokenizer) (s : tstate) : tokenizer :=
  mkTok s [] [] (rev (t_line t) :: t_lines t).

Definition set_state (t : tokenizer) (s : tstate) : tokenizer :=
  mkTok s (t_field t) (t_line t) (t_lines t).

Definition is_blank (c : ascii) : bool := Ascii.eqb c " " || (code c =? 9).

(** One character in a state that starts or continues a field. *)
Definition field_step (c : ascii) (t : tokenizer) : tokenizer :=
  match t_state t with
  | IN_FIELD =>
      if Ascii.eqb c newline then end_line (end_field t START_RECORD) START_RECORD
      else if Ascii.eqb c cr then end_field t EAT_CRNL
      else if Ascii.eqb c comma then end_field t START_FIELD
      else push_char c t IN_FIELD
  | IN_QUOTED_FIELD =>
      if Ascii.eqb c dquote then set_state t QUOTE_IN_QUOTED_FIELD
      else push_char c t IN_QUOTED_FIELD
  | QUOTE_IN_QUOTED_FIELD =>
      if Ascii.eqb c dquote then push_char c t IN_QUOTED_FIELD
      else if Ascii.eqb c comma then end_field t START_FIELD
      else if Ascii.eqb c newline then end_line (end_field t START_RECORD) START_RECORD
      else if Ascii.eqb c cr then end_field t EAT_CRNL
      else push_char c t IN_FIELD
  | _ (* START_FIELD *) =>
      if Ascii.eqb c newline then end_line (end_field t START_RECORD) START_RECORD
      else if Ascii.eqb c cr then end_field t EAT_CRNL
      else if Ascii.eqb c dquote then set_state t IN_QUOTED_FIELD
      else if Ascii.eqb c comma then end_field t START_FIELD
      else push_char c t IN_FIELD
  end.

(** One character at the start of a record. *)
Definition record_step (c : ascii) (t : tokenizer) : tokenizer :=
  if Ascii.eqb c newline then t                         (* a blank line *)
  else if Ascii.eqb c cr then set_state t EAT_CRNL_NOP
  else if is_blank c then push_char c t WHITESPACE_LINE
  else field_step c (set_state t START_FIELD).

Definition tok_step (c : ascii) (t : tokenizer) : tokenizer :=
  match t_state t with
  | START_RECORD => record_step c t
  | WHITESPACE_LINE =>
      (* the blanks seen so far are kept in [t_field] *)
      if Ascii.eqb c newline then mkTok START_RECORD [] [] (t_lines t)
      else if Ascii.eqb c cr then mkTok EAT_CRNL_NOP [] [] (t_lines t)
      else if is_blank c then push_char c t WHITESPACE_LINE
      else field_step c (set_state t IN_FIELD)
  | EAT_CRNL =>
      if Ascii.eqb c newline then end_line t START_RECORD
      else if Ascii.eqb c comma then end_field (end_line t START_FIELD) START_FIELD
      else record_step c (end_line t START_RECORD)
  | EAT_CRNL_NOP =>
      if Ascii.eqb c newline || Ascii.eqb c comma then set_state t START_RECORD
      else record_step c (set_state t START_RECORD)
  | _ => field_step c t
  end.

Fixpoint tok_run (s : string) (t : tokenizer) : tokenizer :=
  match s with
  | EmptyString => t
  | String c r => tok_run r (tok_step c t)
  end.

(** The end of the input closes the open field and record; inside a
    quoted field it is an error. *)
Definition tok_eof (t : tokenizer) : result (list (list string)) :=
  match t_state t with
  | START_RECORD | WHITESPACE_LINE | EAT_CRNL_NOP => Ok (rev (t_lines t))
  | IN_QUOTED_FIELD => Raise (ParserError "EOF inside string")
  | EAT_CRNL => Ok (rev (t_lines (end_line t START_RECORD)))
  | _ => Ok (rev (t_lines (end_line (end_field t START_RECORD) START_RECORD)))
  end.

Definition tokenize (s : string) : result (list (list string)) :=
  tok_eof (tok_run s (mkTok START_RECORD [] [] [])).

(** *** Type inference *)

(** The strings read as a missing value by default. *)
Definition NA_VALUES : list string :=
  [""; "#N/A"; "#N/A N/A"; "#NA"; "-1.#IND"; "-1.#QNAN"; "-NaN"; "-nan";
   "1.#IND"; "1.#QNAN"; "<NA>"; "N/A"; "NA"; "NULL"; "NaN"; "None";
   "n/a"; "nan"; "null"].

Definition is_na_text (s : string) : bool := str_mem s NA_VALUES.

Definition csv_int (s : string) : option Z :=
  match scan_numeral s with
  | Some n => numeral_int n
  | None => None
  end.

Definition csv_float (s : string) : option float :=
  match scan_numeral s with
  | Some n => Some (numeral_float n)
  | None =>
      let l := lower s in
      if str_mem l ["inf"; "+inf"; "infinity"; "+infinity"] then Some (S754_infinity false)
      else if str_mem l ["-inf"; "-infinity"] then Some (S754_infinity true)
      else None
  end.

Definition csv_bool (s : string) : option bool :=
  if str_mem s ["True"; "TRUE"; "true"] then Some true
  else if str_mem s ["False"; "FALSE"; "false"] then Some false
  else None.

(** [Some] of all the images when [f] is defined on every element. *)
Fixpoint map_all {A B} (f : A -> option B) (l : list A) : option (list B) :=
  match l with
  | [] => Some []
  | x :: r =>
      match f x, map_all f r with
      | Some y, Some ys => Some (y :: ys)
      | _, _ => None
      end
  end.

Definition nan_cell : cell := VFloat S754_nan.

(** The dtypes are tried in the order int64 (uint64), float64, bool,
    object.  An integer column has no missing value; in a float column a
    missing value is NaN; a boolean column with missing values, like a
    column of strings, is a column of objects.

    The least [int64] and the greatest [uint64] are the parser's markers
    of a missing value in a column of that dtype, so they are not read
    as themselves. *)
Definition plain_int64 (z : Z) : bool := (INT64_MIN <? z) && (z <=? INT64_MAX).
Definition plain_uint64 (z : Z) : bool := (0 <=? z) && (z <? UINT64_MAX).

Definition infer_int (toks : list string) : option column :=
  match map_all csv_int toks with
  | Some zs =>
      if forallb plain_int64 zs || forallb plain_uint64 zs
      then Some (map VInt zs) else None
  | None => None
  end.

Definition infer_float (toks : list string) : option column :=
  option_map (map VFloat)
    (map_all (fun s => if is_na_text s then Some S754_nan else csv_float s) toks).

Definition infer_bool (toks : list string) : option column :=
  map_all (fun s => if is_na_text s then Some nan_cell
                    else option_map VBool (csv_bool s)) toks.

Definition infer_object (toks : list string) : column :=
  map (fun s => if is_na_text s then nan_cell else VStr s) toks.

(** The column a list of tokens is read as. *)
Definition infer_column (toks : list string) : column :=
  match toks with
  | [] => []
  | _ =>
      match infer_int toks with
      | Some col => col
      | None =>
          match infer_float toks with
          | Some col => col
          | None =>
              match infer_bool toks with
              | Some col => col
              | None => infer_object toks
              end
          end
      end
  end.

(** An integer numeral that an [int64] column cannot hold as such. *)
Definition wide_int (s : string) : bool :=
  match csv_int s with
  | Some z => negb (plain_int64 z)
  | None => false
  end.

(** The columns the inference above is right about.  When every token
    of a column reads as a number or a missing value, one of them is an
    integer numeral that [int64] cannot hold, and the column is no
    [uint64] column, pandas reads it as floats or leaves it as text,
    depending on the order of the tokens; that case is not covered. *)
Definition column_modelled (toks : list string) : bool :=
  negb (existsb wide_int toks)
  || match infer_int toks with Some _ => true | None => false end
  || match infer_float toks with Some _ => false | None => true end.

(** *** Header and shape *)

Fixpoint count_occ_str (s : string) (l : list string) : nat :=
  match l with
  | [] => 0
  | x :: r => (if String.eqb s x then 1 else 0) + count_occ_str s r
  end.

(** Column labels: an empty header field is "Unnamed: i", a repeated
    label gets the suffix ".k". *)
Fixpoint label_columns (i : nat) (seen : list string) (hdr : list string) : list string :=
  match hdr with
  | [] => []
  | h :: r =>
      let base := match h with
                  | EmptyString => "Unnamed: " ++ nat_text (Z.of_nat i)
                  | _ => h
                  end in
      let k := count_occ_str base seen in
      let name := match k with
                  | O => base
                  | _ => base ++ "." ++ nat_text (Z.of_nat k)
                  end in
      name :: label_columns (S i) (base :: seen) r
  end.

Definition pad_row (w : nat) (r : list string) : list string :=
  (r ++ repeat "" (w - length r))%list.

(** The tokens of field [j] of every record. *)
Definition field_column (rows : list (list string)) (j : nat) : list string :=
  map (fun r => match r !! j with Some s => s | None => "" end) rows.

(** [pd.read_csv(up)] with the default arguments.  The first record is
    the header.  A short record is completed with missing values; a
    record longer than the table is a parse error.  When the first data
    record is longer than the header pandas takes its leading fields as
    row labels, which the embedding does not cover. *)
Definition read_csv (bytes : string) : result DataFrame :=
  rows ← tokenize bytes;
  match rows with
  | [] => Raise EmptyDataError
  | hdr :: data =>
      let w := match data with
               | [] => length hdr
               | r1 :: _ => Nat.max (length hdr) (length r1)
               end in
      if existsb (fun r => (w <? length r)%nat) data
      then Raise (ParserError "Error tokenizing data. C error: too many fields in a line")
      else if (length hdr <? w)%nat
      then Raise (NotModelled "implicit index column")
      else
        let data := map (pad_row w) data in
        if forallb (fun j => column_modelled (field_column data j)) (seq 0 w)
        then
          Ok (mkDF (seq 0 (length data))
                   (zip_with (fun name j => (name, infer_column (field_column data j)))
                             (label_columns 0 [] hdr) (seq 0 w)))
        else Raise (NotModelled "integer numeral outside the range of int64")
  end.

(* ================================================================= *)
(** ** The import block of [main] *)

(** [try: df = pd.read_csv(up); gifts = ensure_df(df) except Exception as
    e: st.sidebar.error(...)]: the new ledger, and the error shown. *)
Definition import_csv (today : pydate) (gifts : DataFrame) (bytes : string)
  : DataFrame * option exn :=
  match df ← read_csv bytes; ensure_df today df with
  | Ok g => (g, None)
  | Raise e => (gifts, Some e)
  end.

(** The errors [pd.read_csv] raises on input that is not CSV. *)
Definition is_parse_error (e : exn) : bool :=
  match e with
  | EmptyDataError | ParserError _ => true
  | _ => false
  end.

(* ================================================================= *)
(** ** Ledgers that survive the file

    What a cell has to satisfy to come back from [pd.read_csv] as it
    was written by [to_csv]. *)

Fixpoint has_cr (s : string) : bool :=
  match s with
  | EmptyString => false
  | String c r => Ascii.eqb c cr || has_cr r
  end.

(** A carriage return is harmless inside a quoted field; in a field
    that is written without quotes the reader takes it for the end of
    the line. *)
Definition cr_safe (s : string) : bool := negb (has_cr s) || needs_quote s.









(* ================================================================= *)
(** ** Example data *)

Definition example_today : pydate := mkDate 2026 11 4.

(** A ledger of three gifts. *)
Definition example_ledger : DataFrame :=
  mkDF [0; 1; 2]%nat
    [("date", [VStr "2024-12-01"; VStr "2025-02-14"; VStr "2025-06-30"]);
     ("year", [VInt 2024; VInt 2025; VInt 2025]);
     ("recipient", [VStr "Alice"; VStr "Bob"; VStr "Carol"]);
     ("occasion", [VStr "Christmas"; VStr "Valentine"; VStr "Birthday"]);
     ("idea", [VStr "book"; VStr "scarf"; VStr "tea set"]);
     ("budget", [VFloat (float_lit "100"); VFloat (float_lit "50"); VFloat (float_lit "12.5")]);
     ("purchased", [VBool false; VBool true; VBool false]);
     ("purchased_cost", [VFloat zero; VFloat (float_lit "40"); VFloat zero])].

Definition nl : string := String newline "".

(** States of the tokenizer in which a comma, respectively a newline,
    closes the field read so far. *)
Definition comma_ready (s : tstate) : bool :=
  match s with
  | START_RECORD | WHITESPACE_LINE | START_FIELD | IN_FIELD | QUOTE_IN_QUOTED_FIELD => true
  | _ => false
  end.

Definition newline_ready (s : tstate) : bool :=
  match s with
  | START_FIELD | IN_FIELD | QUOTE_IN_QUOTED_FIELD => true
  | _ => false
  end.

(** A raw table as an upload may give it: some columns are missing, one
    is not part of the schema, some cells are missing or of another
    type. *)
Definition example_table : DataFrame :=
  mkDF [0; 1; 2]%nat
    [("recipient", [VStr "Alice"; VNone; VInt 7]);
     ("note", [VStr "wrap it"; VNone; VNone]);
     ("year", [VStr "abc"; VInt 2020; VFloat (float_lit "2021.9")]);
     ("date", [VStr "soon"; VNone; VStr "2024-05-01"]);
     ("budget", [VStr "12.5"; VStr "x"; VInt (-5)]);
     ("purchased", [VStr "False"; VNone; VInt 0])].

(** Its normal form on [example_today]. *)
Definition example_normal : DataFrame :=
  Eval vm_compute in
    match ensure_df example_today example_table with
    | Ok df => df
    | Raise _ => empty_df
    end.

(** Gifts of 2025 whose recipient contains "o". *)
Definition example_filter : FilterInput := mkFilter [2025] " O " "" false.

Definition example_view : DataFrame :=
  Eval vm_compute in
    match filter_view example_ledger example_filter with
    | Ok df => df
    | Raise _ => empty_df
    end.

(** The user ticks every gift in view and enters a cost of 30. *)
Definition example_edits : Edits :=
  mkEdits (fun _ _ => VBool true) (fun _ _ => VFloat (float_lit "30")).

(** A file whose third line has a field too many. *)
Definition example_bad_csv : string :=
  "a,b" ++ nl ++ "1,2" ++ nl ++ "3,4,5" ++ nl.



(** A gift added while the filter is on. *)
Definition example_form : GiftForm :=
  mkForm (mkDate 2026 11 4) 2026 " Dan " "Christmas" "socks"
         (float_lit "15") false zero.

Definition example_after_add : DataFrame :=
  Eval vm_compute in
    match add_gift example_today example_ledger example_form with
    | Ok df => df
    | Raise _ => empty_df
    end.

(* ================================================================= *)
(** ** The totals of [main]

    [Series.sum()] on a [float64] column: pandas puts zero in the place
    of the missing values and calls [ndarray.sum()], which adds the
    result of numpy's pairwise summation to the initial value 0.0. *)

Definition float_add (a b : float) : float := SFadd prec emax a b.
Definition float_sub (a b : float) : float := SFsub prec emax a b.

Definition neg_zero : float := S754_zero true.

(** The eight running sums of a block: [r[j] += a[i + j]] for each
    further group of eight elements. *)
Fixpoint lanes (groups : nat) (r l : list float) : list float :=
  match groups with
  | O => r
  | S k => lanes k (zip_with float_add r (firstn 8 l)) (skipn 8 l)
  end.

Definition lane (r : list float) (j : nat) : float := nth j r neg_zero.

(** [((r0 + r1) + (r2 + r3)) + ((r4 + r5) + (r6 + r7))] *)
Definition combine_lanes (r : list float) : float :=
  float_add (float_add (float_add (lane r 0) (lane r 1))
                       (float_add (lane r 2) (lane r 3)))
            (float_add (float_add (lane r 4) (lane r 5))
                       (float_add (lane r 6) (lane r 7))).

(** A block of 8 to 128 elements: eight running sums over the groups of
    eight, combined, then the elements that are left over. *)
Definition block_sum (l : list float) : float :=
  let n := length l in
  let full := (n - n mod 8)%nat in
  let r := lanes (full / 8 - 1) (firstn 8 l) (skipn 8 (firstn full l)) in
  fold_left float_add (skipn full l) (combine_lanes r).

(** numpy's [pairwise_sum]: fewer than eight elements are added one by
    one, a longer array in blocks, an array of more than 128 elements as
    the sum of its two halves (the first a multiple of eight long).  The
    recursion halves the array, so [length l] levels are never used up. *)
Fixpoint pairwise_sum (depth : nat) (l : list float) : float :=
  let n := length l in
  if (n <? 8)%nat then fold_left float_add l neg_zero
  else if (n <=? 128)%nat then block_sum l
  else
    match depth with
    | O => block_sum l
    | S k =>
        let n2 := (n / 2 - (n / 2) mod 8)%nat in
        float_add (pairwise_sum k (firstn n2 l)) (pairwise_sum k (skipn n2 l))
    end.

(** [nanops.nansum]: NaN counts as zero. *)
Definition nansum (l : list float) : float :=
  let filled := map (fun f => if float_is_nan f then zero else f) l in
  float_add zero (pairwise_sum (length filled) filled).

(** The values of a [float64] column, of a [bool] column. *)
Fixpoint float_values (col : column) : result (list float) :=
  match col with
  | [] => Ok []
  | VFloat f :: r => l ← float_values r; Ok (f :: l)
  | _ :: _ => Raise (NotModelled "sum of a column that is not float64")
  end.

Fixpoint bool_values (col : column) : result (list bool) :=
  match col with
  | [] => Ok []
  | VBool b :: r => l ← bool_values r; Ok (b :: l)
  | _ :: _ => Raise (NotModelled "mask that is not a column of booleans")
  end.

(** [max(a, b)] of Python: [b] when [b > a], else [a]. *)
Definition py_max (a b : float) : float := if SFltb a b then b else a.

Record Totals := mkTotals {
  total_budget : float;
  total_spent : float;
  remaining : float
}.

(** The block [# KPIs]:
    [total_budget = float(fdf["budget"].sum())],
    [total_spent = float(fdf.loc[fdf["purchased"], "purchased_cost"].sum())],
    and [max(total_budget - total_spent, 0.0)] for the third metric. *)
Definition kpis (fdf : DataFrame) : result Totals :=
  b ← getitem "budget" fdf;
  bs ← float_values b;
  p ← getitem "purchased" fdf;
  ps ← bool_values p;
  c ← getitem "purchased_cost" fdf;
  cs ← float_values c;
  let tb := nansum bs in
  let ts := nansum (select ps cs) in
  Ok (mkTotals tb ts (py_max (float_sub tb ts) zero)).

(** *** The labels of the metrics: [f"${x:,.2f}"] *)

(** A comma before every group of three digits, counted from the right. *)
Fixpoint commas (s : string) : string :=
  match s with
  | EmptyString => EmptyString
  | String c r =>
      let k := String.length r in
      if (0 <? k)%nat && (k mod 3 =? 0)%nat
      then String c (String "," (commas r))
      else String c (commas r)
  end.

(** The hundredths nearest to a positive float [m * 2 ^ e], ties to
    even (the float is formatted from its exact value). *)
Definition hundredths (m : positive) (e : Z) : Z :=
  if 0 <=? e then Zpos m * 2 ^ e * 100
  else round_half_even (Zpos m * 100) (2 ^ (- e)).

(** [format(x, ",.2f")] *)
Definition fixed2 (f : float) : string :=
  match f with
  | S754_nan => "nan"
  | S754_infinity s => if s then "-inf" else "inf"
  | S754_zero s => if s then "-0.00" else "0.00"
  | S754_finite s m e =>
      let q := hundredths m e in
      (if s then "-" else "") ++ commas (nat_text (q / 100)) ++ "."
        ++ zero_pad 2 (q mod 100)
  end.

Definition money_label (f : float) : string := "$" ++ fixed2 f.

(* ================================================================= *)
(** ** One run of [main]

    Streamlit runs [main] from top to bottom at every interaction.  The
    ledger lives in [st.session_state.gifts]: a run reads and replaces
    it, and what it has stored stays stored when a later statement
    raises.  A run is therefore a computation on the stored ledger that
    ends with a value or with the exception that stopped it. *)

Definition session (A : Type) : Type := DataFrame -> DataFrame * result A.

#[global] Instance session_ret : MRet session := fun A a g => (g, Ok a).
#[global] Instance session_bind : MBind session := fun A B k m g =>
  match m g with
  | (g', Ok a) => k a g'
  | (g', Raise e) => (g', Raise e)
  end.

(** [st.session_state.gifts] read, and assigned. *)
Definition get_gifts : session DataFrame := fun g => (g, Ok g).
Definition set_gifts (g : DataFrame) : session unit := fun _ => (g, Ok tt).

(** A computation that does not touch the session. *)
Definition lift {A} (r : result A) : session A := fun g => (g, r).

(** What the widgets return in a run: the file in the uploader, the
    four filter widgets, the form when "Add" was pressed, and the edits
    made in the table. *)
Record Widgets := mkWidgets {
  up : option string;
  filters : FilterInput;
  submitted : option GiftForm;
  edits : Edits
}.

(** What the run shows. *)
Record Page := mkPage {
  upload_note : option (option exn);  (* "Imported." or "Upload failed: ..." *)
  export_data : option string;        (* the data of the download button *)
  years : list Z;                     (* the options of the year filter *)
  view : DataFrame;                   (* the table *)
  metrics : list string;              (* Budget, Spent, Remaining *)
  added : bool                        (* "Added." *)
}.

(** [if "gifts" not in st.session_state: ... = ensure_df(empty_df())] *)
Definition init_state (today : pydate) (stored : option DataFrame) : result DataFrame :=
  match stored with
  | Some g => Ok g
  | None => ensure_df today empty_df
  end.

(** [if up is not None: try: ... except Exception as e: ...] *)
Definition upload_step (today : pydate) (file : option string)
  : session (option (option exn)) :=
  match file with
  | None => mret None
  | Some bytes => fun g => let '(g', err) := import_csv today g bytes in (g', Ok (Some err))
  end.

(** [if submitted: ...] *)
Definition submit_step (today : pydate) (form : option GiftForm) : session bool :=
  match form with
  | None => mret false
  | Some f =>
      g ← get_gifts;
      g' ← lift (add_gift today g f);
      _ ← set_gifts g';
      mret true
  end.

(** The table and the write-back of its edits. *)
Definition table_step (fdf : DataFrame) (e : Edits) : session unit :=
  g ← get_gifts;
  g' ← lift (edit_step g fdf e);
  set_gifts g'.

Definition page (today : pydate) (w : Widgets) : session Page :=
  note ← upload_step today (up w);
  g ← get_gifts;
  let export := if df_empty g then None else Some (download_csv g) in
  ys ← lift (year_options today g);
  fdf ← lift (filter_view g (filters w));
  t ← lift (kpis fdf);
  let labels := map money_label [total_budget t; total_spent t; remaining t] in
  a ← submit_step today (submitted w);
  _ ← table_step fdf (edits w);
  mret (mkPage note export ys fdf labels a).

(** One run: the stored ledger after it, and what it showed or the
    exception that stopped it. *)
Definition main (today : pydate) (stored : option DataFrame) (w : Widgets)
  : option DataFrame * result Page :=
  match init_state today stored with
  | Ok g => let '(g', r) := page today w g in (Some g', r)
  | Raise e => (stored, Raise e)
  end.

(** [NotModelled] stands for behaviour of pandas or of [re] that is not
    described here.  The statements about a whole run are made for
    widgets inside the described fragment: a file on which [read_csv] is
    modelled, search texts on which [re_compile] is. *)
Definition unmodelled {A} (r : result A) : bool :=
  match r with
  | Raise (NotModelled _) => true
  | _ => false
  end.

Definition upload_modelled (w : Widgets) : bool :=
  match up w with
  | Some bytes => negb (unmodelled (read_csv bytes))
  | None => true
  end.

Definition search_modelled (flt : FilterInput) : bool :=
  negb (unmodelled (re_compile (lower (strip (rec_text flt))))) &&
  negb (unmodelled (re_compile (lower (strip (occ_text flt))))).

(** The ledgers the application keeps: the schema, and rows numbered
    from 0. *)
Definition ledger_inv (g : DataFrame) : Prop :=
  ledger_ok g /\ index g = seq 0 (nrows g).

(** An editor that returns booleans and floats. *)
Definition typed_edits (e : Edits) : Prop :=
  (forall l c, is_flag (edit_purchased e l c) = true) /\
  (forall l c, is_money (edit_cost e l c) = true).

(** A list of integers in strictly increasing order. *)
Fixpoint strictly_increasing (l : list Z) : bool :=
  match l with
  | x :: r => match r with
              | y :: _ => (x <? y) && strictly_increasing r
              | [] => true
              end
  | [] => true
  end.

(** A float that is a number and is not below zero. *)
Definition not_negative (f : float) : bool :=
  negb (float_is_negative f) && negb (float_is_nan f).

(** The hundredths a label shows: its digits, read as one number. *)
Fixpoint digits_only (s : string) : string :=
  match s with
  | EmptyString => EmptyString
  | String c r => if is_digit c then String c (digits_only r) else digits_only r
  end.

Definition label_cents (s : string) : Z := digits_val 0 (digits_only s).

(** A text of spaces, tabs and line ends only. *)
Fixpoint is_blank_text (s : string) : bool :=
  match s with
  | EmptyString => true
  | String c r =>
      (Ascii.eqb c newline || Ascii.eqb c cr || is_blank c) && is_blank_text r
  end.

(* ================================================================= *)
(** ** Properties of the normaliser *)

Section ColumnAccess.

Lemma lookup_replace_same c v cols :
  lookup_col c (replace_col c v cols) = Some v.
Proof.
  induction cols as [|[n w] r IH]; simpl.
  - now rewrite String.eqb_refl.
  - destruct (String.eqb c n) eqn:E; simpl; rewrite E; auto.
Qed.

Lemma lookup_replace_other c c' v cols :
  c <> c' -> lookup_col c' (replace_col c v cols) = lookup_col c' cols.
Proof.
  intros Hne. induction cols as [|[n w] r IH]; simpl.
  - destruct (String.eqb_spec c' c); congruence.
  - destruct (String.eqb_spec c n) as [->|Hn]; simpl.
    + destruct (String.eqb_spec c' n); congruence.
    + now rewrite IH.
Qed.

Lemma lookup_add_missing today df c c' :
  lookup_col c' (columns (add_missing today df c)) =
  match lookup_col c' (columns df) with
  | Some v => Some v
  | None => if String.eqb c' c
            then Some (repeat (missing_default today c') (nrows df)) else None
  end.
Proof.
  unfold add_missing, has_column.
  destruct (lookup_col c (columns df)) eqn:Hc.
  - destruct (lookup_col c' (columns df)) eqn:Hc'; auto.
    destruct (String.eqb_spec c' c); congruence.
  - unfold setitem_scalar; simpl.
    destruct (String.eqb_spec c' c) as [->|Hne].
    + now rewrite lookup_replace_same, Hc.
    + rewrite lookup_replace_other by congruence. now destruct (lookup_col c' _).
Qed.

Lemma index_add_missing today df c : index (add_missing today df c) = index df.
Proof. unfold add_missing. now destruct (has_column c df). Qed.

Lemma index_fold_add_missing today cs df :
  index (fold_left (add_missing today) cs df) = index df.
Proof.
  revert df. induction cs as [|c cs IH]; intros df; simpl; auto.
  now rewrite IH, index_add_missing.
Qed.

Lemma lookup_fold_add_missing today cs df c' :
  lookup_col c' (columns (fold_left (add_missing today) cs df)) =
  match lookup_col c' (columns df) with
  | Some v => Some v
  | None => if str_mem c' cs
            then Some (repeat (missing_default today c') (nrows df)) else None
  end.
Proof.
  revert df. induction cs as [|c cs IH]; intros df; simpl.
  - now destruct (lookup_col c' _).
  - rewrite IH, lookup_add_missing.
    unfold nrows. rewrite index_add_missing.
    destruct (lookup_col c' (columns df)); auto.
    now destruct (String.eqb c' c).
Qed.

Lemma lookup_after_add_missing today df c :
  str_mem c COLUMNS = true ->
  lookup_col c (columns (fold_left (add_missing today) COLUMNS df)) =
  Some (col_or_default today df c).
Proof.
  intros H. rewrite lookup_fold_add_missing, H. unfold col_or_default.
  now destruct (lookup_col c (columns df)).
Qed.

End ColumnAccess.

(** [ensure_df] in closed form: the only step that can raise is the cast
    of the [year] column. *)
Lemma ensure_df_eq today df :
  ensure_df today df =
  y ← coerce_year today (col_or_default today df "year");
  Ok (normal_form today df y).
Proof.
  unfold ensure_df, getitem_list.
  unfold COLUMNS at 2. cbn [select_cols].
  rewrite !lookup_after_add_missing by reflexivity.
  cbn [mbind result_bind]. rewrite index_fold_add_missing.
  unfold update_col, getitem, setitem.
  cbn [columns index lookup_col replace_col String.eqb Ascii.eqb Bool.eqb mbind result_bind].
  destruct (coerce_year today (col_or_default today df "year")) as [y|e]; reflexivity.
Qed.

(* ----------------------------------------------------------------- *)
(** *** Rounding never produces NaN *)

Section Rounding.

Lemma shr_1_nonneg mrs : 0 <= shr_m mrs -> 0 <= shr_m (shr_1 mrs).
Proof.
  destruct mrs as [m r s]; simpl.
  destruct m as [|p|p]; simpl; try lia; destruct p; simpl; lia.
Qed.

Lemma iter_shr_1_nonneg p mrs :
  0 <= shr_m mrs -> 0 <= shr_m (SpecFloat.iter_pos shr_1 p mrs).
Proof.
  revert mrs. induction p as [p IH|p IH|]; intros mrs H; simpl.
  - apply IH, IH, shr_1_nonneg, H.
  - apply IH, IH, H.
  - apply shr_1_nonneg, H.
Qed.

Lemma shr_fexp_nonneg m e l :
  0 <= m -> 0 <= shr_m (fst (shr_fexp prec emax m e l)).
Proof.
  intros H. unfold shr_fexp, shr.
  assert (H0 : 0 <= shr_m (shr_record_of_loc m l)).
  { destruct l as [|[]]; simpl; exact H. }
  destruct (fexp prec emax (Zdigits2 m + e) - e); simpl; auto.
  now apply iter_shr_1_nonneg.
Qed.

Lemma round_nearest_even_nonneg m l : 0 <= m -> 0 <= round_nearest_even m l.
Proof.
  intros H. destruct l as [|[]]; simpl; try lia.
  destruct (Z.even m); lia.
Qed.

Lemma binary_round_aux_not_nan s m e l :
  0 <= m -> float_is_nan (binary_round_aux prec emax s m e l) = false.
Proof.
  intros H. unfold binary_round_aux.
  pose proof (shr_fexp_nonneg m e l H) as H1.
  destruct (shr_fexp prec emax m e l) as [mrs' e'] eqn:E1. simpl in H1.
  pose proof (shr_fexp_nonneg _ e' loc_Exact
                (round_nearest_even_nonneg _ (loc_of_shr_record mrs') H1)) as H2.
  destruct (shr_fexp prec emax (round_nearest_even _ _) e' loc_Exact)
    as [mrs'' e''] eqn:E2. simpl in H2.
  destruct (shr_m mrs'') as [|p|p]; simpl; auto.
  - now destruct (e'' <=? emax - prec).
  - lia.
Qed.

Lemma binary_round_not_nan s m e :
  float_is_nan (binary_round prec emax s m e) = false.
Proof.
  unfold binary_round.
  destruct (shl_align m e _) as [mz ez].
  apply binary_round_aux_not_nan. lia.
Qed.

Lemma float_of_Z_not_nan z : float_is_nan (float_of_Z z) = false.
Proof.
  unfold float_of_Z, binary_normalize.
  destruct z; auto using binary_round_not_nan.
Qed.

End Rounding.

(* ----------------------------------------------------------------- *)
(** *** The coercions are idempotent *)

Section Idempotence.

Lemma coerce_text_idem col : coerce_text (coerce_text col) = coerce_text col.
Proof.
  unfold coerce_text, astype_str, fillna. rewrite !map_map.
  apply map_ext. intros c. reflexivity.
Qed.

Lemma coerce_purchased_idem col :
  coerce_purchased (coerce_purchased col) = coerce_purchased col.
Proof.
  unfold coerce_purchased, astype_bool, fillna. rewrite !map_map.
  apply map_ext. intros c. reflexivity.
Qed.

(** A column of floats without NaN is left as it is. *)
Lemma coerce_money_floats l :
  forallb (fun f => negb (float_is_nan f)) l = true ->
  coerce_money (map VFloat l) = map VFloat l.
Proof.
  intros H. unfold coerce_money, to_numeric. rewrite map_map.
  assert (Hn : map (fun f => cell_numeric (VFloat f)) l = map NFloat l).
  { apply map_ext_in. intros f Hf. simpl. unfold numeric_of_float.
    rewrite forallb_forall in H. specialize (H f Hf).
    now destruct (float_is_nan f). }
  rewrite Hn. destruct l as [|f l]; [reflexivity|].
  change (needs_float (map NFloat (f :: l))) with true. cbv iota.
  cbn [numcol_fillna astype_float]. f_equal. rewrite !map_map.
  etransitivity; [|apply map_id]. apply map_ext_in.
  intros g Hg. cbn [numeric_float].
  rewrite forallb_forall in H. specialize (H g Hg).
  now destruct (float_is_nan g).
Qed.

Lemma astype_float_no_nan c :
  forallb (fun f => negb (float_is_nan f)) (astype_float (numcol_fillna zero c)) = true.
Proof.
  rewrite forallb_forall. intros f Hf.
  destruct c as [l|l|l]; simpl in Hf; rewrite in_map_iff in Hf;
    destruct Hf as [x [<- _]].
  - destruct (float_is_nan x) eqn:E; [reflexivity | now rewrite E].
  - now rewrite float_of_Z_not_nan.
  - now rewrite float_of_Z_not_nan.
Qed.

Lemma coerce_money_idem col : coerce_money (coerce_money col) = coerce_money col.
Proof. unfold coerce_money at 2 3. apply coerce_money_floats, astype_float_no_nan. Qed.

Lemma wrap64_range z : in_int64 (wrap64 z) = true.
Proof.
  unfold in_int64, wrap64, INT64_MIN, INT64_MAX.
  pose proof (Z.mod_pos_bound (z + 2 ^ 63) (2 ^ 64) ltac:(lia)).
  apply andb_true_intro; split; apply Z.leb_le; lia.
Qed.

Lemma wrap64_id z : in_int64 z = true -> wrap64 z = z.
Proof.
  unfold in_int64, wrap64, INT64_MIN, INT64_MAX. intros H.
  apply andb_prop in H as [H1 H2]. apply Z.leb_le in H1, H2.
  rewrite Z.mod_small; lia.
Qed.

Lemma float_to_int64_range f : in_int64 (float_to_int64 f) = true.
Proof.
  unfold float_to_int64. destruct (in_int64 (float_trunc f)) eqn:E; auto.
Qed.

Lemma astype_int_range c l :
  astype_int c = Ok l -> forallb in_int64 l = true.
Proof.
  destruct c as [fl|zl|bl]; simpl.
  - destruct (forallb float_is_finite fl); [|discriminate].
    intros [= <-]. rewrite forallb_forall. intros z Hz.
    apply in_map_iff in Hz as [f [<- _]]. apply float_to_int64_range.
  - intros [= <-]. rewrite forallb_forall. intros z Hz.
    apply in_map_iff in Hz as [f [<- _]]. apply wrap64_range.
  - intros [= <-]. rewrite forallb_forall. intros z Hz.
    apply in_map_iff in Hz as [b [<- _]]. now destruct b.
Qed.

(** A column of 64-bit integers is left as it is, whatever the clock. *)
Lemma coerce_year_ints today l :
  forallb in_int64 l = true ->
  coerce_year today (map VInt l) = Ok (map VInt l).
Proof.
  intros H. unfold coerce_year, to_numeric. rewrite map_map.
  change (fun x : Z => cell_numeric (VInt x)) with NInt.
  destruct l as [|z l]; [reflexivity|].
  assert (Hr : forall x, In x (z :: l) -> INT64_MIN <= x <= INT64_MAX).
  { intros x Hx. rewrite forallb_forall in H. specialize (H x Hx).
    unfold in_int64 in H. apply andb_prop in H as [H1 H2].
    apply Z.leb_le in H1, H2. lia. }
  assert (Hf : needs_float (map NInt (z :: l)) = false).
  { unfold needs_float. apply orb_false_intro.
    - apply not_true_is_false. intros He. apply existsb_exists in He as [n [Hn Hb]].
      apply in_map_iff in Hn as [x [<- Hx]]. specialize (Hr x Hx). simpl in Hb.
      unfold UINT64_MAX, INT64_MIN, INT64_MAX in *.
      apply orb_prop in Hb as [Hb|Hb]; apply Z.ltb_lt in Hb; lia.
    - apply andb_false_intro2.
      apply not_true_is_false. intros He. apply existsb_exists in He as [n [Hn Hb]].
      apply in_map_iff in Hn as [x [<- Hx]]. specialize (Hr x Hx).
      apply Z.ltb_lt in Hb. lia. }
  rewrite Hf. change (existsb is_NInt (map NInt (z :: l))) with true. cbv iota.
  cbn [numcol_fillna astype_int mbind result_bind]. f_equal. f_equal.
  rewrite !map_map. etransitivity; [|apply map_id]. apply map_ext_in.
  intros x Hx. cbn [numeric_int]. apply wrap64_id.
  rewrite forallb_forall in H. now apply H.
Qed.

Lemma coerce_year_idem today today' col y :
  coerce_year today col = Ok y -> coerce_year today' y = Ok y.
Proof.
  unfold coerce_year at 1.
  destruct (astype_int _) as [l|e] eqn:E; [|discriminate].
  intros [= <-]. apply coerce_year_ints. eapply astype_int_range, E.
Qed.

End Idempotence.

(** [ensure_df] on a frame it returned. *)
Lemma ensure_df_fixed today today' df df' :
  ensure_df today df = Ok df' -> ensure_df today' df' = Ok df'.
Proof.
  rewrite ensure_df_eq.
  destruct (coerce_year today _) as [y|e] eqn:Ey; [|discriminate].
  intros [= <-]. rewrite ensure_df_eq.
  assert (Hcol : forall c v,
             lookup_col c (columns (normal_form today df y)) = Some v ->
             col_or_default today' (normal_form today df y) c = v).
  { intros c v Hc. unfold col_or_default. now rewrite Hc. }
  rewrite (Hcol "year" y eq_refl), (coerce_year_idem _ today' _ _ Ey).
  cbn [mbind result_bind]. unfold normal_form at 1.
  rewrite (Hcol "date" _ eq_refl), (Hcol "recipient" _ eq_refl),
    (Hcol "occasion" _ eq_refl), (Hcol "idea" _ eq_refl),
    (Hcol "budget" _ eq_refl), (Hcol "purchased" _ eq_refl),
    (Hcol "purchased_cost" _ eq_refl).
  now rewrite !coerce_text_idem, !coerce_money_idem, coerce_purchased_idem.
Qed.

(* ----------------------------------------------------------------- *)
(** *** Cell by cell: what each coercion does *)

Section Cells.

Lemma lookup_map {A B} (f : A -> B) (l : list A) (i : nat) :
  map f l !! i = option_map f (l !! i).
Proof.
  revert i. induction l as [|a l IH]; intros [|i]; simpl; auto.
Qed.

Lemma lookup_repeat {A} (x : A) (n i : nat) :
  (i < n)%nat -> repeat x n !! i = Some x.
Proof.
  revert i. induction n as [|n IH]; intros [|i] H; simpl; try lia; auto.
  apply IH. lia.
Qed.

Lemma lookup_In {A} (l : list A) (i : nat) (x : A) : l !! i = Some x -> In x l.
Proof.
  revert i. induction l as [|a l IH]; intros [|i]; simpl; try discriminate.
  - intros [= ->]. now left.
  - intros H. right. eauto.
Qed.

Lemma cell_at_lookup df c i x :
  cell_at df c i = Some x ->
  exists v, lookup_col c (columns df) = Some v /\ v !! i = Some x.
Proof.
  unfold cell_at. destruct (lookup_col c (columns df)) as [v|]; [eauto|discriminate].
Qed.

Lemma col_or_default_present today df c v :
  lookup_col c (columns df) = Some v -> col_or_default today df c = v.
Proof. unfold col_or_default. now intros ->. Qed.

Lemma col_or_default_missing today df c :
  has_column c df = false ->
  col_or_default today df c = repeat (missing_default today c) (nrows df).
Proof.
  unfold has_column, col_or_default.
  now destruct (lookup_col c (columns df)).
Qed.

Lemma coerce_text_at col i x :
  col !! i = Some x ->
  coerce_text col !! i = Some (VStr (if isna x then "" else py_str x)).
Proof.
  intros H. unfold coerce_text, astype_str, fillna.
  rewrite !lookup_map, H. simpl. now destruct (isna x).
Qed.

Lemma coerce_purchased_at col i x :
  col !! i = Some x ->
  coerce_purchased col !! i = Some (VBool (if isna x then false else truthy x)).
Proof.
  intros H. unfold coerce_purchased, astype_bool, fillna.
  rewrite !lookup_map, H. simpl. now destruct (isna x).
Qed.

Lemma forces_float_needs col x :
  In x col -> forces_float (cell_numeric x) = true ->
  needs_float (map cell_numeric col) = true.
Proof.
  intros Hin Hf. unfold needs_float. apply orb_true_intro. left.
  apply existsb_exists. exists (cell_numeric x). split; auto. now apply in_map.
Qed.

(** A cell that is missing or is not a number becomes [0.0]. *)
Lemma coerce_money_default col i x :
  col !! i = Some x -> cell_numeric x = NNull ->
  coerce_money col !! i = Some (VFloat zero).
Proof.
  intros H Hn. unfold coerce_money, to_numeric.
  rewrite (forces_float_needs col x) by (eauto using lookup_In; now rewrite Hn).
  cbn [numcol_fillna astype_float]. rewrite !lookup_map, H. simpl. now rewrite Hn.
Qed.


(** The years of the calendar are exact as floats. *)
Lemma calendar_years_exact :
  forallb (fun k => let f := float_of_Z (Z.of_nat k) in
                    float_is_finite f && (float_to_int64 f =? Z.of_nat k))
          (seq 1 (Z.to_nat 9999)) = true.
Proof. vm_compute. reflexivity. Qed.

Lemma year_float_exact y :
  1 <= y <= 9999 ->
  float_is_finite (float_of_Z y) = true /\ float_to_int64 (float_of_Z y) = y.
Proof.
  intros Hy. pose proof calendar_years_exact as H.
  rewrite forallb_forall in H. specialize (H (Z.to_nat y)).
  rewrite Z2Nat.id in H by lia.
  assert (Hin : In (Z.to_nat y) (seq 1 (Z.to_nat 9999))) by (apply in_seq; lia).
  apply H in Hin. apply andb_prop in Hin as [H1 H2]. apply Z.eqb_eq in H2. auto.
Qed.

(** A cell that is missing or is not a number becomes the current year. *)
Lemma coerce_year_default today col y i x :
  1 <= d_year today <= 9999 ->
  coerce_year today col = Ok y ->
  col !! i = Some x -> cell_numeric x = NNull ->
  y !! i = Some (VInt (d_year today)).
Proof.
  intros Hy Hc H Hn. unfold coerce_year, to_numeric in Hc.
  rewrite (forces_float_needs col x) in Hc by (eauto using lookup_In; now rewrite Hn).
  cbn [numcol_fillna astype_int] in Hc.
  destruct (forallb float_is_finite _); [|discriminate].
  cbn [mbind result_bind] in Hc. injection Hc as <-.
  rewrite !lookup_map, H. simpl. rewrite Hn. simpl.
  now rewrite (proj2 (year_float_exact _ Hy)).
Qed.

(** The cast of the year column succeeds when no cell is infinite. *)
Lemma coerce_year_ok today col :
  1 <= d_year today <= 9999 ->
  forallb (fun c => match numeric_float (cell_numeric c) with
                    | S754_infinity _ => false
                    | _ => true
                    end) col = true ->
  exists y, coerce_year today col = Ok y.
Proof.
  intros Hy Hfin. unfold coerce_year.
  destruct (to_numeric col) as [l|l|l] eqn:E; cbn [numcol_fillna astype_int];
    [|eexists; reflexivity ..].
  assert (Hl : l = map numeric_float (map cell_numeric col)).
  { unfold to_numeric in E. destruct (needs_float _).
    - now injection E as <-.
    - destruct (existsb is_NInt _); [discriminate|].
      destruct (existsb is_NBool _); discriminate. }
  assert (Hall : forallb float_is_finite
            (map (fun f => if float_is_nan f then float_of_Z (d_year today) else f) l) = true).
  { rewrite forallb_forall. intros f Hf.
    apply in_map_iff in Hf as [g [<- Hg]]. subst l.
    apply in_map_iff in Hg as [n [<- Hn]]. apply in_map_iff in Hn as [c [<- Hc]].
    rewrite forallb_forall in Hfin. specialize (Hfin c Hc).
    destruct (numeric_float (cell_numeric c)); simpl; auto; try discriminate.
    apply (year_float_exact _ Hy). }
  rewrite Hall. eexists; reflexivity.
Qed.

Lemma map_repeat' {A B} (f : A -> B) (x : A) (n : nat) :
  map f (repeat x n) = repeat (f x) n.
Proof. induction n; simpl; congruence. Qed.

Lemma forallb_repeat {A} (p : A -> bool) (x : A) (n : nat) :
  p x = true -> forallb p (repeat x n) = true.
Proof. intros H. induction n; simpl; auto. now rewrite H. Qed.

(** Broadcast defaults pass the coercions unchanged. *)
Lemma coerce_text_repeat s n : coerce_text (repeat (VStr s) n) = repeat (VStr s) n.
Proof. unfold coerce_text, astype_str, fillna. now rewrite !map_repeat'. Qed.

Lemma coerce_purchased_repeat n :
  coerce_purchased (repeat (VBool false) n) = repeat (VBool false) n.
Proof. unfold coerce_purchased, astype_bool, fillna. now rewrite !map_repeat'. Qed.

Lemma coerce_money_repeat n : coerce_money (repeat (VFloat zero) n) = repeat (VFloat zero) n.
Proof.
  rewrite <- (map_repeat' VFloat). apply coerce_money_floats.
  now apply forallb_repeat.
Qed.

Lemma coerce_year_repeat today y n :
  1 <= y <= 9999 ->
  coerce_year today (repeat (VInt y) n) = Ok (repeat (VInt y) n).
Proof.
  intros Hy. rewrite <- (map_repeat' VInt). apply coerce_year_ints.
  apply forallb_repeat. unfold in_int64, INT64_MIN, INT64_MAX.
  apply andb_true_intro; split; apply Z.leb_le; lia.
Qed.

End Cells.

(* ================================================================= *)
(** ** The schema normaliser: results *)

Lemma ensure_df_returns today df :
  valid_date today -> year_castable df = true ->
  exists y, coerce_year today (col_or_default today df "year") = Ok y /\
            ensure_df today df = Ok (normal_form today df y).
Proof.
  intros [Hy _] Hc. unfold year_castable in Hc.
  assert (He : exists y, coerce_year today (col_or_default today df "year") = Ok y).
  { unfold col_or_default. destruct (lookup_col "year" (columns df)) as [v|].
    - now apply coerce_year_ok.
    - eexists. now apply coerce_year_repeat. }
  destruct He as [y Ey]. exists y. split; auto.
  now rewrite ensure_df_eq, Ey.
Qed.

Lemma ensure_df_inv today df df' :
  ensure_df today df = Ok df' ->
  exists y, coerce_year today (col_or_default today df "year") = Ok y /\
            df' = normal_form today df y.
Proof.
  rewrite ensure_df_eq.
  destruct (coerce_year today _) as [y|e]; [|discriminate].
  intros [= <-]. eauto.
Qed.

(** C1 (as amended).  For every table in which no [year] cell coerces to
    an infinite number, [ensure_df] returns a table with exactly the
    eight canonical columns in canonical order and the rows of the input;
    a column the input lacks is filled with its default (0.0, False, the
    current year, today's date, the empty string); a [year], [budget] or
    [purchased_cost] cell that is missing or is not a number is replaced
    by the default of its column; a missing [date] or text cell becomes
    the empty string and any other is kept as its text; [purchased] is
    the truthiness of the cell, False when it is missing. *)
Theorem ensure_df_shape_and_defaults today df :
  valid_date today -> year_castable df = true ->
  exists df',
    ensure_df today df = Ok df' /\
    names df' = COLUMNS /\
    index df' = index df /\
    (forall c, In c COLUMNS -> has_column c df = false ->
       lookup_col c (columns df') =
       Some (repeat (missing_default today c) (nrows df))) /\
    (forall i x, cell_at df "year" i = Some x -> cell_numeric x = NNull ->
       cell_at df' "year" i = Some (VInt (d_year today))) /\
    (forall c i x, In c ["budget"; "purchased_cost"] ->
       cell_at df c i = Some x -> cell_numeric x = NNull ->
       cell_at df' c i = Some (VFloat zero)) /\
    (forall c i x, In c ["date"; "recipient"; "occasion"; "idea"] ->
       cell_at df c i = Some x ->
       cell_at df' c i = Some (VStr (if isna x then "" else py_str x))) /\
    (forall i x, cell_at df "purchased" i = Some x ->
       cell_at df' "purchased" i = Some (VBool (if isna x then false else truthy x))).
Proof.
  intros Hd Hc. destruct (ensure_df_returns today df Hd Hc) as [y [Ey E]].
  exists (normal_form today df y). split; [exact E|].
  split; [reflexivity|]. split; [reflexivity|].
  destruct Hd as [Hy _]. repeat split.
  - intros c Hin Hm. simpl in Hin.
    destruct Hin as [<-|[<-|[<-|[<-|[<-|[<-|[<-|[<-|[]]]]]]]]];
      unfold normal_form; cbn [columns lookup_col String.eqb Ascii.eqb Bool.eqb];
      try (rewrite (col_or_default_missing _ _ _ Hm); f_equal;
           first [apply coerce_text_repeat | apply coerce_money_repeat
                 | apply coerce_purchased_repeat]).
    rewrite (col_or_default_missing _ _ _ Hm) in Ey.
    change (missing_default today "year") with (VInt (d_year today)) in *.
    rewrite coerce_year_repeat in Ey by assumption. congruence.
  - intros i x Hx Hn. apply cell_at_lookup in Hx as [v [Hv Hi]].
    rewrite (col_or_default_present _ _ _ _ Hv) in Ey.
    unfold cell_at, normal_form; cbn [columns lookup_col String.eqb Ascii.eqb Bool.eqb].
    eapply coerce_year_default; eauto.
  - intros c i x Hin Hx Hn. apply cell_at_lookup in Hx as [v [Hv Hi]]. simpl in Hin.
    destruct Hin as [<-|[<-|[]]];
      unfold cell_at, normal_form; cbn [columns lookup_col String.eqb Ascii.eqb Bool.eqb];
      rewrite (col_or_default_present _ _ _ _ Hv); eapply coerce_money_default; eauto.
  - intros c i x Hin Hx. apply cell_at_lookup in Hx as [v [Hv Hi]]. simpl in Hin.
    destruct Hin as [<-|[<-|[<-|[<-|[]]]]];
      unfold cell_at, normal_form; cbn [columns lookup_col String.eqb Ascii.eqb Bool.eqb];
      rewrite (col_or_default_present _ _ _ _ Hv); now apply coerce_text_at.
  - intros i x Hx. apply cell_at_lookup in Hx as [v [Hv Hi]].
    unfold cell_at, normal_form; cbn [columns lookup_col String.eqb Ascii.eqb Bool.eqb].
    rewrite (col_or_default_present _ _ _ _ Hv). now apply coerce_purchased_at.
Qed.

(** C2.  [ensure_df] is idempotent: normalising the result of a
    normalisation gives that result again (and raises when the first
    normalisation raises), whatever the date of the second call. *)
Theorem ensure_df_idempotent today today' df :
  (df' ← ensure_df today df; ensure_df today' df') = ensure_df today df.
Proof.
  destruct (ensure_df today df) as [df'|e] eqn:E; cbn [mbind result_bind]; auto.
  eapply ensure_df_fixed, E.
Qed.

(** C9 (as amended).  After normalisation the [date] field holds today's
    date only where the input has no [date] column; in a [date] column
    that is present a missing cell becomes the empty string and every
    other cell is kept as its text, a valid ISO-8601 date or not. *)
Theorem ensure_df_date_cells today df df' :
  ensure_df today df = Ok df' ->
  (has_column "date" df = false ->
   forall i, (i < nrows df)%nat ->
     cell_at df' "date" i = Some (VStr (isoformat today))) /\
  (forall i x, cell_at df "date" i = Some x ->
     cell_at df' "date" i = Some (VStr (if isna x then "" else py_str x))).
Proof.
  intros E. apply ensure_df_inv in E as [y [_ ->]]. split.
  - intros Hm i Hi.
    unfold cell_at, normal_form; cbn [columns lookup_col String.eqb Ascii.eqb Bool.eqb].
    rewrite (col_or_default_missing _ _ _ Hm).
    change (missing_default today "date") with (VStr (isoformat today)).
    rewrite coerce_text_repeat. now apply lookup_repeat.
  - intros i x Hx. apply cell_at_lookup in Hx as [v [Hv Hi]].
    unfold cell_at, normal_form; cbn [columns lookup_col String.eqb Ascii.eqb Bool.eqb].
    rewrite (col_or_default_present _ _ _ _ Hv). now apply coerce_text_at.
Qed.

(** C10.  [purchased] is coerced by truthiness, not by reading boolean
    literals: a missing cell becomes False, any other cell the truth
    value Python gives it, and so the string "False" becomes True. *)
Theorem ensure_df_purchased_truthiness :
  (forall today df df' i x,
     ensure_df today df = Ok df' ->
     cell_at df "purchased" i = Some x ->
     cell_at df' "purchased" i =
     Some (VBool (if isna x then false else truthy x))) /\
  (exists today df df',
     ensure_df today df = Ok df' /\
     cell_at df "purchased" 0 = Some (VStr "False") /\
     cell_at df' "purchased" 0 = Some (VBool true)).
Proof.
  split.
  - intros today df df' i x E Hx. apply ensure_df_inv in E as [y [_ ->]].
    apply cell_at_lookup in Hx as [v [Hv Hi]].
    unfold cell_at, normal_form; cbn [columns lookup_col String.eqb Ascii.eqb Bool.eqb].
    rewrite (col_or_default_present _ _ _ _ Hv). now apply coerce_purchased_at.
  - exists (mkDate 2026 11 4), (mkDF [0%nat] [("purchased", [VStr "False"])]).
    eexists. split; [vm_compute; reflexivity|]. split; reflexivity.
Qed.

(* ================================================================= *)
(** ** The ledger keeps its schema *)

Section Schema.

Lemma numerics_nil ns :
  needs_float ns = false -> existsb is_NInt ns = false ->
  existsb is_NBool ns = false -> ns = [].
Proof.
  destruct ns as [|n r]; auto.
  destruct n; unfold needs_float; simpl; discriminate.
Qed.

Lemma coerce_money_length col : length (coerce_money col) = length col.
Proof.
  unfold coerce_money, to_numeric. rewrite length_map.
  destruct (needs_float _) eqn:E1; cbn [numcol_fillna astype_float].
  { now rewrite !length_map. }
  destruct (existsb is_NInt _) eqn:E2; cbn [numcol_fillna astype_float].
  { now rewrite !length_map. }
  destruct (existsb is_NBool _) eqn:E3; cbn [numcol_fillna astype_float].
  { now rewrite !length_map. }
  pose proof (numerics_nil _ E1 E2 E3) as H. apply map_eq_nil in H. now subst.
Qed.

Lemma coerce_year_length today col y :
  coerce_year today col = Ok y -> length y = length col.
Proof.
  unfold coerce_year, to_numeric.
  destruct (needs_float _) eqn:E1; cbn [numcol_fillna astype_int].
  { destruct (forallb float_is_finite _); [|discriminate].
    intros [= <-]. now rewrite !length_map. }
  destruct (existsb is_NInt _) eqn:E2; cbn [numcol_fillna astype_int].
  { intros [= <-]. now rewrite !length_map. }
  destruct (existsb is_NBool _) eqn:E3; cbn [numcol_fillna astype_int].
  { intros [= <-]. now rewrite !length_map. }
  intros [= <-]. pose proof (numerics_nil _ E1 E2 E3) as H.
  apply map_eq_nil in H. now subst.
Qed.

Lemma coerce_text_length col : length (coerce_text col) = length col.
Proof. unfold coerce_text, astype_str, fillna. now rewrite !length_map. Qed.

Lemma coerce_purchased_length col : length (coerce_purchased col) = length col.
Proof. unfold coerce_purchased, astype_bool, fillna. now rewrite !length_map. Qed.

Lemma coerce_text_typed col : forallb is_text (coerce_text col) = true.
Proof.
  unfold coerce_text, astype_str. rewrite forallb_forall. intros c Hc.
  apply in_map_iff in Hc as [x [<- _]]. reflexivity.
Qed.

Lemma coerce_purchased_typed col : forallb is_flag (coerce_purchased col) = true.
Proof.
  unfold coerce_purchased, astype_bool. rewrite forallb_forall. intros c Hc.
  apply in_map_iff in Hc as [x [<- _]]. reflexivity.
Qed.

Lemma coerce_money_typed col : forallb is_money (coerce_money col) = true.
Proof.
  unfold coerce_money. rewrite forallb_forall. intros c Hc.
  apply in_map_iff in Hc as [f [<- Hf]].
  pose proof (astype_float_no_nan (to_numeric col)) as H.
  rewrite forallb_forall in H. exact (H f Hf).
Qed.

Lemma coerce_year_typed today col y :
  coerce_year today col = Ok y -> forallb is_int64 y = true.
Proof.
  unfold coerce_year. destruct (astype_int _) as [l|e] eqn:E; [|discriminate].
  intros [= <-]. apply astype_int_range in E.
  rewrite forallb_forall in *. intros c Hc.
  apply in_map_iff in Hc as [z [<- Hz]]. now apply E.
Qed.

Lemma col_or_default_length today df c :
  rectangular df -> length (col_or_default today df c) = nrows df.
Proof.
  intros Hr. unfold col_or_default.
  destruct (lookup_col c (columns df)) as [v|] eqn:E.
  - unfold rectangular in Hr. induction (columns df) as [|[n w] r IH]; [discriminate|].
    simpl in E. inversion Hr as [|? ? Hh Ht]; subst.
    destruct (String.eqb c n); [injection E as <-; exact Hh | auto].
  - apply repeat_length.
Qed.

Lemma normal_form_ok today df y :
  rectangular df ->
  coerce_year today (col_or_default today df "year") = Ok y ->
  ledger_ok (normal_form today df y).
Proof.
  intros Hr Ey. split; [reflexivity|].
  pose proof (col_or_default_length today df) as Hl.
  unfold normal_form; simpl columns; unfold nrows; simpl index.
  repeat constructor; cbn [fst snd];
    rewrite ?coerce_text_length, ?coerce_money_length, ?coerce_purchased_length;
    auto using coerce_text_typed, coerce_money_typed, coerce_purchased_typed.
  - rewrite (coerce_year_length _ _ _ Ey). auto.
  - exact (coerce_year_typed _ _ _ Ey).
Qed.

Lemma ensure_df_ledger_ok today df df' :
  rectangular df -> ensure_df today df = Ok df' -> ledger_ok df'.
Proof.
  intros Hr E. apply ensure_df_inv in E as [y [Ey ->]].
  now apply normal_form_ok.
Qed.

Lemma ledger_ok_rectangular df : ledger_ok df -> rectangular df.
Proof.
  intros [_ H]. unfold rectangular. eapply Forall_impl; [exact H|].
  now intros nc [Hl _].
Qed.

End Schema.

(* ================================================================= *)
(** ** Import, the form and the editor keep the frame rectangular *)

Section Shapes.

Lemma map_all_length {A B} (f : A -> option B) l ys :
  map_all f l = Some ys -> length ys = length l.
Proof.
  revert ys. induction l as [|x r IH]; simpl; intros ys.
  - now intros [= <-].
  - destruct (f x); [|discriminate]. destruct (map_all f r); [|discriminate].
    intros [= <-]. simpl. f_equal. now apply IH.
Qed.

Lemma infer_column_length toks : length (infer_column toks) = length toks.
Proof.
  unfold infer_column. destruct toks as [|t r]; [reflexivity|].
  set (l := t :: r).
  destruct (infer_int l) as [c|] eqn:E1.
  { unfold infer_int in E1. destruct (map_all csv_int l) as [zs|] eqn:E; [|discriminate].
    destruct (_ || _); [|discriminate]. injection E1 as <-.
    rewrite length_map. eapply map_all_length, E. }
  destruct (infer_float l) as [c|] eqn:E2.
  { unfold infer_float in E2. destruct (map_all _ l) as [fs|] eqn:E; [|discriminate].
    injection E2 as <-. rewrite length_map. eapply map_all_length, E. }
  destruct (infer_bool l) as [c|] eqn:E3.
  { eapply map_all_length, E3. }
  unfold infer_object. apply length_map.
Qed.

Lemma Forall_zip_with {A B C} (P : C -> Prop) (f : A -> B -> C) la lb :
  (forall a b, P (f a b)) -> Forall P (zip_with f la lb).
Proof.
  intros H. revert lb. induction la as [|a ra IH]; intros [|b rb]; simpl; auto.
Qed.

Lemma read_csv_rectangular bytes df : read_csv bytes = Ok df -> rectangular df.
Proof.
  unfold read_csv. destruct (tokenize bytes) as [rows|e]; [|discriminate].
  cbn [mbind result_bind]. destruct rows as [|hdr data]; [discriminate|].
  destruct (existsb _ data); [discriminate|].
  destruct (length hdr <? _)%nat; [discriminate|].
  destruct (forallb _ _); [|discriminate].
  intros [= <-]. unfold rectangular, nrows. cbn [index columns].
  apply Forall_zip_with. intros name j. cbn [snd].
  rewrite infer_column_length, length_seq. unfold field_column.
  now rewrite length_map.
Qed.

Lemma concat_row_rectangular df row :
  rectangular df -> rectangular (concat_row df row).
Proof.
  intros Hr. unfold rectangular, concat_row, nrows in *. cbn [index columns].
  rewrite length_seq. apply Forall_app. split.
  - apply Forall_map. eapply Forall_impl; [exact Hr|].
    intros nc Hl. cbn [snd]. rewrite length_app, Hl. simpl. lia.
  - apply Forall_map. apply Forall_forall. intros nv _. cbn [snd].
    rewrite length_app, repeat_length. simpl. lia.
Qed.

End Shapes.

(* ================================================================= *)
(** ** The write-back of the editor *)

Section WriteBack.

Lemma label_pos_lookup l target p :
  label_pos l target = Some p -> target !! p = Some l.
Proof.
  revert p. induction target as [|x r IH]; simpl; intros p; [discriminate|].
  destruct (Nat.eqb_spec l x) as [->|Hne].
  - now intros [= <-].
  - destruct (label_pos l r) as [q|]; [|discriminate].
    intros [= <-]. simpl. now apply IH.
Qed.

Lemma label_pos_In l target : In l target -> exists p, label_pos l target = Some p.
Proof.
  induction target as [|x r IH]; simpl; [tauto|].
  intros H. destruct (Nat.eqb_spec l x) as [->|Hne]; [eauto|].
  destruct H as [->|H]; [congruence|].
  destruct (IH H) as [p ->]. simpl. eauto.
Qed.

Lemma select_In {A} (mask : list bool) (l : list A) x :
  In x (select mask l) -> In x l.
Proof.
  revert l. induction mask as [|b m IH]; intros [|y r]; simpl; try tauto.
  destruct b; simpl; intuition auto.
Qed.

Lemma assign_rows_length target labels vals col col' :
  assign_rows target labels vals col = Ok col' -> length col' = length col.
Proof.
  revert vals col. induction labels as [|l ls IH]; intros [|v vs] col; simpl;
    try (now intros [= <-]).
  destruct (label_pos l target) as [p|]; [|discriminate].
  intros H. apply IH in H. now rewrite length_insert in H.
Qed.

Lemma forallb_insert {A} (P : A -> bool) (l : list A) i x :
  forallb P l = true -> P x = true -> forallb P (<[i := x]> l) = true.
Proof.
  revert i. induction l as [|a r IH]; intros [|i] Hl Hx; simpl in *; auto.
  - apply andb_prop in Hl as [_ Hr]. now rewrite Hx.
  - apply andb_prop in Hl as [Ha Hr]. rewrite Ha. simpl. now apply IH.
Qed.

Lemma assign_rows_typed (P : cell -> bool) target labels vals col col' :
  forallb P col = true -> forallb P vals = true ->
  assign_rows target labels vals col = Ok col' -> forallb P col' = true.
Proof.
  revert vals col. induction labels as [|l ls IH]; intros [|v vs] col Hc Hv; simpl;
    try (now intros [= <-]).
  destruct (label_pos l target) as [p|]; [|discriminate].
  simpl in Hv. apply andb_prop in Hv as [Hv1 Hv2].
  apply IH; auto. now apply forallb_insert.
Qed.

(** A row whose label is not among the written ones keeps its cell. *)
Lemma assign_rows_other target labels vals col col' p l :
  assign_rows target labels vals col = Ok col' ->
  target !! p = Some l -> ~ In l labels ->
  col' !! p = col !! p.
Proof.
  revert vals col. induction labels as [|x ls IH]; intros [|v vs] col; simpl;
    try (now intros [= <-]).
  destruct (label_pos x target) as [q|] eqn:Eq; [|discriminate].
  intros H Hp Hn. rewrite (IH _ _ H Hp) by tauto.
  apply list_lookup_insert_ne. intros ->.
  apply label_pos_lookup in Eq. rewrite Hp in Eq. injection Eq as ->. tauto.
Qed.

Lemma assign_rows_ok target labels vals col :
  (forall l, In l labels -> In l target) ->
  exists col', assign_rows target labels vals col = Ok col'.
Proof.
  revert vals col. induction labels as [|l ls IH]; intros [|v vs] col H; simpl; eauto.
  destruct (label_pos_In l target) as [p ->]; [apply H; now left|].
  apply IH. intros x Hx. apply H. now right.
Qed.

Lemma lookup_replace c c' v cols :
  lookup_col c' (replace_col c v cols) =
  if String.eqb c' c then Some v else lookup_col c' cols.
Proof.
  destruct (String.eqb_spec c' c) as [->|Hne].
  - apply lookup_replace_same.
  - apply lookup_replace_other. congruence.
Qed.

Lemma names_replace c v cols w :
  lookup_col c cols = Some w -> map fst (replace_col c v cols) = map fst cols.
Proof.
  induction cols as [|[n x] r IH]; simpl; [discriminate|].
  destruct (String.eqb c n); simpl; [reflexivity|].
  intros H. f_equal. auto.
Qed.

Lemma Forall_replace (P : string * column -> Prop) c v cols :
  Forall P cols -> P (c, v) -> Forall P (replace_col c v cols).
Proof.
  intros H Hv. induction H as [|[n x] r Hx Hr IH]; simpl.
  - constructor; auto.
  - destruct (String.eqb_spec c n) as [->|Hne]; constructor; auto.
Qed.

(** [df.loc[labels, c] = vals], when every label is a row of [df]. *)
Lemma loc_assign_spec labels c vals df col :
  lookup_col c (columns df) = Some col ->
  (forall l, In l labels -> In l (index df)) ->
  exists col',
    loc_assign labels c vals df = Ok (setitem c col' df) /\
    assign_rows (index df) labels vals col = Ok col'.
Proof.
  intros Hc Hl. unfold loc_assign, getitem. rewrite Hc. cbn [mbind result_bind].
  destruct (assign_rows_ok (index df) labels vals col Hl) as [col' E].
  rewrite E. cbn [mbind result_bind]. eauto.
Qed.

(** The write-back changes nothing but the two edited columns, and those
    only in the rows of the edited frame. *)
Lemma write_back_frame gifts edited p c pg cg :
  lookup_col "purchased" (columns edited) = Some p ->
  lookup_col "purchased_cost" (columns edited) = Some c ->
  lookup_col "purchased" (columns gifts) = Some pg ->
  lookup_col "purchased_cost" (columns gifts) = Some cg ->
  (forall l, In l (index edited) -> In l (index gifts)) ->
  exists pg' cg',
    write_back gifts edited =
      Ok (setitem "purchased_cost" cg' (setitem "purchased" pg' gifts)) /\
    assign_rows (index gifts) (index edited) p pg = Ok pg' /\
    assign_rows (index gifts) (index edited) c cg = Ok cg'.
Proof.
  intros Hp Hc Hpg Hcg Hl. unfold write_back, getitem. rewrite Hp, Hc.
  cbn [mbind result_bind].
  destruct (loc_assign_spec (index edited) "purchased" p gifts pg Hpg Hl)
    as [pg' [E1 A1]]. rewrite E1. cbn [mbind result_bind].
  destruct (loc_assign_spec (index edited) "purchased_cost" c
              (setitem "purchased" pg' gifts) cg) as [cg' [E2 A2]].
  - cbn [setitem columns]. rewrite lookup_replace. exact Hcg.
  - exact Hl.
  - rewrite E2. eauto.
Qed.

Lemma lookup_loc_mask mask df c :
  lookup_col c (columns (loc_mask mask df)) =
  option_map (select mask) (lookup_col c (columns df)).
Proof.
  unfold loc_mask. cbn [columns].
  induction (columns df) as [|[n v] r IH]; simpl; auto.
  destruct (String.eqb c n); auto.
Qed.

Lemma lookup_edit_column f c c' df :
  lookup_col c' (columns (edit_column f c df)) =
  match lookup_col c' (columns df) with
  | Some col => Some (if String.eqb c' c then zip_with f (index df) col else col)
  | None => None
  end.
Proof.
  unfold edit_column. destruct (lookup_col c (columns df)) as [col|] eqn:E.
  - cbn [setitem columns]. rewrite lookup_replace.
    destruct (String.eqb_spec c' c) as [->|Hne]; [now rewrite E|].
    now destruct (lookup_col c' (columns df)).
  - destruct (String.eqb_spec c' c) as [->|Hne]; [now rewrite E|].
    now destruct (lookup_col c' (columns df)).
Qed.

Lemma index_edit_column f c df : index (edit_column f c df) = index df.
Proof. unfold edit_column. now destruct (lookup_col c (columns df)). Qed.

Lemma index_data_editor fdf e : index (data_editor fdf e) = index fdf.
Proof. unfold data_editor. now rewrite !index_edit_column. Qed.

Lemma forallb_zip_with {A B} (P : cell -> bool) (f : A -> B -> cell) la lb :
  (forall a b, P (f a b) = true) -> forallb P (zip_with f la lb) = true.
Proof.
  intros H. revert lb. induction la as [|a ra IH]; intros [|b rb]; simpl; auto.
  now rewrite H, IH.
Qed.

Lemma ledger_ok_lookup df c :
  ledger_ok df -> In c COLUMNS ->
  exists col, lookup_col c (columns df) = Some col /\
              length col = nrows df /\ forallb (column_type c) col = true.
Proof.
  intros [Hn Hf] Hin. unfold names in Hn.
  destruct (columns df) as [|[n1 c1] [|[n2 c2] [|[n3 c3] [|[n4 c4] [|[n5 c5]
    [|[n6 c6] [|[n7 c7] [|[n8 c8] [|]]]]]]]]]; try discriminate.
  injection Hn as -> -> -> -> -> -> -> ->.
  repeat match goal with H : Forall _ (_ :: _) |- _ => inversion H; clear H; subst end.
  cbn [fst snd] in *.
  simpl in Hin.
  destruct Hin as [<-|[<-|[<-|[<-|[<-|[<-|[<-|[<-|[]]]]]]]]];
    cbn [lookup_col String.eqb Ascii.eqb Bool.eqb]; eexists; split; eauto; tauto.
Qed.

Lemma setitem_ledger_ok df c col' :
  ledger_ok df -> In c COLUMNS ->
  length col' = nrows df -> forallb (column_type c) col' = true ->
  ledger_ok (setitem c col' df).
Proof.
  intros Hok Hin Hl Ht. destruct (ledger_ok_lookup df c Hok Hin) as [col [Hc _]].
  destruct Hok as [Hn Hf]. split.
  - unfold names, setitem. cbn [columns]. rewrite (names_replace _ _ _ _ Hc). exact Hn.
  - unfold setitem, nrows. cbn [columns index].
    apply (Forall_replace _ c col' _ Hf). cbn [fst snd]. auto.
Qed.

End WriteBack.

(* ================================================================= *)
(** ** Patterns: the matcher decides the language *)

Section Regex.

Lemma append_nil_r s : s ++ "" = s.
Proof. induction s; simpl; congruence. Qed.

Lemma append_assoc s t u : (s ++ t) ++ u = s ++ (t ++ u).
Proof. induction s; simpl; congruence. Qed.

Lemma append_eq_nil s t : s ++ t = "" -> s = "" /\ t = "".
Proof. destruct s; simpl; [auto|discriminate]. Qed.

Lemma nullable_lang r : nullable r = true <-> lang r "".
Proof.
  split.
  - induction r as [| | | | a IHa b IHb | a IHa b IHb | a IHa]; simpl; intros H;
      try discriminate.
    + constructor.
    + apply andb_prop in H as [H1 H2]. apply (L_cat _ _ "" ""); auto.
    + apply orb_prop in H as [H|H]; [apply L_alt_l | apply L_alt_r]; auto.
    + constructor.
  - intros H. remember "" as w eqn:Hw.
    induction H; simpl; try discriminate; auto.
    + apply append_eq_nil in Hw as [-> ->]. now rewrite IHlang1, IHlang2.
    + now rewrite IHlang.
    + rewrite IHlang. apply orb_true_r. auto.
Qed.

Lemma deriv_sound c r r' s :
  deriv c r = Some r' -> lang r' s -> lang r (String c s).
Proof.
  revert r' s. induction r as [| d | | | a IHa b IHb | a IHa b IHb | a IHa];
    simpl; intros r' s Hd Hl.
  - discriminate.
  - destruct (Ascii.eqb_spec c d) as [->|]; [|discriminate].
    injection Hd as <-. inversion Hl; subst. constructor.
  - destruct (Ascii.eqb_spec c newline); [discriminate|].
    injection Hd as <-. inversion Hl; subst. now constructor.
  - injection Hd as <-. inversion Hl; subst. constructor.
  - assert (Hleft : forall x, deriv c a = Some x -> lang (RCat x b) s ->
                              lang (RCat a b) (String c s)).
    { intros x Hx Hc. inversion Hc; subst.
      change (String c (s0 ++ t)) with (String c s0 ++ t).
      constructor; eauto. }
    assert (Hright : nullable a = true -> forall y, deriv c b = Some y -> lang y s ->
                                                    lang (RCat a b) (String c s)).
    { intros Hn y Hy Hc. change (String c s) with ("" ++ String c s).
      constructor; eauto. now apply nullable_lang. }
    destruct (nullable a) eqn:Hn.
    + destruct (deriv c a) as [x|] eqn:Ha, (deriv c b) as [y|] eqn:Hb;
        simpl in Hd; try discriminate; injection Hd as <-.
      * inversion Hl; subst; eauto.
      * eauto.
      * eauto.
    + destruct (deriv c a) as [x|] eqn:Ha; simpl in Hd; [|discriminate].
      injection Hd as <-. eauto.
  - destruct (deriv c a) as [x|] eqn:Ha, (deriv c b) as [y|] eqn:Hb;
      try discriminate; injection Hd as <-.
    + inversion Hl; subst; [apply L_alt_l | apply L_alt_r]; eauto.
    + apply L_alt_l; eauto.
    + apply L_alt_r; eauto.
  - destruct (deriv c a) as [x|] eqn:Ha; simpl in Hd; [|discriminate].
    injection Hd as <-. inversion Hl; subst.
    change (String c (s0 ++ t)) with (String c s0 ++ t).
    constructor; eauto.
Qed.

Lemma deriv_complete c r w :
  lang r w -> forall s, w = String c s ->
  exists r', deriv c r = Some r' /\ lang r' s.
Proof.
  induction 1 as [| d | d Hd | d | a b s1 t H1 IH1 H2 IH2 | a b s1 H1 IH1
                 | a b s1 H1 IH1 | a | a s1 t H1 IH1 H2 IH2]; intros s Hw; simpl.
  - discriminate.
  - injection Hw as -> <-. rewrite Ascii.eqb_refl. eexists; split; eauto. constructor.
  - injection Hw as -> <-. destruct (Ascii.eqb_spec c newline); [congruence|].
    eexists; split; eauto. constructor.
  - injection Hw as -> <-. eexists; split; eauto. constructor.
  - destruct s1 as [|c1 s1'].
    + simpl in Hw. destruct (IH2 _ Hw) as [y [Hy Ly]].
      rewrite (proj2 (nullable_lang a) H1), Hy.
      destruct (deriv c a) as [x|]; simpl; eexists; split; eauto.
      now apply L_alt_r.
    + simpl in Hw. injection Hw as -> <-.
      destruct (IH1 _ eq_refl) as [x [Hx Lx]]. rewrite Hx. simpl.
      assert (Lc : lang (RCat x b) (s1' ++ t)) by now constructor.
      destruct (nullable a); [|eauto].
      destruct (deriv c b); eexists; split; eauto. now apply L_alt_l.
  - destruct (IH1 _ Hw) as [x [Hx Lx]]. rewrite Hx.
    destruct (deriv c b); eexists; split; eauto. now apply L_alt_l.
  - destruct (IH1 _ Hw) as [y [Hy Ly]]. rewrite Hy.
    destruct (deriv c a); eexists; split; eauto. now apply L_alt_r.
  - discriminate.
  - destruct s1 as [|c1 s1'].
    + simpl in Hw. exact (IH2 _ Hw).
    + simpl in Hw. injection Hw as -> <-.
      destruct (IH1 _ eq_refl) as [x [Hx Lx]]. rewrite Hx. simpl.
      eexists; split; eauto. now constructor.
Qed.

Lemma matches_lang r s : matches r s = true <-> lang r s.
Proof.
  revert r. induction s as [|c s IH]; intros r; simpl.
  - apply nullable_lang.
  - split.
    + destruct (deriv c r) as [r'|] eqn:E; [|discriminate].
      intros H. eapply deriv_sound; eauto. now apply IH.
    + intros H. destruct (deriv_complete c r _ H s eq_refl) as [r' [E L]].
      rewrite E. now apply IH.
Qed.

Lemma lang_all_star s : lang (RStar RAll) s.
Proof.
  induction s as [|c s IH]; [constructor|].
  change (String c s) with (String c "" ++ s). constructor; auto. constructor.
Qed.

(** [regex.search] finds a match exactly when some substring is a word
    of the pattern. *)
Lemma re_search_lang r s :
  re_search r s = true <-> exists a b c, s = a ++ b ++ c /\ lang r b.
Proof.
  unfold re_search. rewrite matches_lang. split.
  - intros H. inversion H as [| | | | ? ? a t Ha Ht | | | |]; subst.
    inversion Ht as [| | | | ? ? b c Hb Hc | | | |]; subst. eauto 6.
  - intros [a [b [c [-> Hb]]]].
    constructor; [apply lang_all_star|]. constructor; [exact Hb|apply lang_all_star].
Qed.

Lemma lang_literal_from acc p w :
  lang (literal_from acc p) w <-> exists u, lang acc u /\ w = u ++ p.
Proof.
  revert acc w. induction p as [|c p IH]; intros acc w; simpl.
  - split.
    + intros H. exists w. now rewrite append_nil_r.
    + intros [u [H ->]]. now rewrite append_nil_r.
  - rewrite IH. split.
    + intros [u [H ->]]. inversion H as [| | | | ? ? u1 u2 H1 H2 | | | |]; subst.
      inversion H2; subst. exists u1. split; auto.
      now rewrite append_assoc.
    + intros [u [H ->]]. exists (u ++ String c ""). split.
      * constructor; auto. constructor.
      * now rewrite append_assoc.
Qed.

Lemma lang_literal p w : lang (literal_from REmpty p) w <-> w = p.
Proof.
  rewrite lang_literal_from. split.
  - intros [u [H ->]]. inversion H; subst. reflexivity.
  - intros ->. exists "". split; [constructor|reflexivity].
Qed.

Lemma prefix_app p s : is_prefix p s = true <-> exists c, s = p ++ c.
Proof.
  revert s. induction p as [|a p IH]; intros s; simpl.
  - split; [eauto|reflexivity].
  - destruct s as [|b s].
    + split; [discriminate|]. intros [c Hc]. discriminate.
    + rewrite andb_true_iff, IH. split.
      * intros [Hab [c ->]]. apply Ascii.eqb_eq in Hab as ->. eauto.
      * intros [c Hc]. injection Hc as -> ->. split; [apply Ascii.eqb_refl|eauto].
Qed.

Lemma is_substring_app p s :
  is_substring p s = true <-> exists a c, s = a ++ p ++ c.
Proof.
  induction s as [|b s IH].
  - simpl. rewrite orb_false_r, prefix_app. split.
    + intros [c Hc]. exists "", c. exact Hc.
    + intros [a [c Hc]]. destruct a; [eauto|discriminate].
  - cbn [is_substring]. rewrite orb_true_iff, prefix_app, IH. split.
    + intros [[c Hc]|[a [c Hc]]].
      * exists "", c. exact Hc.
      * exists (String b a), c. simpl. congruence.
    + intros [a [c Hc]]. destruct a as [|x a]; [left; eauto|].
      simpl in Hc. injection Hc as -> ->. right. eauto.
Qed.

(** Searching for a literal pattern is the substring test. *)
Lemma re_search_literal p s :
  re_search (literal_from REmpty p) s = is_substring p s.
Proof.
  apply eq_true_iff_eq. rewrite re_search_lang, is_substring_app. split.
  - intros [a [b [c [-> Hb]]]]. apply lang_literal in Hb as ->. eauto.
  - intros [a [c ->]]. exists a, p, c. split; auto. now apply lang_literal.
Qed.

(** *** Compiling a text without special characters *)

Lemma is_meta_false c :
  is_meta c = false ->
  Ascii.eqb c "." = false /\ Ascii.eqb c "^" = false /\ Ascii.eqb c "$" = false /\
  Ascii.eqb c "*" = false /\ Ascii.eqb c "+" = false /\ Ascii.eqb c "?" = false /\
  Ascii.eqb c "{" = false /\ Ascii.eqb c "[" = false /\ Ascii.eqb c "\" = false /\
  Ascii.eqb c "|" = false /\ Ascii.eqb c "(" = false /\ Ascii.eqb c ")" = false.
Proof.
  unfold is_meta. cbn [existsb]. intros H.
  repeat (apply orb_false_elim in H as [? H]). repeat split; assumption.
Qed.

Lemma parse_quant_plain a s : has_meta s = false -> parse_quant a s = POk a s.
Proof.
  destruct s as [|c r]; simpl; auto. intros H.
  apply orb_false_elim in H as [H _]. apply is_meta_false in H.
  destruct H as (_ & _ & _ & -> & -> & -> & _). reflexivity.
Qed.

Lemma parse_atom_plain k c rest :
  is_meta c = false -> parse_atom (S k) (String c rest) = POk (RChar c) rest.
Proof.
  intros Hc.
  pose proof (is_meta_false c Hc)
    as (E1 & E2 & E3 & E4 & E5 & E6 & E7 & E8 & E9 & E10 & E11 & E12).
  cbn [parse_atom]. now rewrite E11, E1, E9, E4, E5, E6, E8, E7, E2, E3.
Qed.

Lemma parse_seq_step k c rest acc :
  is_meta c = false -> has_meta rest = false ->
  parse_seq (S (S k)) (String c rest) acc = parse_seq (S k) rest (RCat acc (RChar c)).
Proof.
  intros Hc Hr.
  pose proof (is_meta_false c Hc)
    as (E1 & E2 & E3 & E4 & E5 & E6 & E7 & E8 & E9 & E10 & E11 & E12).
  change (parse_seq (S (S k)) (String c rest) acc) with
    (if starts_with "|" (String c rest) || starts_with ")" (String c rest)
        || negb (nonempty (String c rest))
     then POk acc (String c rest)
     else match parse_atom (S k) (String c rest) with
          | POk a rest0 =>
              match parse_quant a rest0 with
              | POk a' rest' => parse_seq (S k) rest' (RCat acc a')
              | PErr e => PErr e
              end
          | PErr e => PErr e
          end).
  cbn [starts_with nonempty negb].
  rewrite (Ascii.eqb_sym "|" c), (Ascii.eqb_sym ")" c), E10, E12. cbn [orb].
  now rewrite (parse_atom_plain _ _ _ Hc), (parse_quant_plain _ _ Hr).
Qed.

Lemma parse_seq_literal p fuel acc :
  has_meta p = false -> (String.length p < fuel)%nat ->
  parse_seq fuel p acc = POk (literal_from acc p) "".
Proof.
  revert fuel acc. induction p as [|c p IH]; intros fuel acc Hm Hf.
  - destruct fuel; [simpl in Hf; lia|]. reflexivity.
  - destruct fuel as [|[|k]]; simpl in Hf; try lia.
    simpl in Hm. apply orb_false_elim in Hm as [Hc Hp].
    rewrite parse_seq_step by assumption. cbn [literal_from].
    apply IH; auto. lia.
Qed.

Lemma re_compile_literal p :
  has_meta p = false -> re_compile p = Ok (literal_from REmpty p).
Proof.
  intros Hm. unfold re_compile.
  replace (3 * String.length p + 3)%nat with (S (3 * String.length p + 2)) by lia.
  cbn [parse_alt]. rewrite parse_seq_literal by (auto; lia).
  reflexivity.
Qed.

End Regex.

(* ================================================================= *)
(** ** The filter *)

Section Filter.

Lemma lookup_mask_and a b i :
  mask_and a b !! i =
  match a !! i, b !! i with
  | Some x, Some y => Some (x && y)
  | _, _ => None
  end.
Proof.
  revert b i. induction a as [|x a IH]; intros [|y b] [|i]; simpl; auto.
  - now destruct (a !! i).
Qed.

Lemma forallb_lookup {A} (P : A -> bool) l i x :
  forallb P l = true -> l !! i = Some x -> P x = true.
Proof.
  intros H Hi. rewrite forallb_forall in H. eauto using lookup_In.
Qed.

Lemma text_filter_spec df c f mask col :
  lookup_col c (columns df) = Some col -> has_meta f = false ->
  text_filter df c f mask =
  Ok (if nonempty f
      then mask_and mask
             (map (fun x => match x with
                            | VStr s => is_substring f (lower s)
                            | _ => false
                            end) col)
      else mask).
Proof.
  intros Hc Hm. unfold text_filter, getitem, str_contains, str_lower.
  destruct (nonempty f); [|reflexivity].
  rewrite Hc, (re_compile_literal _ Hm). cbn [mbind result_bind].
  rewrite map_map. do 2 f_equal. apply map_ext. intros x.
  destruct x; auto using re_search_literal.
Qed.

Lemma invert_typed p :
  forallb is_flag p = true -> invert p = Ok (map (fun c => negb (truthy c)) p).
Proof.
  induction p as [|c p IH]; simpl; auto.
  destruct c; try discriminate. simpl. intros H. now rewrite IH.
Qed.

(** The mask the code computes, row by row. *)
Lemma filter_mask_rows df flt :
  ledger_ok df ->
  has_meta (lower (strip (rec_text flt))) = false ->
  has_meta (lower (strip (occ_text flt))) = false ->
  filter_mask df flt = Ok (map (keep_row df flt) (seq 0 (nrows df))).
Proof.
  intros Hok Hr Ho.
  destruct (ledger_ok_lookup df "year" Hok) as [y [Hy [Ly Ty]]]; [simpl; tauto|].
  destruct (ledger_ok_lookup df "recipient" Hok) as [r [Hrc [Lr Tr]]]; [simpl; tauto|].
  destruct (ledger_ok_lookup df "occasion" Hok) as [o [Hoc [Lo To]]]; [simpl; tauto|].
  destruct (ledger_ok_lookup df "purchased" Hok) as [p [Hp [Lp Tp]]]; [simpl; tauto|].
  change (column_type "year") with is_int64 in Ty.
  change (column_type "recipient") with is_text in Tr.
  change (column_type "occasion") with is_text in To.
  change (column_type "purchased") with is_flag in Tp.
  unfold filter_mask, getitem. rewrite Hy. cbn [mbind result_bind].
  rewrite (text_filter_spec _ _ _ _ _ Hrc Hr). cbn [mbind result_bind].
  rewrite (text_filter_spec _ _ _ _ _ Hoc Ho). cbn [mbind result_bind].
  rewrite Hp. cbn [mbind result_bind]. rewrite (invert_typed _ Tp).
  cbn [mbind result_bind].
  assert (Hrow : forall i,
    (i < nrows df)%nat ->
    exists yi ri oi pi,
      y !! i = Some (VInt yi) /\ r !! i = Some (VStr ri) /\
      o !! i = Some (VStr oi) /\ p !! i = Some (VBool pi)).
  { intros i Hi.
    destruct (lookup_lt_is_Some_2 y i) as [cy Hcy]; [lia|].
    destruct (lookup_lt_is_Some_2 r i) as [cr Hcr]; [lia|].
    destruct (lookup_lt_is_Some_2 o i) as [co Hco]; [lia|].
    destruct (lookup_lt_is_Some_2 p i) as [cp Hcp]; [lia|].
    pose proof (forallb_lookup _ _ _ _ Ty Hcy).
    pose proof (forallb_lookup _ _ _ _ Tr Hcr).
    pose proof (forallb_lookup _ _ _ _ To Hco).
    pose proof (forallb_lookup _ _ _ _ Tp Hcp).
    destruct cy, cr, co, cp; try discriminate. eauto 10. }
  set (f_rec := lower (strip (rec_text flt))) in *.
  set (f_occ := lower (strip (occ_text flt))) in *.
  assert (Hkeep : forall i yi ri oi pi,
    y !! i = Some (VInt yi) -> r !! i = Some (VStr ri) ->
    o !! i = Some (VStr oi) -> p !! i = Some (VBool pi) ->
    keep_row df flt i =
      existsb (Z.eqb yi) (f_year flt)
      && (negb (nonempty f_rec) || is_substring f_rec (lower ri))
      && (negb (nonempty f_occ) || is_substring f_occ (lower oi))
      && (negb (show_only_unpurchased flt) || negb pi)).
  { intros i yi ri oi pi E1 E2 E3 E4. unfold keep_row, cell_at.
    now rewrite Hy, Hrc, Hoc, Hp, E1, E2, E3, E4. }
  destruct (nonempty f_rec) eqn:Er, (nonempty f_occ) eqn:Eo,
           (show_only_unpurchased flt) eqn:Eu;
    f_equal; apply list_eq; intros i;
    (destruct (Nat.lt_ge_cases i (nrows df)) as [Hi|Hi];
     [ destruct (Hrow i Hi) as (yi & ri & oi & pi & E1 & E2 & E3 & E4);
       rewrite ?lookup_mask_and, !lookup_map, lookup_seq_lt by assumption;
       cbn [option_map Nat.add];
       rewrite (Hkeep i yi ri oi pi E1 E2 E3 E4), ?Er, ?Eo, ?Eu;
       rewrite ?E1, ?E2, ?E3, ?E4; cbn;
       f_equal; rewrite ?andb_true_r; reflexivity
     | assert (N1 : y !! i = None) by (apply lookup_ge_None; lia);
       rewrite ?lookup_mask_and, !lookup_map, lookup_seq_ge by assumption;
       rewrite ?N1; reflexivity ]).
Qed.

Lemma select_sublist {A} (mask : list bool) (l : list A) : sublist (select mask l) l.
Proof.
  revert l. induction mask as [|b m IH]; intros [|x l]; simpl;
    try apply sublist_nil_l.
  destruct b; [apply sublist_skip | apply sublist_cons]; apply IH.
Qed.



End Filter.

(* ================================================================= *)
(** ** Import, edit and the ledger invariant: results *)


Lemma filter_view_inv df flt fdf :
  filter_view df flt = Ok fdf ->
  exists mask, filter_mask df flt = Ok mask /\ fdf = loc_mask mask df.
Proof.
  unfold filter_view. destruct (filter_mask df flt) as [mask|]; [|discriminate].
  cbn [mbind result_bind]. intros [= <-]. eauto.
Qed.

(** C6.  Import is all or nothing: when [pd.read_csv] rejects the bytes
    (no columns to parse, a record with too many fields, an unterminated
    quoted field) the error is reported and the ledger is the prior one;
    more generally, whenever import reports an error the ledger is
    unchanged, and when it reports none the ledger is the normalised
    table read from the whole input. *)
Theorem import_csv_all_or_nothing today gifts bytes :
  (forall e, read_csv bytes = Raise e -> is_parse_error e = true ->
     import_csv today gifts bytes = (gifts, Some e)) /\
  (forall g e, import_csv today gifts bytes = (g, Some e) -> g = gifts) /\
  (forall g, import_csv today gifts bytes = (g, None) ->
     exists df, read_csv bytes = Ok df /\ ensure_df today df = Ok g).
Proof.
  unfold import_csv. repeat split.
  - intros e -> _. reflexivity.
  - intros g e. destruct (read_csv bytes) as [df|e1]; cbn [mbind result_bind].
    + destruct (ensure_df today df); now intros [= <- _].
    + now intros [= <- _].
  - intros g. destruct (read_csv bytes) as [df|e1]; cbn [mbind result_bind].
    + destruct (ensure_df today df) eqn:E; [|discriminate].
      intros [= <-]. eauto.
    + discriminate.
Qed.

(** Add renumbers the rows from 0, so a ledger whose rows are numbered
    from 0 keeps its row labels when a gift is added. *)
Lemma add_gift_keeps_labels today gifts f g :
  index gifts = seq 0 (nrows gifts) ->
  add_gift today gifts f = Ok g ->
  forall l, In l (index gifts) -> In l (index g).
Proof.
  unfold add_gift. intros Hi E. apply ensure_df_inv in E as [y [_ ->]].
  unfold normal_form, concat_row. cbn [index]. rewrite Hi.
  intros l. rewrite !in_seq. lia.
Qed.

(** C7.  The view [fdf] is filtered from the ledger as it is when the
    filter runs, [shown]; the write-back goes to the ledger as it is at
    the end of the run, [gifts], which has the row labels of [shown]
    (it is [shown], or [shown] with the gift added in between).
    Whatever the filter and the edits made in the table, the write-back
    leaves the row labels, the set of columns and the columns date,
    year, recipient, occasion, idea and budget as they are, and leaves
    every cell of a row that is not in the filtered view as it is: only
    [purchased] and [purchased_cost] of the rows in view can change. *)
Theorem edit_changes_only_purchase_fields shown gifts flt fdf e :
  ledger_ok shown -> ledger_ok gifts ->
  (forall l, In l (index shown) -> In l (index gifts)) ->
  filter_view shown flt = Ok fdf ->
  exists gifts',
    edit_step gifts fdf e = Ok gifts' /\
    index gifts' = index gifts /\
    names gifts' = names gifts /\
    (forall c, c <> "purchased" -> c <> "purchased_cost" ->
       lookup_col c (columns gifts') = lookup_col c (columns gifts)) /\
    (forall c p l, index gifts !! p = Some l -> ~ In l (index fdf) ->
       cell_at gifts' c p = cell_at gifts c p).
Proof.
  intros Hs Hok Hl Hv. unfold edit_step.
  destruct (df_empty fdf); [exists gifts; repeat split; auto|].
  apply filter_view_inv in Hv as [mask [_ ->]].
  destruct (ledger_ok_lookup shown "purchased" Hs) as [ps [Hps _]];
    [simpl; tauto|].
  destruct (ledger_ok_lookup shown "purchased_cost" Hs) as [cs [Hcs _]];
    [simpl; tauto|].
  destruct (ledger_ok_lookup gifts "purchased" Hok) as [pg [Hpg _]];
    [simpl; tauto|].
  destruct (ledger_ok_lookup gifts "purchased_cost" Hok) as [cg [Hcg _]];
    [simpl; tauto|].
  set (fdf := loc_mask mask shown).
  assert (Hp : exists p, lookup_col "purchased" (columns (data_editor fdf e)) = Some p).
  { unfold data_editor. rewrite !lookup_edit_column. unfold fdf.
    rewrite lookup_loc_mask, Hps. simpl. eauto. }
  assert (Hc : exists c, lookup_col "purchased_cost" (columns (data_editor fdf e)) = Some c).
  { unfold data_editor. rewrite !lookup_edit_column. unfold fdf.
    rewrite lookup_loc_mask, Hcs. simpl. eauto. }
  destruct Hp as [p Hp], Hc as [c Hc].
  destruct (write_back_frame gifts (data_editor fdf e) p c pg cg Hp Hc Hpg Hcg)
    as [pg' [cg' [E [A1 A2]]]].
  { rewrite index_data_editor. unfold fdf, loc_mask. cbn [index].
    intros l Hin. eapply Hl, select_In, Hin. }
  rewrite index_data_editor in A1, A2.
  eexists. split; [exact E|]. split; [reflexivity|]. split.
  { unfold names, setitem. cbn [columns].
    erewrite names_replace; [erewrite names_replace; eauto|].
    rewrite lookup_replace. simpl. exact Hcg. }
  split.
  - intros k Hk1 Hk2. unfold setitem. cbn [columns]. rewrite !lookup_replace.
    destruct (String.eqb_spec k "purchased_cost"); [congruence|].
    destruct (String.eqb_spec k "purchased"); [congruence|]. reflexivity.
  - intros k q l Hq Hn. unfold cell_at, setitem. cbn [columns].
    rewrite !lookup_replace.
    destruct (String.eqb_spec k "purchased_cost") as [->|].
    { rewrite Hcg. eapply assign_rows_other; eauto. }
    destruct (String.eqb_spec k "purchased") as [->|]; [|reflexivity].
    rewrite Hpg. eapply assign_rows_other; eauto.
Qed.


(* ================================================================= *)
(** ** The filter: results *)


(** C5, the defect at work: the search text is compiled as a regular
    expression.  The text "b.b" keeps Bob although "bob" does not
    contain "b.b"; a lone dot keeps every gift; and an opening
    parenthesis makes the filter raise [re.error]. *)
Lemma filter_reads_text_as_regex :
  is_substring "b.b" (lower "Bob") = false /\
  (fdf ← filter_view example_ledger (mkFilter [2024; 2025] "b.b" "" false);
   Ok (lookup_col "recipient" (columns fdf))) = Ok (Some [VStr "Bob"]) /\
  filter_view example_ledger (mkFilter [2024; 2025] "." "" false) = Ok example_ledger /\
  filter_view example_ledger (mkFilter [2024; 2025] "(" "" false) =
    Raise (ReError "missing ), unterminated subpattern").
Proof. vm_compute. repeat split. Qed.

(* ================================================================= *)
(** ** The tokenizer reads back what the writer wrote *)

Section Tokenizer.

Lemma tok_run_app a b t : tok_run (a ++ b) t = tok_run b (tok_run a t).
Proof. revert t. induction a as [|c a IH]; intros t; simpl; auto. Qed.

Lemma is_special_false c :
  is_special c = false ->
  Ascii.eqb c comma = false /\ Ascii.eqb c dquote = false /\ Ascii.eqb c newline = false.
Proof.
  unfold is_special. intros H.
  apply orb_false_elim in H as [H H3]. apply orb_false_elim in H as [H1 H2]. auto.
Qed.

Lemma needs_quote_cons c r :
  needs_quote (String c r) = false -> is_special c = false /\ needs_quote r = false.
Proof. simpl. apply orb_false_elim. Qed.

Lemma has_cr_cons c r :
  has_cr (String c r) = false -> Ascii.eqb c cr = false /\ has_cr r = false.
Proof. simpl. apply orb_false_elim. Qed.

Lemma chars_back l : string_of_list_ascii (rev (rev (list_ascii_of_string l) ++ [])) = l.
Proof. now rewrite app_nil_r, rev_involutive, string_of_list_ascii_of_string. Qed.

(** Ordinary characters inside an unquoted field are kept. *)
Lemma run_in_field f fld line lines :
  needs_quote f = false -> has_cr f = false ->
  tok_run f (mkTok IN_FIELD fld line lines) =
  mkTok IN_FIELD (rev (list_ascii_of_string f) ++ fld) line lines.
Proof.
  revert fld. induction f as [|c f IH]; intros fld Hq Hc; [reflexivity|].
  apply needs_quote_cons in Hq as [Hs Hq]. apply has_cr_cons in Hc as [Hr Hc].
  apply is_special_false in Hs as (H1 & H2 & H3).
  cbn [tok_run tok_step t_state field_step]. rewrite H3, Hr, H1.
  unfold push_char. cbn [t_field t_line t_lines]. rewrite IH by assumption.
  cbn [list_ascii_of_string rev]. now rewrite <- app_assoc.
Qed.

(** At the start of a record, leading blanks are set aside until the
    line turns out not to be blank. *)
Lemma run_in_blank_line f fld lines :
  needs_quote f = false -> has_cr f = false ->
  exists st, (st = WHITESPACE_LINE \/ st = IN_FIELD) /\
    tok_run f (mkTok WHITESPACE_LINE fld [] lines) =
    mkTok st (rev (list_ascii_of_string f) ++ fld) [] lines.
Proof.
  revert fld. induction f as [|c f IH]; intros fld Hq Hc; [eauto|].
  apply needs_quote_cons in Hq as [Hs Hq]. apply has_cr_cons in Hc as [Hr Hc].
  apply is_special_false in Hs as (H1 & H2 & H3).
  cbn [tok_run tok_step t_state]. rewrite H3, Hr.
  destruct (is_blank c).
  - unfold push_char. cbn [t_field t_line t_lines].
    destruct (IH (c :: fld) Hq Hc) as [st [Hst E]]. exists st. split; auto.
    rewrite E. cbn [list_ascii_of_string rev]. now rewrite <- app_assoc.
  - unfold set_state. cbn [t_field t_line t_lines field_step t_state].
    rewrite H3, Hr, H1. unfold push_char. cbn [t_field t_line t_lines].
    exists IN_FIELD. split; auto. rewrite run_in_field by assumption.
    cbn [list_ascii_of_string rev]. now rewrite <- app_assoc.
Qed.

(** Inside quotes every character is kept, a doubled quote as one. *)
Lemma run_in_quotes f fld line lines :
  tok_run (double_quotes f) (mkTok IN_QUOTED_FIELD fld line lines) =
  mkTok IN_QUOTED_FIELD (rev (list_ascii_of_string f) ++ fld) line lines.
Proof.
  revert fld. induction f as [|c f IH]; intros fld; [reflexivity|].
  cbn [double_quotes]. destruct (Ascii.eqb_spec c dquote) as [->|Hne].
  - cbn [tok_run tok_step t_state field_step].
    change (Ascii.eqb dquote dquote) with true. cbv iota.
    unfold set_state. cbn [t_state t_field t_line t_lines tok_step field_step].
    change (Ascii.eqb dquote dquote) with true. cbv iota.
    unfold push_char. cbn [t_field t_line t_lines].
    rewrite IH. cbn [list_ascii_of_string rev]. now rewrite <- app_assoc.
  - cbn [tok_run tok_step t_state field_step].
    apply Ascii.eqb_neq in Hne. rewrite Hne.
    unfold push_char. cbn [t_field t_line t_lines].
    rewrite IH. cbn [list_ascii_of_string rev]. now rewrite <- app_assoc.
Qed.

Lemma step_comma st fld line lines :
  comma_ready st = true ->
  tok_step comma (mkTok st fld line lines) =
  mkTok START_FIELD [] (string_of_list_ascii (rev fld) :: line) lines.
Proof. intros Hst. destruct st; try discriminate; reflexivity. Qed.

Lemma step_newline st fld line lines :
  newline_ready st = true ->
  tok_step newline (mkTok st fld line lines) =
  mkTok START_RECORD [] [] (rev (string_of_list_ascii (rev fld) :: line) :: lines).
Proof. intros Hst. destruct st; try discriminate; reflexivity. Qed.

(** One field as the writer lays it out, read from the start of a field
    or of a record. *)
Lemma run_field f st line lines :
  cr_safe f = true ->
  st = START_FIELD \/ (st = START_RECORD /\ line = []) ->
  exists st',
    tok_run (quote_field f) (mkTok st [] line lines) =
      mkTok st' (rev (list_ascii_of_string f) ++ []) line lines /\
    comma_ready st' = true /\
    (st = START_FIELD -> newline_ready st' = true).
Proof.
  intros Hs Hst. unfold quote_field, cr_safe in *.
  destruct (needs_quote f) eqn:Hq.
  - exists QUOTE_IN_QUOTED_FIELD. split; [|auto].
    assert (E : tok_step dquote (mkTok st [] line lines) =
                mkTok IN_QUOTED_FIELD [] line lines).
    { destruct Hst as [->|[-> ->]]; reflexivity. }
    cbn [tok_run]. rewrite E, tok_run_app, run_in_quotes. reflexivity.
  - rewrite orb_false_r in Hs. apply negb_true_iff in Hs.
    destruct f as [|c f].
    { exists st. split; [reflexivity|]. destruct Hst as [->|[-> ->]]; auto.
      split; auto. discriminate. }
    apply needs_quote_cons in Hq as [Hsp Hq]. apply has_cr_cons in Hs as [Hr Hc].
    apply is_special_false in Hsp as (H1 & H2 & H3).
    destruct Hst as [->|[-> ->]].
    + exists IN_FIELD. split; [|auto].
      cbn [tok_run tok_step t_state field_step]. rewrite H3, Hr, H2, H1.
      unfold push_char. cbn [t_field t_line t_lines].
      rewrite run_in_field by assumption.
      cbn [list_ascii_of_string rev]. now rewrite <- !app_assoc.
    + assert (E0 : tok_step c (mkTok START_RECORD [] [] lines) =
                   mkTok (if is_blank c then WHITESPACE_LINE else IN_FIELD) [c] [] lines).
      { cbn [tok_step t_state]. unfold record_step. rewrite H3, Hr.
        destruct (is_blank c); [reflexivity|].
        unfold set_state. cbn [t_field t_line t_lines field_step t_state].
        now rewrite H3, Hr, H2, H1. }
      cbn [tok_run]. rewrite E0. destruct (is_blank c).
      * destruct (run_in_blank_line f [c] lines Hq Hc) as [st' [Hst' E]].
        exists st'. rewrite E. split.
        { cbn [list_ascii_of_string rev]. now rewrite <- !app_assoc. }
        destruct Hst' as [->| ->]; split; auto; discriminate.
      * exists IN_FIELD. split; [|split; [reflexivity|discriminate]].
        rewrite run_in_field by assumption.
        cbn [list_ascii_of_string rev]. now rewrite <- !app_assoc.
Qed.

(** The fields of a record, up to and including the end of the line. *)
Lemma run_fields fs st line lines X :
  forallb cr_safe fs = true ->
  fs <> [] ->
  st = START_FIELD \/ (st = START_RECORD /\ line = [] /\ (2 <= length fs)%nat) ->
  tok_run (join_fields fs ++ String newline X) (mkTok st [] line lines) =
  tok_run X (mkTok START_RECORD [] [] (rev (rev fs ++ line) :: lines)).
Proof.
  revert st line. induction fs as [|f fs IH]; intros st line Hs Hne Hst; [congruence|].
  cbn [forallb] in Hs. apply andb_prop in Hs as [Hf Hs].
  destruct fs as [|f2 fs].
  - destruct Hst as [->|[_ [_ Hl]]]; [|simpl in Hl; lia].
    destruct (run_field f START_FIELD line lines Hf (or_introl eq_refl))
      as [st' [E [_ Hn]]].
    cbn [join_fields]. rewrite tok_run_app, E. cbn [tok_run].
    rewrite step_newline by auto. now rewrite chars_back.
  - assert (Hst' : st = START_FIELD \/ (st = START_RECORD /\ line = [])) by tauto.
    destruct (run_field f st line lines Hf Hst') as [st' [E [Hc _]]].
    change (join_fields (f :: f2 :: fs))
      with (quote_field f ++ String comma (join_fields (f2 :: fs))).
    rewrite append_assoc, tok_run_app, E.
    change (String comma (join_fields (f2 :: fs)) ++ String newline X)
      with (String comma (join_fields (f2 :: fs) ++ String newline X)).
    cbn [tok_run]. rewrite step_comma by exact Hc.
    rewrite chars_back. rewrite IH; [|exact Hs|discriminate|now left].
    cbn [rev]. now rewrite <- !app_assoc.
Qed.

(** One record as [csv_row] writes it, read from the start of a record. *)
Lemma run_row fs lines X :
  forallb cr_safe fs = true -> (2 <= length fs)%nat ->
  tok_run (csv_row fs ++ X) (mkTok START_RECORD [] [] lines) =
  tok_run X (mkTok START_RECORD [] [] (fs :: lines)).
Proof.
  intros Hs Hl.
  assert (E : csv_row fs = join_fields fs ++ String newline "").
  { destruct fs as [|f [|f2 r]]; simpl in Hl; try lia. now destruct f. }
  rewrite E, append_assoc. cbn [append].
  rewrite run_fields; auto.
  - now rewrite app_nil_r, rev_involutive.
  - destruct fs; [simpl in Hl; lia | discriminate].
Qed.

Lemma run_rows rows lines :
  Forall (fun fs => forallb cr_safe fs = true /\ (2 <= length fs)%nat) rows ->
  tok_run (concat_strings (map csv_row rows)) (mkTok START_RECORD [] [] lines) =
  mkTok START_RECORD [] [] (rev rows ++ lines).
Proof.
  intros H. revert lines. induction H as [|fs rows [Hs Hl] _ IH]; intros lines.
  - reflexivity.
  - cbn [map concat_strings]. rewrite run_row by assumption. rewrite IH.
    cbn [rev]. now rewrite <- app_assoc.
Qed.

(** What was written record by record is read back record by record. *)
Lemma tokenize_rows rows :
  Forall (fun fs => forallb cr_safe fs = true /\ (2 <= length fs)%nat) rows ->
  tokenize (concat_strings (map csv_row rows)) = Ok rows.
Proof.
  intros H. unfold tokenize. rewrite run_rows by assumption.
  cbn [tok_eof t_state t_lines]. now rewrite app_nil_r, rev_involutive.
Qed.

End Tokenizer.

(* ================================================================= *)
(** ** Integers are read back from their text *)

Section IntText.

Lemma length_append s t : String.length (s ++ t) = (String.length s + String.length t)%nat.
Proof. induction s; simpl; auto. Qed.

Lemma digit_enum d : 0 <= d <= 9 ->
  d = 0 \/ d = 1 \/ d = 2 \/ d = 3 \/ d = 4 \/ d = 5 \/ d = 6 \/ d = 7 \/ d = 8 \/ d = 9.
Proof. lia. Qed.


(** What every decimal digit satisfies. *)
Lemma digit_char_facts d : 0 <= d <= 9 ->
  is_digit (digit_char d) = true /\ digit_val (digit_char d) = d /\
  is_space (digit_char d) = false /\ is_special (digit_char d) = false /\
  Ascii.eqb (digit_char d) cr = false /\
  Ascii.eqb (digit_char d) "-" = false /\ Ascii.eqb (digit_char d) "+" = false.
Proof.
  intros H. destruct (digit_enum d H) as [->|[->|[->|[->|[->|[->|[->|[->|[->| ->]]]]]]]]];
    vm_compute; repeat split.
Qed.

Lemma all_digits_app s t : all_digits (s ++ t) = all_digits s && all_digits t.
Proof. induction s as [|c s IH]; simpl; auto. now rewrite IH, andb_assoc. Qed.

Lemma digits_val_app a s t : digits_val a (s ++ t) = digits_val (digits_val a s) t.
Proof. revert a. induction s as [|c s IH]; intros a; simpl; auto. Qed.

Lemma digits_acc_spec fuel z acc :
  0 <= z < 10 ^ Z.of_nat fuel -> (0 < fuel)%nat ->
  exists ds,
    digits_acc fuel z acc = ds ++ acc /\
    all_digits ds = true /\ nonempty ds = true /\
    forall a, digits_val a ds = a * 10 ^ Z.of_nat (String.length ds) + z.
Proof.
  revert z acc. induction fuel as [|k IH]; intros z acc Hz Hf; [lia|].
  cbn [digits_acc].
  assert (Hm : 0 <= z mod 10 <= 9) by (pose proof (Z.mod_pos_bound z 10); lia).
  destruct (digit_char_facts _ Hm) as (D1 & D2 & _).
  destruct (Z.ltb_spec z 10) as [Hlt|Hge].
  - exists (String (digit_char (z mod 10)) ""). repeat split.
    + simpl. now rewrite D1.
    + intros a. simpl. rewrite D2, Z.mod_small by lia. lia.
  - assert (Hk : (0 < k)%nat).
    { destruct k; [|lia]. simpl in Hz. lia. }
    assert (Hq : 0 <= z / 10 < 10 ^ Z.of_nat k).
    { rewrite Nat2Z.inj_succ, Z.pow_succ_r in Hz by lia. split.
      - apply Z.div_pos; lia.
      - apply Z.div_lt_upper_bound; lia. }
    destruct (IH (z / 10) (String (digit_char (z mod 10)) acc) Hq Hk)
      as (ds & E & A & N & V).
    exists (ds ++ String (digit_char (z mod 10)) ""). repeat split.
    + rewrite E, append_assoc. reflexivity.
    + rewrite all_digits_app, A. simpl. now rewrite D1.
    + destruct ds; [discriminate|reflexivity].
    + intros a. rewrite digits_val_app, V. simpl. rewrite D2, length_append.
      simpl. rewrite Nat.add_1_r, Nat2Z.inj_succ, Z.pow_succ_r by lia.
      pose proof (Z.div_mod z 10). lia.
Qed.

Lemma nat_text_spec z : 0 <= z ->
  all_digits (nat_text z) = true /\ nonempty (nat_text z) = true /\
  digits_val 0 (nat_text z) = z.
Proof.
  intros Hz. unfold nat_text.
  destruct (digits_acc_spec (S (Z.to_nat (Z.log2 z))) z "") as (ds & E & A & N & V).
  - split; [lia|]. rewrite Nat2Z.inj_succ, Z2Nat.id by apply Z.log2_nonneg.
    destruct (Z.eq_dec z 0) as [->|Hne]; [reflexivity|].
    pose proof (Z.log2_spec z ltac:(lia)) as [_ H].
    eapply Z.lt_le_trans; [exact H|].
    apply Z.pow_le_mono_l. lia.
  - lia.
  - rewrite E, append_nil_r. repeat split; auto.
Qed.






End IntText.

(* ================================================================= *)
(** ** Type inference on the columns of a written ledger *)

Section Inference.



Lemma typed_ints y :
  forallb is_int64 y = true ->
  exists zs, y = map VInt zs /\ forallb in_int64 zs = true.
Proof.
  induction y as [|c y IH]; simpl; intros H; [exists []; auto|].
  apply andb_prop in H as [Hc Hy]. destruct (IH Hy) as [zs [-> Hz]].
  destruct c; try discriminate. exists (z :: zs). simpl in *. now rewrite Hc, Hz.
Qed.



















End Inference.

(* ================================================================= *)
(** ** Export followed by import *)

Section RoundTrip.





Lemma to_csv_rows df :
  to_csv df =
  concat_strings
    (map csv_row (names df :: map (fun i => map csv_cell (row_at df i))
                                  (seq 0 (nrows df)))).
Proof. unfold to_csv. cbn [map concat_strings]. now rewrite map_map. Qed.

Lemma ledger_ok_columns L :
  ledger_ok L ->
  exists d y r o i b p c,
    columns L = [("date", d); ("year", y); ("recipient", r); ("occasion", o);
                 ("idea", i); ("budget", b); ("purchased", p);
                 ("purchased_cost", c)] /\
    Forall (fun col => length col = nrows L) [d; y; r; o; i; b; p; c] /\
    forallb is_text d = true /\ forallb is_int64 y = true /\
    forallb is_text r = true /\ forallb is_text o = true /\
    forallb is_text i = true /\ forallb is_money b = true /\
    forallb is_flag p = true /\ forallb is_money c = true.
Proof.
  intros [Hn Hf]. unfold names in Hn.
  destruct (columns L) as [|[n1 c1] [|[n2 c2] [|[n3 c3] [|[n4 c4] [|[n5 c5]
    [|[n6 c6] [|[n7 c7] [|[n8 c8] [|]]]]]]]]]; try discriminate.
  injection Hn as -> -> -> -> -> -> -> ->.
  repeat match goal with H : Forall _ (_ :: _) |- _ => inversion H; clear H; subst end.
  cbn [fst snd] in *.
  exists c1, c2, c3, c4, c5, c6, c7, c8. split; [reflexivity|].
  split; [repeat constructor; tauto|]. repeat split; tauto.
Qed.

(** Typed columns are fixed by their coercions. *)
Lemma coerce_text_id d : forallb is_text d = true -> coerce_text d = d.
Proof.
  intros H. unfold coerce_text, astype_str, fillna. rewrite map_map.
  etransitivity; [|apply map_id]. apply map_ext_in. intros c Hc.
  rewrite forallb_forall in H. specialize (H c Hc). now destruct c.
Qed.

Lemma coerce_purchased_id p : forallb is_flag p = true -> coerce_purchased p = p.
Proof.
  intros H. unfold coerce_purchased, astype_bool, fillna. rewrite map_map.
  etransitivity; [|apply map_id]. apply map_ext_in. intros c Hc.
  rewrite forallb_forall in H. specialize (H c Hc). now destruct c.
Qed.

Lemma coerce_money_id b : forallb is_money b = true -> coerce_money b = b.
Proof.
  intros H.
  assert (E : b = map VFloat (map (fun c => match c with VFloat f => f | _ => zero end) b)).
  { rewrite map_map. symmetry. etransitivity; [|apply map_id]. apply map_ext_in.
    intros c Hc. rewrite forallb_forall in H. specialize (H c Hc). now destruct c. }
  rewrite E. apply coerce_money_floats. rewrite forallb_forall. intros f Hf.
  apply in_map_iff in Hf as [c [<- Hc]]. rewrite forallb_forall in H.
  specialize (H c Hc). now destruct c.
Qed.

Lemma coerce_year_id today y :
  forallb is_int64 y = true -> coerce_year today y = Ok y.
Proof.
  intros H. destruct (typed_ints y H) as [zs [-> Hz]]. now apply coerce_year_ints.
Qed.

(** A ledger that has the schema is its own normal form. *)
Lemma ensure_df_ledger today L : ledger_ok L -> ensure_df today L = Ok L.
Proof.
  intros Hok.
  destruct (ledger_ok_columns L Hok)
    as (d & y & r & o & i & b & p & c & Hc & _ & Td & Ty & Tr & To & Ti & Tb & Tp & Tc).
  rewrite ensure_df_eq.
  assert (Hcol : forall k v, lookup_col k (columns L) = Some v ->
                             col_or_default today L k = v).
  { intros k v Hk. unfold col_or_default. now rewrite Hk. }
  rewrite Hc in Hcol.
  rewrite (Hcol "year" y eq_refl), (coerce_year_id _ _ Ty). cbn [mbind result_bind].
  unfold normal_form.
  rewrite (Hcol "date" _ eq_refl), (Hcol "recipient" _ eq_refl),
    (Hcol "occasion" _ eq_refl), (Hcol "idea" _ eq_refl),
    (Hcol "budget" _ eq_refl), (Hcol "purchased" _ eq_refl),
    (Hcol "purchased_cost" _ eq_refl).
  rewrite !coerce_text_id, !coerce_money_id, coerce_purchased_id by assumption.
  destruct L as [idx cols]. cbn [index columns] in *. now rewrite Hc.
Qed.

Lemma row_fields_cr_safe df i :
  Forall (fun nc => forallb (fun c => cr_safe (csv_cell c)) (snd nc) = true) (columns df) ->
  forallb cr_safe (map csv_cell (row_at df i)) = true.
Proof.
  unfold row_at. intros H. induction H as [|[n col] cols Hc _ IH]; [reflexivity|].
  cbn [map forallb snd]. rewrite IH, andb_true_r. cbn [snd] in Hc.
  destruct (col !! i) as [c|] eqn:E; [|reflexivity].
  eapply (forallb_lookup (fun c => cr_safe (csv_cell c))); eauto.
Qed.






End RoundTrip.

(* ================================================================= *)
(** ** Export then import: result *)


(* ================================================================= *)
(** * Worked examples *)

(** ** Normalisation *)

(** The raw table [example_table] normalised on 4 November 2026: the
    missing [occasion] column is filled with empty strings, the year
    "abc" becomes 2026 and the budget "x" becomes 0.0. *)
Lemma ensure_df_shape_and_defaults_example :
  valid_date example_today /\ year_castable example_table = true /\
  exists df',
    ensure_df example_today example_table = Ok df' /\
    names df' = COLUMNS /\ index df' = [0; 1; 2]%nat /\
    lookup_col "occasion" (columns df') = Some (repeat (VStr "") 3) /\
    cell_at df' "year" 0 = Some (VInt 2026) /\
    cell_at df' "budget" 1 = Some (VFloat zero).
Proof.
  assert (Hd : valid_date example_today) by (cbv; repeat split; discriminate).
  assert (Hc : year_castable example_table = true) by reflexivity.
  split; [exact Hd|]. split; [exact Hc|].
  destruct (ensure_df_shape_and_defaults example_today example_table Hd Hc)
    as (df' & E & Hn & Hi & Hm & Hy & Hb & _).
  exists df'. split; [exact E|]. split; [exact Hn|]. split; [exact Hi|].
  split; [|split].
  - apply (Hm "occasion"); [simpl; tauto | reflexivity].
  - apply (Hy 0%nat (VStr "abc")); reflexivity.
  - apply (Hb "budget" 1%nat (VStr "x")); [simpl; tauto | reflexivity | reflexivity].
Defined.

(** C1 as stated does not hold.  The date "soon" is no calendar date,
    yet normalisation keeps it where the default would be today's date;
    and a year cell holding "inf" makes [ensure_df] raise. *)
Lemma ensure_df_keeps_invalid_date_and_may_raise :
  is_iso_date "soon" = false /\
  cell_at example_table "date" 0 = Some (VStr "soon") /\
  (df' ← ensure_df example_today example_table; Ok (cell_at df' "date" 0))
    = Ok (Some (VStr "soon")) /\
  missing_default example_today "date" = VStr "2026-11-04" /\
  ensure_df example_today (mkDF [0%nat] [("year", [VStr "inf"])])
    = Raise IntCastingNaNError.
Proof. vm_compute. repeat split. Qed.

(** The date column of [example_table] after normalisation: the missing
    cell of row 1 is the empty string. *)
Lemma ensure_df_date_cells_example :
  ensure_df example_today example_table = Ok example_normal /\
  cell_at example_table "date" 1 = Some VNone /\
  cell_at example_normal "date" 1 = Some (VStr "").
Proof.
  assert (E : ensure_df example_today example_table = Ok example_normal)
    by (vm_compute; reflexivity).
  split; [exact E|]. split; [reflexivity|].
  exact (proj2 (ensure_df_date_cells example_today example_table example_normal E)
               1%nat VNone eq_refl).
Defined.

(** C9 as stated does not hold.  In [example_table] the date of row 0 is
    not a calendar date and the date of row 1 is missing; after
    normalisation on 4 November 2026 they are "soon" and the empty
    string, not "2026-11-04". *)
Lemma ensure_df_does_not_default_date_cells :
  isoformat example_today = "2026-11-04" /\
  lookup_col "date" (columns example_table)
    = Some [VStr "soon"; VNone; VStr "2024-05-01"] /\
  map is_iso_date ["soon"; ""; "2024-05-01"] = [false; false; true] /\
  (df' ← ensure_df example_today example_table;
   Ok (lookup_col "date" (columns df')))
    = Ok (Some [VStr "soon"; VStr ""; VStr "2024-05-01"]).
Proof. vm_compute. repeat split. Qed.

(** The string "False" in the [purchased] column of [example_table]
    becomes True. *)
Lemma ensure_df_purchased_truthiness_example :
  ensure_df example_today example_table = Ok example_normal /\
  cell_at example_table "purchased" 0 = Some (VStr "False") /\
  cell_at example_normal "purchased" 0 = Some (VBool true).
Proof.
  assert (E : ensure_df example_today example_table = Ok example_normal)
    by (vm_compute; reflexivity).
  split; [exact E|]. split; [reflexivity|].
  exact (proj1 ensure_df_purchased_truthiness example_today example_table
               example_normal 0%nat (VStr "False") E eq_refl).
Defined.

(** ** Import, edit and the ledger invariant *)

(** A file whose third line has a field too many is refused, and the
    ledger stays [example_ledger]. *)
Lemma import_csv_all_or_nothing_example :
  let e := ParserError "Error tokenizing data. C error: too many fields in a line" in
  read_csv example_bad_csv = Raise e /\
  is_parse_error e = true /\
  import_csv example_today example_ledger example_bad_csv = (example_ledger, Some e).
Proof.
  intros e.
  assert (E : read_csv example_bad_csv = Raise e) by (vm_compute; reflexivity).
  split; [exact E|]. split; [reflexivity|].
  exact (proj1 (import_csv_all_or_nothing example_today example_ledger example_bad_csv)
               e E eq_refl).
Defined.

(** With the gifts of 2025 for "o" in view (rows 1 and 2) and a gift
    added in the same run, ticking and pricing every gift in view leaves
    the budgets, row 0 and the added row 3 as they are. *)
Lemma edit_changes_only_purchase_fields_example :
  ledger_ok example_ledger /\
  ledger_ok example_after_add /\
  (forall l, In l (index example_ledger) -> In l (index example_after_add)) /\
  filter_view example_ledger example_filter = Ok example_view /\
  exists gifts',
    edit_step example_after_add example_view example_edits = Ok gifts' /\
    index gifts' = [0; 1; 2; 3]%nat /\
    names gifts' = COLUMNS /\
    lookup_col "budget" (columns gifts')
      = lookup_col "budget" (columns example_after_add) /\
    cell_at gifts' "purchased" 0 = Some (VBool false) /\
    cell_at gifts' "purchased_cost" 3 = Some (VFloat zero).
Proof.
  assert (Hs : ledger_ok example_ledger)
    by (split; [reflexivity | repeat constructor]).
  assert (Hok : ledger_ok example_after_add)
    by (split; [reflexivity | repeat constructor]).
  assert (Hl : forall l, In l (index example_ledger) -> In l (index example_after_add))
    by (simpl; tauto).
  assert (Hv : filter_view example_ledger example_filter = Ok example_view)
    by (vm_compute; reflexivity).
  split; [exact Hs|]. split; [exact Hok|]. split; [exact Hl|]. split; [exact Hv|].
  destruct (edit_changes_only_purchase_fields example_ledger example_after_add
              example_filter example_view example_edits Hs Hok Hl Hv)
    as (g & E & Hi & Hn & Hc & Hr).
  exists g. split; [exact E|]. split; [exact Hi|]. split; [exact Hn|].
  split; [|split].
  - apply Hc; discriminate.
  - rewrite (Hr "purchased" 0%nat 0%nat); [reflexivity | reflexivity |].
    intros [H|[H|[]]]; discriminate H.
  - rewrite (Hr "purchased_cost" 3%nat 3%nat); [reflexivity | reflexivity |].
    intros [H|[H|[]]]; discriminate H.
Defined.



(** ** The filter *)



(** ** Export then import *)



(* ================================================================= *)
(** * Further properties of the code *)

(** ** The normaliser on tables without rows, and what it reads *)

Section NormaliserEdges.

Lemma lookup_col_In c cols v :
  lookup_col c cols = Some v -> In (c, v) cols.
Proof.
  induction cols as [|[n w] r IH]; simpl; [discriminate|].
  destruct (String.eqb_spec c n) as [->|_].
  - intros [= ->]. now left.
  - intros H. right. auto.
Qed.

Lemma rectangular_lookup df c v :
  rectangular df -> lookup_col c (columns df) = Some v -> length v = nrows df.
Proof.
  intros Hr Hc. apply lookup_col_In in Hc. unfold rectangular in Hr.
  rewrite Forall_forall in Hr. apply list_elem_of_In in Hc.
  apply (Hr _ Hc).
Qed.

Lemma col_or_default_no_rows today df c :
  index df = [] -> rectangular df -> col_or_default today df c = [].
Proof.
  intros Hi Hr. unfold col_or_default.
  destruct (lookup_col c (columns df)) as [v|] eqn:E.
  - apply (rectangular_lookup df c v Hr) in E. unfold nrows in E. rewrite Hi in E.
    now destruct v.
  - unfold nrows. now rewrite Hi.
Qed.

End NormaliserEdges.

(** X1.  Normalising a table that has no rows gives the empty ledger of
    [empty_df], whatever columns the table has and whatever the date:
    so the ledger a session starts with, [ensure_df(empty_df())], is
    [empty_df], and so is the ledger made from a file that holds a
    header only. *)
Theorem ensure_df_no_rows today df :
  index df = [] -> rectangular df -> ensure_df today df = Ok empty_df.
Proof.
  intros Hi Hr. rewrite ensure_df_eq.
  rewrite (col_or_default_no_rows today df "year" Hi Hr).
  change (coerce_year today []) with (Ok (@nil cell)). cbn [mbind result_bind].
  unfold normal_form. rewrite Hi.
  now rewrite !(col_or_default_no_rows today df _ Hi Hr).
Qed.

Lemma ensure_df_no_rows_example :
  let df := mkDF [] [("recipient", []); ("note", [])] in
  index df = [] /\ rectangular df /\
  read_csv ("recipient,note" ++ nl) = Ok df /\
  ensure_df example_today df = Ok empty_df /\
  ensure_df example_today empty_df = Ok empty_df.
Proof.
  intros df.
  assert (Hr : rectangular df) by (repeat constructor).
  split; [reflexivity|]. split; [exact Hr|]. split; [vm_compute; reflexivity|].
  split.
  - exact (ensure_df_no_rows example_today df eq_refl Hr).
  - apply ensure_df_no_rows; [reflexivity | repeat constructor].
Defined.

(** X2.  The normaliser reads the eight columns of the schema by name
    and nothing else: two tables with the same row labels that agree on
    those columns have the same normal form, whatever other columns
    they hold and in whatever order their columns stand. *)
Theorem ensure_df_reads_schema_columns today a b :
  index a = index b ->
  (forall c, In c COLUMNS -> lookup_col c (columns a) = lookup_col c (columns b)) ->
  ensure_df today a = ensure_df today b.
Proof.
  intros Hi Hc. rewrite !ensure_df_eq.
  assert (H : forall c, In c COLUMNS ->
                        col_or_default today a c = col_or_default today b c).
  { intros c Hin. unfold col_or_default, nrows. now rewrite (Hc c Hin), Hi. }
  unfold normal_form. rewrite Hi.
  rewrite (H "date"), (H "year"), (H "recipient"), (H "occasion"), (H "idea"),
    (H "budget"), (H "purchased"), (H "purchased_cost") by (simpl; tauto).
  reflexivity.
Qed.

Lemma ensure_df_reads_schema_columns_example :
  let b := mkDF [0; 1; 2]%nat
             [("purchased", [VStr "False"; VNone; VInt 0]);
              ("budget", [VStr "12.5"; VStr "x"; VInt (-5)]);
              ("date", [VStr "soon"; VNone; VStr "2024-05-01"]);
              ("year", [VStr "abc"; VInt 2020; VFloat (float_lit "2021.9")]);
              ("recipient", [VStr "Alice"; VNone; VInt 7])] in
  index example_table = index b /\
  (forall c, In c COLUMNS ->
     lookup_col c (columns example_table) = lookup_col c (columns b)) /\
  ensure_df example_today example_table = ensure_df example_today b.
Proof.
  intros b.
  assert (H : forall c, In c COLUMNS ->
                lookup_col c (columns example_table) = lookup_col c (columns b)).
  { intros c Hin. simpl in Hin.
    destruct Hin as [<-|[<-|[<-|[<-|[<-|[<-|[<-|[<-|[]]]]]]]]]; reflexivity. }
  split; [reflexivity|]. split; [exact H|].
  exact (ensure_df_reads_schema_columns example_today example_table b eq_refl H).
Defined.



(** ** The "Add a gift" form *)

Section AddForm.

Lemma forallb_snoc {A} (P : A -> bool) l x :
  forallb P l = true -> P x = true -> forallb P (l ++ [x])%list = true.
Proof. intros Hl Hx. rewrite forallb_app. simpl. now rewrite Hl, Hx. Qed.

Lemma float_or_zero_money f :
  float_is_nan f = false -> is_money (VFloat (float_or_zero f)) = true.
Proof. intros H. unfold float_or_zero. destruct f; simpl in *; congruence. Qed.

(** The frame [pd.concat] makes of a ledger and the row of the form. *)
Lemma concat_row_ledger gifts f d y r o i b p c :
  columns gifts = [("date", d); ("year", y); ("recipient", r); ("occasion", o);
                   ("idea", i); ("budget", b); ("purchased", p);
                   ("purchased_cost", c)] ->
  concat_row gifts (new_row f) =
  mkDF (seq 0 (S (nrows gifts)))
    [("date", d ++ [VStr (isoformat (dt_val f))]);
     ("year", y ++ [VInt (year_val f)]);
     ("recipient", r ++ [VStr (strip (recipient f))]);
     ("occasion", o ++ [VStr (strip (occasion f))]);
     ("idea", i ++ [VStr (strip (idea f))]);
     ("budget", b ++ [VFloat (float_or_zero (budget f))]);
     ("purchased", p ++ [VBool (purchased f)]);
     ("purchased_cost", c ++ [VFloat (float_or_zero (purchased_cost f))])]%list.
Proof.
  intros Hc. unfold concat_row, has_column, new_row. rewrite Hc. reflexivity.
Qed.

(** Add on a ledger with the schema: the frame it stores. *)
Lemma add_gift_frame today gifts f d y r o i b p c :
  ledger_ok gifts ->
  columns gifts = [("date", d); ("year", y); ("recipient", r); ("occasion", o);
                   ("idea", i); ("budget", b); ("purchased", p);
                   ("purchased_cost", c)] ->
  in_int64 (year_val f) = true ->
  float_is_nan (budget f) = false ->
  float_is_nan (purchased_cost f) = false ->
  let g := concat_row gifts (new_row f) in
  add_gift today gifts f = Ok g /\ ledger_ok g /\ nrows g = S (nrows gifts).
Proof.
  intros Hok Hc Hy Hb Hpc.
  destruct (ledger_ok_columns gifts Hok)
    as (d' & y' & r' & o' & i' & b' & p' & c' & Hc' & Hl
        & Td & Ty & Tr & To & Ti & Tb & Tp & Tc).
  rewrite Hc in Hc'. injection Hc' as <- <- <- <- <- <- <- <-.
  repeat match goal with H : Forall _ (_ :: _) |- _ => inversion H; clear H; subst end.
  cbv zeta. unfold add_gift. rewrite (concat_row_ledger gifts f d y r o i b p c Hc).
  set (n := nrows gifts) in *. set (g := mkDF (seq 0 (S n)) _).
  assert (Hn : nrows g = S n) by (unfold nrows, g; cbn [index]; apply length_seq).
  assert (Hg : ledger_ok g).
  { split; [reflexivity|]. rewrite Hn. unfold g. cbn [columns].
    repeat constructor; cbn [fst snd];
      try (rewrite length_app; simpl; lia);
      apply forallb_snoc; auto using float_or_zero_money. }
  split; [now apply ensure_df_ledger|]. split; [exact Hg | exact Hn].
Qed.

End AddForm.



(** ** The year options and the filter *)

Section YearOptions.

Lemma In_insert_sorted z x l : In x (insert_sorted z l) <-> x = z \/ In x l.
Proof.
  induction l as [|a l IH]; simpl; [intuition auto|].
  destruct (z <? a) eqn:E1; simpl; [intuition auto|].
  destruct (z =? a) eqn:E2; simpl.
  - apply Z.eqb_eq in E2. subst. intuition auto.
  - rewrite IH. intuition auto.
Qed.

Lemma insert_sorted_increasing z l :
  strictly_increasing l = true -> strictly_increasing (insert_sorted z l) = true.
Proof.
  induction l as [|a l IH]; intros H; [reflexivity|].
  cbn [insert_sorted].
  destruct (z <? a) eqn:E1.
  { change (strictly_increasing (z :: a :: l))
      with ((z <? a) && strictly_increasing (a :: l)). now rewrite E1, H. }
  destruct (z =? a) eqn:E2; [exact H|].
  assert (Haz : (a <? z) = true).
  { apply Z.ltb_lt. apply Z.ltb_ge in E1. apply Z.eqb_neq in E2. lia. }
  destruct l as [|b l].
  { cbn. now rewrite Haz. }
  change (strictly_increasing (a :: b :: l))
    with ((a <? b) && strictly_increasing (b :: l)) in H.
  apply andb_prop in H as [Hab Hl]. specialize (IH Hl).
  cbn [insert_sorted] in *.
  destruct (z <? b); [|destruct (z =? b)].
  - change (strictly_increasing (a :: z :: b :: l))
      with ((a <? z) && strictly_increasing (z :: b :: l)). now rewrite Haz, IH.
  - change (strictly_increasing (a :: b :: l))
      with ((a <? b) && strictly_increasing (b :: l)). now rewrite Hab, IH.
  - change (strictly_increasing (a :: b :: insert_sorted z l))
      with ((a <? b) && strictly_increasing (b :: insert_sorted z l)).
    now rewrite Hab, IH.
Qed.

Lemma year_fold_ints zs :
  fold_right (fun c acc =>
                l ← acc;
                match c with
                | VInt z => Ok (insert_sorted z l)
                | _ => Raise (NotModelled "years that are not integers")
                end) (Ok []) (map VInt zs)
  = Ok (fold_right insert_sorted [] zs).
Proof. induction zs as [|z zs IH]; simpl; [reflexivity|]. now rewrite IH. Qed.

Lemma fold_insert_increasing zs :
  strictly_increasing (fold_right insert_sorted [] zs) = true.
Proof.
  induction zs as [|z zs IH]; simpl; [reflexivity|].
  now apply insert_sorted_increasing.
Qed.

Lemma In_fold_insert zs z : In z (fold_right insert_sorted [] zs) <-> In z zs.
Proof.
  induction zs as [|a zs IH]; simpl; [tauto|].
  rewrite In_insert_sorted, IH. intuition auto.
Qed.

Lemma In_lookup {A} (l : list A) x : In x l -> exists i, l !! i = Some x.
Proof.
  induction l as [|a l IH]; simpl; [tauto|].
  intros [->|H]; [now exists 0%nat|].
  destruct (IH H) as [i Hi]. now exists (S i).
Qed.

Lemma ledger_ok_not_empty df :
  ledger_ok df -> df_empty df = (nrows df =? 0)%nat.
Proof.
  intros [Hn _]. unfold df_empty.
  assert (E : length (columns df) = 8%nat).
  { unfold names in Hn. rewrite <- (length_map fst), Hn. reflexivity. }
  rewrite E. apply orb_false_r.
Qed.

(** The options on a ledger with the schema. *)
Lemma year_options_ledger today df :
  ledger_ok df ->
  exists y zs,
    lookup_col "year" (columns df) = Some y /\ length y = nrows df /\
    y = map VInt zs /\
    year_options today df =
    Ok (if (nrows df =? 0)%nat then [d_year today]
        else fold_right insert_sorted [] zs).
Proof.
  intros Hok.
  destruct (ledger_ok_lookup df "year" Hok) as [y [Hy [Ly Ty]]]; [simpl; tauto|].
  change (column_type "year") with is_int64 in Ty.
  destruct (typed_ints y Ty) as [zs [-> _]].
  exists (map VInt zs), zs. repeat split; auto.
  unfold year_options. rewrite (ledger_ok_not_empty df Hok).
  destruct (nrows df =? 0)%nat; [reflexivity|].
  unfold getitem. rewrite Hy. cbn [mbind result_bind]. apply year_fold_ints.
Qed.

End YearOptions.

(** X5.  The options of the year filter: on a ledger that has the
    schema they are computed without error; for a ledger without rows
    they are the current year alone; otherwise they are the years that
    occur in the ledger, each once, in increasing order. *)
Theorem year_options_spec today df :
  ledger_ok df ->
  exists ys,
    year_options today df = Ok ys /\
    (nrows df = 0%nat -> ys = [d_year today]) /\
    ((0 < nrows df)%nat ->
       strictly_increasing ys = true /\
       forall z, In z ys <-> exists i, cell_at df "year" i = Some (VInt z)).
Proof.
  intros Hok.
  destruct (year_options_ledger today df Hok) as (y & zs & Hy & Ly & -> & E).
  eexists. split; [exact E|]. split.
  - intros H0. now rewrite H0.
  - intros Hpos. destruct (nrows df =? 0)%nat eqn:E0;
      [apply Nat.eqb_eq in E0; lia|].
    split; [apply fold_insert_increasing|].
    intros z. rewrite In_fold_insert. unfold cell_at. rewrite Hy. split.
    + intros H. apply In_lookup. now apply in_map.
    + intros [i Hi]. apply lookup_In in Hi. apply in_map_iff in Hi as [x [[= ->] Hx]].
      exact Hx.
Qed.

Lemma year_options_spec_example :
  ledger_ok example_ledger /\
  year_options example_today example_ledger = Ok [2024; 2025] /\
  exists ys,
    year_options example_today example_ledger = Ok ys /\
    strictly_increasing ys = true /\
    (In 2025 ys <-> exists i, cell_at example_ledger "year" i = Some (VInt 2025)).
Proof.
  assert (Hok : ledger_ok example_ledger)
    by (split; [reflexivity | repeat constructor]).
  split; [exact Hok|]. split; [reflexivity|].
  destruct (year_options_spec example_today example_ledger Hok) as (ys & E & _ & H).
  exists ys. split; [exact E|].
  assert (Hpos : (0 < nrows example_ledger)%nat) by (cbv; repeat constructor).
  destruct (H Hpos) as [Hs Hm]. split; [exact Hs | exact (Hm 2025)].
Defined.

Section FilterRows.

Lemma select_all {A} (mask : list bool) (l : list A) :
  forallb (fun b => b) mask = true -> length mask = length l -> select mask l = l.
Proof.
  revert l. induction mask as [|b m IH]; intros [|x l]; simpl; try discriminate; auto.
  intros H Hl. apply andb_prop in H as [-> H]. f_equal. apply IH; auto.
Qed.

Lemma loc_mask_all mask df :
  rectangular df -> forallb (fun b => b) mask = true -> length mask = nrows df ->
  loc_mask mask df = df.
Proof.
  intros Hr Hm Hl. destruct df as [idx cols]. unfold loc_mask, rectangular, nrows in *.
  cbn [index columns] in *. f_equal.
  - now apply select_all.
  - etransitivity; [|apply map_id]. apply map_ext_in. intros [n v] Hin.
    cbn [fst snd]. f_equal. apply select_all; auto.
    rewrite Forall_forall in Hr. apply list_elem_of_In in Hin.
    specialize (Hr _ Hin). cbn [snd] in Hr. congruence.
Qed.

Lemma strip_empty_filter df c s mask :
  strip s = "" -> text_filter df c (lower (strip s)) mask = Ok mask.
Proof. intros ->. reflexivity. Qed.

(** The row of the ledger behind each row of a selection. *)
Lemma select_pos (mask : list bool) j :
  exists oi : option nat,
    (forall i, oi = Some i -> mask !! i = Some true) /\
    forall A (l : list A),
      select mask l !! j = match oi with Some i => l !! i | None => None end.
Proof.
  revert j. induction mask as [|b m IH]; intros j.
  - exists None. split; [discriminate|]. intros A l. now destruct l.
  - destruct b.
    + destruct j as [|j].
      * exists (Some 0%nat). split; [now intros i [= <-]|].
        intros A [|x l]; reflexivity.
      * destruct (IH j) as [oi [H1 H2]]. exists (option_map S oi). split.
        -- intros i Hi. destruct oi as [k|]; [|discriminate].
           injection Hi as <-. now apply H1.
        -- intros A [|x l]; simpl.
           ++ now destruct oi.
           ++ rewrite H2. now destruct oi.
    + destruct (IH j) as [oi [H1 H2]]. exists (option_map S oi). split.
      * intros i Hi. destruct oi as [k|]; [|discriminate].
        injection Hi as <-. now apply H1.
      * intros A [|x l]; simpl.
        -- now destruct oi.
        -- rewrite H2. now destruct oi.
Qed.

Lemma mask_and_true a b i :
  mask_and a b !! i = Some true -> a !! i = Some true /\ b !! i = Some true.
Proof.
  rewrite lookup_mask_and. destruct (a !! i) as [[]|], (b !! i) as [[]|];
    simpl; intros H; try discriminate; auto.
Qed.

Lemma text_filter_below df c f m m' :
  text_filter df c f m = Ok m' ->
  forall i, m' !! i = Some true -> m !! i = Some true.
Proof.
  unfold text_filter. destruct (nonempty f).
  - destruct (getitem c df) as [col|]; [|discriminate]. cbn [mbind result_bind].
    destruct (str_contains f (str_lower col)) as [x|]; [|discriminate].
    cbn [mbind result_bind]. intros [= <-] i Hi. now apply mask_and_true in Hi.
  - now intros [= <-].
Qed.

Lemma invert_lookup p np i :
  invert p = Ok np -> np !! i = Some true -> p !! i = Some (VBool false).
Proof.
  revert np i. induction p as [|c p IH]; simpl; intros np i.
  - intros [= <-]. now destruct i.
  - destruct c as [|b| | |]; try discriminate.
    destruct (invert p) as [l|]; [|discriminate]. cbn [mbind result_bind].
    intros [= <-]. destruct i as [|i]; simpl.
    + destruct b; [discriminate|reflexivity].
    + now apply IH.
Qed.

(** What a set bit of the mask says about its row. *)
Lemma filter_mask_row df flt mask i :
  ledger_ok df -> filter_mask df flt = Ok mask -> mask !! i = Some true ->
  (exists z, cell_at df "year" i = Some (VInt z) /\ In z (f_year flt)) /\
  (show_only_unpurchased flt = true -> cell_at df "purchased" i = Some (VBool false)).
Proof.
  intros Hok.
  destruct (ledger_ok_lookup df "year" Hok) as [y [Hy [Ly Ty]]]; [simpl; tauto|].
  destruct (ledger_ok_lookup df "purchased" Hok) as [p [Hp [Lp Tp]]]; [simpl; tauto|].
  change (column_type "year") with is_int64 in Ty.
  unfold filter_mask, getitem, cell_at. rewrite Hy, Hp. cbn [mbind result_bind].
  destruct (text_filter df "recipient" _ _) as [m1|] eqn:E1; [|discriminate].
  cbn [mbind result_bind].
  destruct (text_filter df "occasion" _ _) as [m2|] eqn:E2; [|discriminate].
  cbn [mbind result_bind].
  assert (Hyear : forall m : list bool,
                  (forall k, m !! k = Some true -> m2 !! k = Some true) ->
                  m !! i = Some true ->
                  exists z, y !! i = Some (VInt z) /\ In z (f_year flt)).
  { intros m Hm Hi. apply Hm in Hi.
    apply (text_filter_below _ _ _ _ _ E2) in Hi.
    apply (text_filter_below _ _ _ _ _ E1) in Hi.
    rewrite lookup_map in Hi. destruct (y !! i) as [c|] eqn:Ec; [|discriminate].
    pose proof (forallb_lookup _ _ _ _ Ty Ec) as Hc.
    destruct c; try discriminate. exists z. split; [reflexivity|].
    injection Hi as Hi. simpl in Hi. apply existsb_exists in Hi as [x [Hx Hzx]].
    apply Z.eqb_eq in Hzx. now subst. }
  destruct (show_only_unpurchased flt).
  - destruct (invert p) as [np|] eqn:Ei; [|discriminate]. cbn [mbind result_bind].
    intros [= <-] Hi. split.
    + apply (Hyear (mask_and m2 np)); auto.
      intros k Hk. now apply mask_and_true in Hk.
    + intros _. apply mask_and_true in Hi as [_ Hi]. eapply invert_lookup; eauto.
  - intros [= <-] Hi. split; [apply (Hyear m2); auto | discriminate].
Qed.

Lemma forallb_select {A} (P : A -> bool) mask l :
  forallb P l = true -> forallb P (select mask l) = true.
Proof.
  revert l. induction mask as [|b m IH]; intros [|x l]; simpl; auto.
  intros H. apply andb_prop in H as [Hx Hl]. destruct b; simpl; auto.
  now rewrite Hx, IH.
Qed.

Lemma length_select {A B} mask (l : list A) (l' : list B) :
  length l = length l' -> length (select mask l) = length (select mask l').
Proof.
  revert l l'. induction mask as [|b m IH]; intros [|x l] [|x' l']; simpl;
    try discriminate; auto.
  intros [= H]. destruct b; simpl; auto.
Qed.

Lemma loc_mask_ledger_ok mask df : ledger_ok df -> ledger_ok (loc_mask mask df).
Proof.
  intros [Hn Hf]. split.
  - unfold names, loc_mask in *. cbn [columns]. now rewrite map_map.
  - unfold loc_mask, nrows. cbn [columns index]. apply Forall_map.
    eapply Forall_impl; [exact Hf|]. intros [n v] [Hl Ht]. cbn [fst snd] in *.
    split; [now apply length_select | now apply forallb_select].
Qed.

End FilterRows.

(** X6.  The filter as it is when the page opens shows the whole
    ledger: with every year option selected, search texts that are
    empty or white space only, and the check box not ticked, the view
    is the ledger itself. *)
Theorem default_filter_shows_all today df ys r o :
  ledger_ok df -> year_options today df = Ok ys ->
  strip r = "" -> strip o = "" ->
  filter_view df (mkFilter ys r o false) = Ok df.
Proof.
  intros Hok Hys Hr Ho.
  destruct (year_options_ledger today df Hok) as (y & zs & Hy & Ly & -> & E).
  rewrite E in Hys. injection Hys as <-.
  unfold filter_view, filter_mask, getitem. rewrite Hy.
  cbn [mbind result_bind rec_text occ_text show_only_unpurchased f_year].
  rewrite (strip_empty_filter df "recipient" r _ Hr). cbn [mbind result_bind].
  rewrite (strip_empty_filter df "occasion" o _ Ho). cbn [mbind result_bind].
  f_equal. apply loc_mask_all.
  - now apply ledger_ok_rectangular.
  - rewrite forallb_forall. intros b Hb. apply in_map_iff in Hb as [c [<- Hc]].
    apply in_map_iff in Hc as [z [<- Hz]]. simpl.
    destruct (nrows df =? 0)%nat eqn:E0.
    + apply Nat.eqb_eq in E0. rewrite length_map in Ly.
      destruct zs; [contradiction|simpl in Ly; lia].
    + apply existsb_exists. exists z. split; [|apply Z.eqb_refl].
      now apply In_fold_insert.
  - now rewrite length_map.
Qed.

Lemma default_filter_shows_all_example :
  ledger_ok example_ledger /\
  year_options example_today example_ledger = Ok [2024; 2025] /\
  strip "  " = "" /\ strip "" = "" /\
  filter_view example_ledger (mkFilter [2024; 2025] "  " "" false) = Ok example_ledger.
Proof.
  assert (Hok : ledger_ok example_ledger)
    by (split; [reflexivity | repeat constructor]).
  split; [exact Hok|]. split; [reflexivity|]. split; [reflexivity|].
  split; [reflexivity|].
  exact (default_filter_shows_all example_today example_ledger [2024; 2025] "  " ""
           Hok eq_refl eq_refl eq_refl).
Defined.

(** X7.  Whatever the search texts are, plain or a regular expression,
    a view that the filter returns is made of rows of the ledger, in
    the order of the ledger and under their labels: it has the schema,
    every row of it is a row of the ledger whose year is one of the
    selected years, and when only unpurchased gifts are asked for no
    row of it is purchased. *)
Theorem filter_view_rows df flt fdf :
  ledger_ok df -> filter_view df flt = Ok fdf ->
  ledger_ok fdf /\
  sublist (index fdf) (index df) /\
  forall j, (j < nrows fdf)%nat ->
    exists i,
      index fdf !! j = index df !! i /\
      (forall c, cell_at fdf c j = cell_at df c i) /\
      (exists z, cell_at df "year" i = Some (VInt z) /\ In z (f_year flt)) /\
      (show_only_unpurchased flt = true ->
       cell_at df "purchased" i = Some (VBool false)).
Proof.
  intros Hok Hv. apply filter_view_inv in Hv as [mask [Hm ->]].
  split; [now apply loc_mask_ledger_ok|]. split; [apply select_sublist|].
  intros j Hj. destruct (select_pos mask j) as [oi [H1 H2]].
  unfold nrows, loc_mask in Hj. cbn [index] in Hj.
  destruct (lookup_lt_is_Some_2 _ _ Hj) as [l Hl].
  rewrite H2 in Hl. destruct oi as [i|]; [|discriminate].
  exists i. split; [cbn [loc_mask index]; apply H2|]. split.
  - intros c. unfold cell_at. rewrite lookup_loc_mask.
    destruct (lookup_col c (columns df)); [apply H2|reflexivity].
  - apply (filter_mask_row df flt mask i Hok Hm). now apply H1.
Qed.

Lemma filter_view_rows_example :
  let flt := mkFilter [2025] "b.b|c" "" true in
  ledger_ok example_ledger /\
  exists fdf,
    filter_view example_ledger flt = Ok fdf /\
    ledger_ok fdf /\ index fdf = [2%nat] /\
    exists i,
      (forall c, cell_at fdf c 0 = cell_at example_ledger c i) /\
      (exists z, cell_at example_ledger "year" i = Some (VInt z) /\ In z [2025]) /\
      cell_at example_ledger "purchased" i = Some (VBool false).
Proof.
  intros flt.
  assert (Hok : ledger_ok example_ledger)
    by (split; [reflexivity | repeat constructor]).
  split; [exact Hok|].
  destruct (filter_view example_ledger flt) as [fdf|] eqn:E; [|discriminate E].
  exists fdf. split; [reflexivity|].
  destruct (filter_view_rows example_ledger flt fdf Hok E) as (Hf & _ & Hrows).
  split; [exact Hf|].
  assert (Hi : index fdf = [2%nat]) by (vm_compute in E; now injection E as <-).
  split; [exact Hi|].
  destruct (Hrows 0%nat) as (i & _ & Hc & Hy & Hp).
  { unfold nrows. rewrite Hi. cbv. repeat constructor. }
  exists i. split; [exact Hc|]. split; [exact Hy|]. now apply Hp.
Defined.

(** ** The totals *)

Section Totals.

Lemma float_values_money col :
  forallb is_money col = true ->
  exists fs, float_values col = Ok fs /\ col = map VFloat fs /\
             forallb (fun f => negb (float_is_nan f)) fs = true.
Proof.
  induction col as [|c col IH]; simpl; intros H; [exists []; auto|].
  apply andb_prop in H as [Hc Hr]. destruct (IH Hr) as (fs & E & -> & Hn).
  destruct c; try discriminate. exists (f :: fs). rewrite E. simpl in *.
  now rewrite Hc, Hn.
Qed.

Lemma bool_values_flags col :
  forallb is_flag col = true ->
  exists bs, bool_values col = Ok bs /\ col = map VBool bs.
Proof.
  induction col as [|c col IH]; simpl; intros H; [exists []; auto|].
  apply andb_prop in H as [Hc Hr]. destruct (IH Hr) as (bs & E & ->).
  destruct c; try discriminate. exists (b :: bs). now rewrite E.
Qed.

(** The three columns of a view that has the schema. *)
Lemma kpis_ledger fdf :
  ledger_ok fdf ->
  exists bs ps cs,
    lookup_col "budget" (columns fdf) = Some (map VFloat bs) /\
    lookup_col "purchased" (columns fdf) = Some (map VBool ps) /\
    lookup_col "purchased_cost" (columns fdf) = Some (map VFloat cs) /\
    length bs = nrows fdf /\ length ps = nrows fdf /\ length cs = nrows fdf /\
    forallb (fun f => negb (float_is_nan f)) bs = true /\
    forallb (fun f => negb (float_is_nan f)) cs = true /\
    kpis fdf =
    Ok (mkTotals (nansum bs) (nansum (select ps cs))
          (py_max (float_sub (nansum bs) (nansum (select ps cs))) zero)).
Proof.
  intros Hok.
  destruct (ledger_ok_lookup fdf "budget" Hok) as [b [Hb [Lb Tb]]]; [simpl; tauto|].
  destruct (ledger_ok_lookup fdf "purchased" Hok) as [p [Hp [Lp Tp]]]; [simpl; tauto|].
  destruct (ledger_ok_lookup fdf "purchased_cost" Hok) as [c [Hc [Lc Tc]]];
    [simpl; tauto|].
  change (column_type "budget") with is_money in Tb.
  change (column_type "purchased") with is_flag in Tp.
  change (column_type "purchased_cost") with is_money in Tc.
  destruct (float_values_money b Tb) as (bs & Eb & -> & Nb).
  destruct (bool_values_flags p Tp) as (ps & Ep & ->).
  destruct (float_values_money c Tc) as (cs & Ec & -> & Nc).
  rewrite length_map in Lb, Lp, Lc.
  exists bs, ps, cs. repeat split; auto.
  unfold kpis, getitem. rewrite Hb, Hp, Hc. cbn [mbind result_bind].
  rewrite Eb, Ep, Ec. reflexivity.
Qed.

Lemma py_max_not_below x : float_is_negative (py_max x zero) = false.
Proof.
  unfold py_max, float_is_negative. destruct (SFltb x zero) eqn:E; [reflexivity|exact E].
Qed.

End Totals.

(** X8.  On a view that has the schema the three totals are computed
    without error; Remaining is the budget less the spending when that
    is not below zero and 0.0 otherwise, so it is never negative; and
    on a view without rows all three totals are 0.0. *)
Theorem kpis_of_view fdf :
  ledger_ok fdf ->
  exists t,
    kpis fdf = Ok t /\
    remaining t =
      (let d := float_sub (total_budget t) (total_spent t) in
       if float_is_negative d then zero else d) /\
    float_is_negative (remaining t) = false /\
    (nrows fdf = 0%nat -> t = mkTotals zero zero zero).
Proof.
  intros Hok.
  destruct (kpis_ledger fdf Hok) as (bs & ps & cs & _ & _ & _ & Lb & Lp & Lc & _ & _ & E).
  eexists. split; [exact E|]. cbn [remaining total_budget total_spent].
  split; [reflexivity|]. split; [apply py_max_not_below|].
  intros H0. rewrite H0 in *.
  destruct bs; [|discriminate]. destruct ps; [|discriminate].
  destruct cs; [|discriminate]. reflexivity.
Qed.

Lemma kpis_of_view_example :
  ledger_ok example_ledger /\
  exists t,
    kpis example_ledger = Ok t /\
    map float_text [total_budget t; total_spent t; remaining t]
      = ["162.5"; "40.0"; "122.5"] /\
    float_is_negative (remaining t) = false.
Proof.
  assert (Hok : ledger_ok example_ledger)
    by (split; [reflexivity | repeat constructor]).
  split; [exact Hok|].
  destruct (kpis_of_view example_ledger Hok) as (t & E & _ & Hn & _).
  exists t. split; [exact E|]. split; [|exact Hn].
  vm_compute in E. injection E as <-. vm_compute. reflexivity.
Defined.

Section Spending.

Lemma select_agree {A} (mask : list bool) (l l' : list A) :
  length l = length l' ->
  (forall i, mask !! i = Some true -> l !! i = l' !! i) ->
  select mask l = select mask l'.
Proof.
  revert l l'. induction mask as [|b m IH]; intros [|x l] [|x' l']; simpl;
    try discriminate; auto.
  intros [= Hl] H.
  assert (Hr : select m l = select m l').
  { apply IH; auto. intros i Hi. apply (H (S i)). exact Hi. }
  destruct b; [|exact Hr].
  specialize (H 0%nat eq_refl). simpl in H. injection H as ->. now rewrite Hr.
Qed.

End Spending.

(** X9.  Spent counts the purchased gifts only: two views with the
    schema that have the same check marks and the same costs on the
    rows that are marked purchased have the same Spent, whatever cost
    their other rows carry. *)
Theorem spent_counts_purchased_rows fdf fdf' t t' :
  ledger_ok fdf -> ledger_ok fdf' ->
  lookup_col "purchased" (columns fdf') = lookup_col "purchased" (columns fdf) ->
  (forall i, cell_at fdf "purchased" i = Some (VBool true) ->
             cell_at fdf' "purchased_cost" i = cell_at fdf "purchased_cost" i) ->
  kpis fdf = Ok t -> kpis fdf' = Ok t' ->
  total_spent t' = total_spent t.
Proof.
  intros Hok Hok' Hp Hc E E'.
  destruct (kpis_ledger fdf Hok) as (bs & ps & cs & _ & Ep & Ec & _ & Lp & Lc & _ & _ & K).
  destruct (kpis_ledger fdf' Hok')
    as (bs' & ps' & cs' & _ & Ep' & Ec' & _ & Lp' & Lc' & _ & _ & K').
  rewrite K in E. rewrite K' in E'. injection E as <-. injection E' as <-.
  cbn [total_spent]. rewrite Ep, Ep' in Hp. injection Hp as Hp.
  assert (Eps : ps' = ps).
  { revert Hp. clear. revert ps. induction ps' as [|b l IH]; intros [|b' l']; simpl;
      try discriminate; auto. intros [= -> H]. f_equal. auto. }
  subst ps'. f_equal. apply select_agree; [congruence|].
  intros i Hi. specialize (Hc i). unfold cell_at in Hc.
  rewrite Ep, Ec, Ec' in Hc. rewrite !lookup_map, Hi in Hc.
  specialize (Hc eq_refl).
  destruct (cs !! i), (cs' !! i); simpl in Hc; congruence.
Qed.

Lemma spent_counts_purchased_rows_example :
  let other := setitem "purchased_cost"
                 [VFloat (float_lit "7"); VFloat (float_lit "40"); VFloat (float_lit "9")]
                 example_ledger in
  ledger_ok example_ledger /\ ledger_ok other /\
  exists t t',
    kpis example_ledger = Ok t /\ kpis other = Ok t' /\
    total_spent t' = total_spent t /\ float_text (total_spent t) = "40.0".
Proof.
  intros other.
  assert (Hok : ledger_ok example_ledger)
    by (split; [reflexivity | repeat constructor]).
  assert (Hok' : ledger_ok other) by (split; [reflexivity | repeat constructor]).
  split; [exact Hok|]. split; [exact Hok'|].
  destruct (kpis example_ledger) as [t|] eqn:E; [|discriminate E].
  destruct (kpis other) as [t'|] eqn:E'; [|discriminate E'].
  exists t, t'. split; [reflexivity|]. split; [reflexivity|]. split.
  - apply (spent_counts_purchased_rows example_ledger other t t' Hok Hok' eq_refl);
      [|exact E|exact E'].
    intros [|[|[|i]]] Hi; try discriminate Hi; reflexivity.
  - vm_compute in E. injection E as <-. reflexivity.
Defined.

Section Signs.

Lemma not_negative_cases f :
  not_negative f =
  match f with
  | S754_zero _ => true
  | S754_infinity s | S754_finite s _ _ => negb s
  | S754_nan => false
  end.
Proof. destruct f as [s|s| |s m e]; try destruct s; reflexivity. Qed.

Lemma binary_round_aux_sign m e l :
  0 <= m -> not_negative (binary_round_aux prec emax false m e l) = true.
Proof.
  intros H. unfold binary_round_aux.
  pose proof (shr_fexp_nonneg m e l H) as H1.
  destruct (shr_fexp prec emax m e l) as [mrs' e'] eqn:E1. simpl in H1.
  pose proof (shr_fexp_nonneg _ e' loc_Exact
                (round_nearest_even_nonneg _ (loc_of_shr_record mrs') H1)) as H2.
  destruct (shr_fexp prec emax (round_nearest_even _ _) e' loc_Exact)
    as [mrs'' e''] eqn:E2. simpl in H2.
  destruct (shr_m mrs'') as [|p|p].
  - reflexivity.
  - now destruct (e'' <=? emax - prec).
  - lia.
Qed.

Lemma binary_round_sign m e :
  not_negative (binary_round prec emax false m e) = true.
Proof.
  unfold binary_round.
  destruct (shl_align m e _) as [mz ez].
  apply binary_round_aux_sign. lia.
Qed.

(** The sum of two numbers that are not negative is not negative. *)
Lemma float_add_sign a b :
  not_negative a = true -> not_negative b = true ->
  not_negative (float_add a b) = true.
Proof.
  rewrite (not_negative_cases a), (not_negative_cases b).
  destruct a as [sa|sa| |sa ma ea], b as [sb|sb| |sb mb eb];
    try destruct sa; try destruct sb; try discriminate; intros _ _;
    try reflexivity.
  unfold float_add, SFadd. cbn [cond_Zopp]. cbv zeta.
  change (Z.pos ?a + Z.pos ?b) with (Z.pos (a + b)).
  apply binary_round_sign.
Qed.

Lemma fold_add_sign l a :
  forallb not_negative l = true -> not_negative a = true ->
  not_negative (fold_left float_add l a) = true.
Proof.
  revert a. induction l as [|x l IH]; intros a Hl Ha; simpl; auto.
  simpl in Hl. apply andb_prop in Hl as [Hx Hl]. auto using float_add_sign.
Qed.

Lemma forallb_firstn {A} (P : A -> bool) n l :
  forallb P l = true -> forallb P (firstn n l) = true.
Proof.
  revert l. induction n as [|n IH]; intros [|x l]; simpl; auto.
  intros H. apply andb_prop in H as [-> H]. simpl. auto.
Qed.

Lemma forallb_skipn {A} (P : A -> bool) n l :
  forallb P l = true -> forallb P (skipn n l) = true.
Proof.
  revert l. induction n as [|n IH]; intros [|x l]; simpl; auto.
  intros H. apply andb_prop in H as [_ H]. auto.
Qed.

Lemma zip_add_sign r l :
  forallb not_negative r = true -> forallb not_negative l = true ->
  forallb not_negative (zip_with float_add r l) = true.
Proof.
  revert l. induction r as [|a r IH]; intros [|b l]; simpl; auto.
  intros Hr Hl. apply andb_prop in Hr as [Ha Hr]. apply andb_prop in Hl as [Hb Hl].
  now rewrite float_add_sign, IH.
Qed.

Lemma lanes_sign k r l :
  forallb not_negative r = true -> forallb not_negative l = true ->
  forallb not_negative (lanes k r l) = true.
Proof.
  revert r l. induction k as [|k IH]; intros r l Hr Hl; simpl; auto.
  apply IH; auto using zip_add_sign, forallb_firstn, forallb_skipn.
Qed.

Lemma lane_sign r j : forallb not_negative r = true -> not_negative (lane r j) = true.
Proof.
  unfold lane. revert j. induction r as [|a r IH]; intros [|j] H; simpl in *; auto.
  - now apply andb_prop in H as [Ha _].
  - apply andb_prop in H as [_ H]. auto.
Qed.

Lemma block_sum_sign l :
  forallb not_negative l = true -> not_negative (block_sum l) = true.
Proof.
  intros H. unfold block_sum. apply fold_add_sign; [now apply forallb_skipn|].
  assert (Hr : forallb not_negative
                 (lanes (((length l - length l mod 8) / 8) - 1) (firstn 8 l)
                        (skipn 8 (firstn (length l - length l mod 8) l))) = true)
    by auto using lanes_sign, forallb_firstn, forallb_skipn.
  unfold combine_lanes. auto 10 using float_add_sign, lane_sign.
Qed.

Lemma pairwise_sum_sign depth l :
  forallb not_negative l = true -> not_negative (pairwise_sum depth l) = true.
Proof.
  revert l. induction depth as [|k IH]; intros l H; simpl.
  - destruct (length l <? 8)%nat; [now apply fold_add_sign|].
    destruct (length l <=? 128)%nat; now apply block_sum_sign.
  - destruct (length l <? 8)%nat; [now apply fold_add_sign|].
    destruct (length l <=? 128)%nat; [now apply block_sum_sign|].
    apply float_add_sign; apply IH; auto using forallb_firstn, forallb_skipn.
Qed.

Lemma nansum_sign l :
  forallb (fun f => negb (float_is_negative f)) l = true ->
  not_negative (nansum l) = true.
Proof.
  intros H. unfold nansum. apply float_add_sign; [reflexivity|].
  apply pairwise_sum_sign. rewrite forallb_forall in *. intros f Hf.
  apply in_map_iff in Hf as [x [<- Hx]]. specialize (H x Hx).
  destruct (float_is_nan x) eqn:En; [reflexivity|].
  unfold not_negative. now rewrite H, En.
Qed.

End Signs.

(** X10.  Amounts that are not negative have totals that are not
    negative: on a view with the schema in which no budget and no cost
    is below zero, Budget and Spent are numbers (not NaN) that are not
    below zero, however many rows are added up and in whatever order
    numpy adds them. *)
Theorem totals_of_non_negative_amounts fdf t :
  ledger_ok fdf ->
  (forall c i f, In c ["budget"; "purchased_cost"] ->
     cell_at fdf c i = Some (VFloat f) -> float_is_negative f = false) ->
  kpis fdf = Ok t ->
  not_negative (total_budget t) = true /\ not_negative (total_spent t) = true.
Proof.
  intros Hok Hpos E.
  destruct (kpis_ledger fdf Hok) as (bs & ps & cs & Eb & _ & Ec & _ & _ & _ & _ & _ & K).
  rewrite K in E. injection E as <-. cbn [total_budget total_spent].
  assert (Hcol : forall c fs, In c ["budget"; "purchased_cost"] ->
            lookup_col c (columns fdf) = Some (map VFloat fs) ->
            forallb (fun f => negb (float_is_negative f)) fs = true).
  { intros c fs Hin Hc. rewrite forallb_forall. intros f Hf.
    apply In_lookup in Hf as [i Hi].
    rewrite (Hpos c i f Hin); [reflexivity|].
    unfold cell_at. rewrite Hc, lookup_map, Hi. reflexivity. }
  split; apply nansum_sign.
  - apply (Hcol "budget"); [simpl; tauto | exact Eb].
  - apply forallb_select. apply (Hcol "purchased_cost"); [simpl; tauto | exact Ec].
Qed.

Lemma totals_of_non_negative_amounts_example :
  ledger_ok example_ledger /\
  (forall c i f, In c ["budget"; "purchased_cost"] ->
     cell_at example_ledger c i = Some (VFloat f) -> float_is_negative f = false) /\
  exists t,
    kpis example_ledger = Ok t /\
    not_negative (total_budget t) = true /\ not_negative (total_spent t) = true.
Proof.
  assert (Hok : ledger_ok example_ledger)
    by (split; [reflexivity | repeat constructor]).
  assert (Hpos : forall c i f, In c ["budget"; "purchased_cost"] ->
            cell_at example_ledger c i = Some (VFloat f) -> float_is_negative f = false).
  { intros c i f Hin. simpl in Hin. destruct Hin as [<-|[<-|[]]];
      destruct i as [|[|[|i]]]; intros H; try discriminate H;
      injection H as <-; reflexivity. }
  split; [exact Hok|]. split; [exact Hpos|].
  destruct (kpis example_ledger) as [t|] eqn:E; [|discriminate E].
  exists t. split; [reflexivity|].
  exact (totals_of_non_negative_amounts example_ledger t Hok Hpos E).
Defined.

Section Labels.

Lemma digits_only_app s t : digits_only (s ++ t) = digits_only s ++ digits_only t.
Proof.
  induction s as [|c s IH]; simpl; auto. destruct (is_digit c); simpl; now rewrite IH.
Qed.

Lemma digits_only_all s : all_digits s = true -> digits_only s = s.
Proof.
  induction s as [|c s IH]; simpl; auto. intros H.
  apply andb_prop in H as [-> H]. now rewrite IH.
Qed.

Lemma digits_only_commas s : digits_only (commas s) = digits_only s.
Proof.
  induction s as [|c s IH]; [reflexivity|]. cbn [commas].
  destruct ((0 <? String.length s)%nat && (String.length s mod 3 =? 0)%nat);
    cbn [digits_only]; change (is_digit ",") with false; cbv iota; now rewrite IH.
Qed.

Lemma digits_val_shift a s :
  digits_val a s = a * 10 ^ Z.of_nat (String.length s) + digits_val 0 s.
Proof.
  revert a. induction s as [|c s IH]; intros a; simpl String.length.
  - simpl. lia.
  - cbn [digits_val]. rewrite (IH (10 * a + digit_val c)), (IH (10 * 0 + digit_val c)).
    rewrite Nat2Z.inj_succ, Z.pow_succ_r by lia. ring.
Qed.

Lemma two_digits_table :
  forallb (fun n => let t := zero_pad 2 (Z.of_nat n) in
                    all_digits t && (String.length t =? 2)%nat
                    && (digits_val 0 t =? Z.of_nat n))
          (seq 0 100) = true.
Proof. vm_compute. reflexivity. Qed.

Lemma zero_pad_two b : 0 <= b < 100 ->
  all_digits (zero_pad 2 b) = true /\
  forall a, digits_val a (zero_pad 2 b) = a * 100 + b.
Proof.
  intros Hb. pose proof two_digits_table as H. rewrite forallb_forall in H.
  specialize (H (Z.to_nat b)). rewrite Z2Nat.id in H by lia.
  assert (Hin : In (Z.to_nat b) (seq 0 100)) by (apply in_seq; lia).
  apply H in Hin. cbv zeta in Hin.
  apply andb_prop in Hin as [Hin H3]. apply andb_prop in Hin as [H1 H2].
  apply Nat.eqb_eq in H2. apply Z.eqb_eq in H3. split; [exact H1|].
  intros a. rewrite digits_val_shift, H2, H3. reflexivity.
Qed.

Lemma round_half_even_near a b :
  0 < b -> 2 * Z.abs (round_half_even a b * b - a) <= b.
Proof.
  intros Hb. unfold round_half_even.
  pose proof (Z.div_mod a b) as Hd. pose proof (Z.mod_pos_bound a b Hb) as Hm.
  destruct (Z.compare_spec (2 * (a mod b)) b) as [E|E|E];
    [destruct (Z.even (a / b))|..]; nia.
Qed.

Lemma round_half_even_nonneg a b : 0 <= a -> 0 < b -> 0 <= round_half_even a b.
Proof.
  intros Ha Hb. unfold round_half_even.
  pose proof (Z.div_pos a b Ha Hb).
  destruct (2 * (a mod b) ?= b); [destruct (Z.even (a / b))|..]; lia.
Qed.

Lemma hundredths_nonneg m e : 0 <= hundredths m e.
Proof.
  unfold hundredths. destruct (0 <=? e) eqn:E.
  - apply Z.leb_le in E. pose proof (Z.pow_pos_nonneg 2 e). nia.
  - apply Z.leb_gt in E. apply round_half_even_nonneg; [lia|].
    apply Z.pow_pos_nonneg; lia.
Qed.

(** The digits of a label of a finite amount are its hundredths. *)
Lemma label_cents_finite s m e :
  label_cents (money_label (S754_finite s m e)) = hundredths m e.
Proof.
  pose proof (hundredths_nonneg m e) as Hq. set (q := hundredths m e) in *.
  unfold label_cents, money_label, fixed2. fold q.
  assert (Ha : 0 <= q / 100) by (apply Z.div_pos; lia).
  assert (Hb : 0 <= q mod 100 < 100) by (apply Z.mod_pos_bound; lia).
  destruct (nat_text_spec (q / 100) Ha) as (A1 & _ & V1).
  destruct (zero_pad_two (q mod 100) Hb) as (A2 & V2).
  rewrite !digits_only_app, digits_only_commas,
    (digits_only_all _ A1), (digits_only_all _ A2).
  replace (digits_only "$") with "" by reflexivity.
  replace (digits_only ".") with "" by reflexivity.
  replace (digits_only (if s then "-" else "")) with "" by now destruct s.
  cbn [String.append]. rewrite digits_val_app, V1, V2.
  pose proof (Z.div_mod q 100). lia.
Qed.

End Labels.

(** X11.  The label of a metric shows the amount to the nearest cent:
    the digits of [f"${x:,.2f}"] for a finite [x = m * 2 ^ e], read as
    one number of hundredths, are exactly [100 * |x|] when that is an
    integer, and otherwise an integer at most one half away from it (of
    the two nearest integers the even one, when it lies half way); the
    thousands separators and the sign do not change what is read. *)
Theorem money_label_nearest_cent s m e :
  let q := label_cents (money_label (S754_finite s m e)) in
  (0 <= e -> q = Zpos m * 2 ^ e * 100) /\
  (e < 0 -> 2 * Z.abs (q * 2 ^ (- e) - Zpos m * 100) <= 2 ^ (- e)).
Proof.
  cbv zeta. rewrite label_cents_finite. unfold hundredths. split.
  - intros He. apply Z.leb_le in He. now rewrite He.
  - intros He. apply Z.leb_gt in He. rewrite He.
    apply round_half_even_near. apply Z.pow_pos_nonneg; lia.
Qed.

(** ** The write-back of the table *)

Section WriteBackRows.

Lemma NoDup_select {A} (mask : list bool) (l : list A) :
  List.NoDup l -> List.NoDup (select mask l).
Proof.
  intros H. revert mask. induction H as [|x l Hx Hl IH]; intros [|b m]; simpl;
    try constructor.
  destruct b; [|apply IH]. constructor; [|apply IH].
  intros Hin. apply Hx. eapply select_In, Hin.
Qed.

Lemma label_pos_NoDup target p l :
  List.NoDup target -> target !! p = Some l -> label_pos l target = Some p.
Proof.
  intros H. revert p. induction H as [|x r Hx Hr IH]; intros [|p]; simpl;
    try discriminate.
  - intros [= ->]. now rewrite Nat.eqb_refl.
  - intros Hp. destruct (Nat.eqb_spec l x) as [->|_].
    + exfalso. apply Hx. eapply lookup_In, Hp.
    + now rewrite (IH p Hp).
Qed.

Lemma lookup_zip_with {A B C} (f : A -> B -> C) la lb j a b :
  la !! j = Some a -> lb !! j = Some b -> zip_with f la lb !! j = Some (f a b).
Proof.
  revert lb j. induction la as [|x la IH]; intros [|y lb] [|j]; simpl;
    try discriminate; auto.
  now intros [= ->] [= ->].
Qed.

(** The value written for a label is found at the row of that label. *)
Lemma assign_rows_written target labels vals col col' j l v p :
  assign_rows target labels vals col = Ok col' ->
  List.NoDup labels -> List.NoDup target ->
  labels !! j = Some l -> vals !! j = Some v ->
  target !! p = Some l -> (p < length col)%nat ->
  col' !! p = Some v.
Proof.
  intros H Hn Ht. revert vals col j H.
  induction Hn as [|x ls Hx Hls IH]; intros [|v0 vs] col [|j]; simpl;
    try discriminate.
  - intros H [= ->] [= ->] Hp Hlt.
    rewrite (label_pos_NoDup target p l Ht Hp) in H.
    rewrite (assign_rows_other _ _ _ _ _ _ _ H Hp Hx).
    now apply list_lookup_insert_eq.
  - destruct (label_pos x target) as [q|]; [|discriminate].
    intros H Hl Hv Hp Hlt. eapply IH; eauto. now rewrite length_insert.
Qed.

(** Writing the values that are there already changes nothing. *)
Lemma assign_rows_same target labels vals col :
  (forall j l v, labels !! j = Some l -> vals !! j = Some v ->
     exists p, label_pos l target = Some p /\ col !! p = Some v) ->
  assign_rows target labels vals col = Ok col.
Proof.
  revert vals. induction labels as [|l ls IH]; intros [|v vs] H; simpl; auto.
  destruct (H 0%nat l v eq_refl eq_refl) as [p [-> Hp]].
  rewrite (list_insert_id col p v Hp). apply IH.
  intros j l' v' Hl Hv. apply (H (S j)); assumption.
Qed.

Lemma replace_col_same c v cols :
  lookup_col c cols = Some v -> replace_col c v cols = cols.
Proof.
  induction cols as [|[n w] r IH]; simpl; [discriminate|].
  destruct (String.eqb_spec c n) as [->|_].
  - now intros [= ->].
  - intros H. now rewrite IH.
Qed.

Lemma setitem_same c v df :
  lookup_col c (columns df) = Some v -> setitem c v df = df.
Proof.
  intros H. destruct df as [idx cols]. unfold setitem. cbn [index columns] in *.
  now rewrite replace_col_same.
Qed.

Lemma zip_with_snd {A B} (la : list A) (lb : list B) :
  length la = length lb -> zip_with (fun _ b => b) la lb = lb.
Proof.
  revert lb. induction la as [|a la IH]; intros [|b lb]; simpl; try discriminate; auto.
  intros [= H]. now rewrite IH.
Qed.

(** The columns of the edited view. *)
Lemma data_editor_columns fdf e ps cs :
  lookup_col "purchased" (columns fdf) = Some ps ->
  lookup_col "purchased_cost" (columns fdf) = Some cs ->
  lookup_col "purchased" (columns (data_editor fdf e))
    = Some (zip_with (edit_purchased e) (index fdf) ps) /\
  lookup_col "purchased_cost" (columns (data_editor fdf e))
    = Some (zip_with (edit_cost e) (index fdf) cs).
Proof.
  intros Hp Hc. unfold data_editor. rewrite !lookup_edit_column, Hp, Hc.
  rewrite index_edit_column. split; reflexivity.
Qed.

(** The write-back of a view of [shown] into [gifts], column by column. *)
Lemma edit_step_view shown gifts mask e :
  ledger_ok shown -> ledger_ok gifts ->
  (forall l, In l (index shown) -> In l (index gifts)) ->
  df_empty (loc_mask mask shown) = false ->
  exists ps cs pg cg pg' cg',
    lookup_col "purchased" (columns shown) = Some ps /\
    lookup_col "purchased_cost" (columns shown) = Some cs /\
    lookup_col "purchased" (columns gifts) = Some pg /\
    lookup_col "purchased_cost" (columns gifts) = Some cg /\
    assign_rows (index gifts) (select mask (index shown))
      (zip_with (edit_purchased e) (select mask (index shown)) (select mask ps)) pg
      = Ok pg' /\
    assign_rows (index gifts) (select mask (index shown))
      (zip_with (edit_cost e) (select mask (index shown)) (select mask cs)) cg
      = Ok cg' /\
    edit_step gifts (loc_mask mask shown) e
      = Ok (setitem "purchased_cost" cg' (setitem "purchased" pg' gifts)).
Proof.
  intros Hs Hok Hl He.
  destruct (ledger_ok_lookup shown "purchased" Hs) as [ps [Hps _]]; [simpl; tauto|].
  destruct (ledger_ok_lookup shown "purchased_cost" Hs) as [cs [Hcs _]];
    [simpl; tauto|].
  destruct (ledger_ok_lookup gifts "purchased" Hok) as [pg [Hpg _]]; [simpl; tauto|].
  destruct (ledger_ok_lookup gifts "purchased_cost" Hok) as [cg [Hcg _]];
    [simpl; tauto|].
  set (fdf := loc_mask mask shown) in *.
  destruct (data_editor_columns fdf e (select mask ps) (select mask cs)) as [Ep Ec].
  { unfold fdf. now rewrite lookup_loc_mask, Hps. }
  { unfold fdf. now rewrite lookup_loc_mask, Hcs. }
  destruct (write_back_frame gifts (data_editor fdf e) _ _ pg cg Ep Ec Hpg Hcg)
    as [pg' [cg' [E [A1 A2]]]].
  { rewrite index_data_editor. unfold fdf, loc_mask. cbn [index].
    intros l Hin. eapply Hl, select_In, Hin. }
  rewrite index_data_editor in A1, A2.
  exists ps, cs, pg, cg, pg', cg'. unfold edit_step. rewrite He.
  repeat split; auto.
Qed.

Lemma ledger_inv_NoDup g : ledger_inv g -> List.NoDup (index g).
Proof. intros [_ ->]. apply List.seq_NoDup. Qed.

Lemma view_not_empty mask shown j l :
  ledger_ok shown -> index (loc_mask mask shown) !! j = Some l ->
  df_empty (loc_mask mask shown) = false.
Proof.
  intros Hs Hj. rewrite (ledger_ok_not_empty _ (loc_mask_ledger_ok mask shown Hs)).
  unfold nrows. destruct (index (loc_mask mask shown)); [discriminate|reflexivity].
Qed.

End WriteBackRows.

(** X12.  The write-back puts each edit on the row it was made on: for
    a row of the view with label [l], the ledger after the write-back
    holds, in the row numbered [l], the check mark and the cost that the
    editor returned for that row.  The ledger may be the one the view
    was filtered from or a longer one (a gift added in the same run). *)
Theorem edit_writes_rows_in_view shown gifts flt fdf e j l x y :
  ledger_inv shown -> ledger_inv gifts -> (nrows shown <= nrows gifts)%nat ->
  filter_view shown flt = Ok fdf ->
  index fdf !! j = Some l ->
  cell_at fdf "purchased" j = Some x ->
  cell_at fdf "purchased_cost" j = Some y ->
  exists gifts',
    edit_step gifts fdf e = Ok gifts' /\
    cell_at gifts' "purchased" l = Some (edit_purchased e l x) /\
    cell_at gifts' "purchased_cost" l = Some (edit_cost e l y).
Proof.
  intros Hs Hg Hle Hv Hj Hx Hy.
  pose proof (ledger_inv_NoDup shown Hs) as Ns.
  pose proof (ledger_inv_NoDup gifts Hg) as Ng.
  destruct Hs as [Hs Is], Hg as [Hg Ig].
  apply filter_view_inv in Hv as [mask [_ ->]].
  assert (Hl : forall k, In k (index shown) -> In k (index gifts)).
  { intros k. rewrite Is, Ig, !in_seq. lia. }
  destruct (edit_step_view shown gifts mask e Hs Hg Hl (view_not_empty _ _ _ _ Hs Hj))
    as (ps & cs & pg & cg & pg' & cg' & Hps & Hcs & Hpg & Hcg & A1 & A2 & E).
  exists (setitem "purchased_cost" cg' (setitem "purchased" pg' gifts)).
  split; [exact E|].
  cbn [loc_mask index] in Hj. unfold cell_at in Hx, Hy.
  rewrite lookup_loc_mask, Hps in Hx. rewrite lookup_loc_mask, Hcs in Hy.
  cbn [option_map] in Hx, Hy.
  assert (Hlt : (l < nrows gifts)%nat).
  { apply lookup_In, select_In in Hj. apply Hl in Hj. rewrite Ig in Hj.
    apply in_seq in Hj. lia. }
  assert (Hp : index gifts !! l = Some l).
  { rewrite Ig. now apply lookup_seq_lt. }
  destruct (ledger_ok_lookup gifts "purchased" Hg) as [pg0 [Hpg0 [Lp _]]];
    [simpl; tauto|].
  destruct (ledger_ok_lookup gifts "purchased_cost" Hg) as [cg0 [Hcg0 [Lc _]]];
    [simpl; tauto|].
  rewrite Hpg in Hpg0. injection Hpg0 as <-. rewrite Hcg in Hcg0. injection Hcg0 as <-.
  unfold cell_at, setitem. cbn [columns]. rewrite !lookup_replace. cbn. split.
  - eapply (assign_rows_written _ _ _ _ _ j l); eauto using NoDup_select, lookup_zip_with.
    lia.
  - eapply (assign_rows_written _ _ _ _ _ j l); eauto using NoDup_select, lookup_zip_with.
    lia.
Qed.

Lemma edit_writes_rows_in_view_example :
  ledger_inv example_ledger /\ ledger_inv example_after_add /\
  (nrows example_ledger <= nrows example_after_add)%nat /\
  filter_view example_ledger example_filter = Ok example_view /\
  index example_view !! 1%nat = Some 2%nat /\
  cell_at example_view "purchased" 1 = Some (VBool false) /\
  cell_at example_view "purchased_cost" 1 = Some (VFloat zero) /\
  exists gifts',
    edit_step example_after_add example_view example_edits = Ok gifts' /\
    cell_at gifts' "purchased" 2 = Some (VBool true) /\
    cell_at gifts' "purchased_cost" 2 = Some (VFloat (float_lit "30")).
Proof.
  assert (Hs : ledger_inv example_ledger)
    by (split; [split; [reflexivity | repeat constructor] | reflexivity]).
  assert (Hg : ledger_inv example_after_add)
    by (split; [split; [reflexivity | repeat constructor] | reflexivity]).
  assert (Hle : (nrows example_ledger <= nrows example_after_add)%nat)
    by (cbv; repeat constructor).
  assert (Hv : filter_view example_ledger example_filter = Ok example_view)
    by (vm_compute; reflexivity).
  split; [exact Hs|]. split; [exact Hg|]. split; [exact Hle|]. split; [exact Hv|].
  split; [reflexivity|]. split; [reflexivity|]. split; [reflexivity|].
  exact (edit_writes_rows_in_view example_ledger example_after_add example_filter
           example_view example_edits 1%nat 2%nat (VBool false) (VFloat zero)
           Hs Hg Hle Hv eq_refl eq_refl eq_refl).
Defined.

Section WriteBackWhole.

Lemma zip_with_ext {A B C} (f g : A -> B -> C) la lb :
  (forall a b, f a b = g a b) -> zip_with f la lb = zip_with g la lb.
Proof.
  intros H. revert lb. induction la as [|a la IH]; intros [|b lb]; simpl; auto.
  now rewrite H, IH.
Qed.

(** Writing a selection of a column back to where it was taken from. *)
Lemma assign_rows_selection mask (idx : list nat) (col : column) :
  List.NoDup idx ->
  assign_rows idx (select mask idx) (select mask col) col = Ok col.
Proof.
  intros Hn. apply assign_rows_same. intros j l v Hl Hv.
  destruct (select_pos mask j) as [oi [_ H2]].
  rewrite H2 in Hl, Hv. destruct oi as [i|]; [|discriminate].
  exists i. split; [now apply label_pos_NoDup | exact Hv].
Qed.

(** The write-back keeps the schema and the row labels when the editor
    returns booleans and floats. *)
Lemma edit_step_ledger shown gifts flt fdf e :
  ledger_ok shown -> ledger_ok gifts ->
  (forall l, In l (index shown) -> In l (index gifts)) ->
  typed_edits e ->
  filter_view shown flt = Ok fdf ->
  exists g', edit_step gifts fdf e = Ok g' /\ ledger_ok g' /\ index g' = index gifts.
Proof.
  intros Hs Hg Hl [Hfl Hmo] Hv. apply filter_view_inv in Hv as [mask [_ ->]].
  destruct (df_empty (loc_mask mask shown)) eqn:He.
  { exists gifts. unfold edit_step. rewrite He. auto. }
  destruct (edit_step_view shown gifts mask e Hs Hg Hl He)
    as (ps & cs & pg & cg & pg' & cg' & Hps & Hcs & Hpg & Hcg & A1 & A2 & E).
  eexists. split; [exact E|]. split; [|reflexivity].
  destruct (ledger_ok_lookup gifts "purchased" Hg) as [pg0 [Hpg0 [Lp Tp]]];
    [simpl; tauto|].
  destruct (ledger_ok_lookup gifts "purchased_cost" Hg) as [cg0 [Hcg0 [Lc Tc]]];
    [simpl; tauto|].
  rewrite Hpg in Hpg0. injection Hpg0 as <-. rewrite Hcg in Hcg0. injection Hcg0 as <-.
  apply setitem_ledger_ok; [apply setitem_ledger_ok | | |]; auto;
    try (simpl; tauto).
  - now rewrite (assign_rows_length _ _ _ _ _ A1).
  - eapply assign_rows_typed; [exact Tp | | exact A1].
    apply forallb_zip_with. intros a b. apply Hfl.
  - rewrite (assign_rows_length _ _ _ _ _ A2). exact Lc.
  - eapply assign_rows_typed; [exact Tc | | exact A2].
    apply forallb_zip_with. intros a b. apply Hmo.
Qed.

(** Writing an unedited selection of rows back gives the ledger. *)
Lemma edit_step_selection gifts mask e :
  ledger_ok gifts -> List.NoDup (index gifts) ->
  (forall l c, edit_purchased e l c = c) ->
  (forall l c, edit_cost e l c = c) ->
  edit_step gifts (loc_mask mask gifts) e = Ok gifts.
Proof.
  intros Hg Ng Hp Hc.
  destruct (df_empty (loc_mask mask gifts)) eqn:He.
  { unfold edit_step. now rewrite He. }
  destruct (edit_step_view gifts gifts mask e Hg Hg (fun l H => H) He)
    as (ps & cs & pg & cg & pg' & cg' & Hps & Hcs & Hpg & Hcg & A1 & A2 & E).
  rewrite Hps in Hpg. injection Hpg as <-. rewrite Hcs in Hcg. injection Hcg as <-.
  destruct (ledger_ok_lookup gifts "purchased" Hg) as [pg0 [Hpg0 [Lp _]]];
    [simpl; tauto|].
  destruct (ledger_ok_lookup gifts "purchased_cost" Hg) as [cg0 [Hcg0 [Lc _]]];
    [simpl; tauto|].
  rewrite Hps in Hpg0. injection Hpg0 as <-. rewrite Hcs in Hcg0. injection Hcg0 as <-.
  rewrite (zip_with_ext _ (fun _ b => b) _ _ Hp), zip_with_snd in A1
    by (apply length_select; unfold nrows in Lp; congruence).
  rewrite (zip_with_ext _ (fun _ b => b) _ _ Hc), zip_with_snd in A2
    by (apply length_select; unfold nrows in Lc; congruence).
  rewrite (assign_rows_selection mask _ ps Ng) in A1. injection A1 as <-.
  rewrite (assign_rows_selection mask _ cs Ng) in A2. injection A2 as <-.
  rewrite E. f_equal. rewrite (setitem_same "purchased" ps gifts Hps).
  now apply setitem_same.
Qed.

End WriteBackWhole.

(** X13.  Looking at the table without editing it changes nothing:
    when the editor returns every cell as it got it, the write-back,
    which runs at every run of the page, gives the ledger back as it
    was. *)
Theorem edit_without_changes_is_identity gifts flt fdf e :
  ledger_inv gifts ->
  filter_view gifts flt = Ok fdf ->
  (forall l c, edit_purchased e l c = c) ->
  (forall l c, edit_cost e l c = c) ->
  edit_step gifts fdf e = Ok gifts.
Proof.
  intros Hg Hv Hp Hc. pose proof (ledger_inv_NoDup gifts Hg) as Ng.
  apply filter_view_inv in Hv as [mask [_ ->]].
  now apply edit_step_selection; [apply Hg|..].
Qed.

Lemma edit_without_changes_is_identity_example :
  let idle := mkEdits (fun _ c => c) (fun _ c => c) in
  ledger_inv example_ledger /\
  filter_view example_ledger example_filter = Ok example_view /\
  edit_step example_ledger example_view idle = Ok example_ledger.
Proof.
  intros idle.
  assert (Hs : ledger_inv example_ledger)
    by (split; [split; [reflexivity | repeat constructor] | reflexivity]).
  assert (Hv : filter_view example_ledger example_filter = Ok example_view)
    by (vm_compute; reflexivity).
  split; [exact Hs|]. split; [exact Hv|].
  exact (edit_without_changes_is_identity example_ledger example_filter example_view
           idle Hs Hv (fun _ _ => eq_refl) (fun _ _ => eq_refl)).
Defined.

(** ** One run of the page *)

Section Run.

(** The run, case by case. *)
Lemma page_cases today w g :
  page today w g =
  let '(g1, note) :=
    match up w with
    | None => (g, None)
    | Some bytes => let '(g', err) := import_csv today g bytes in (g', Some err)
    end in
  match year_options today g1 with
  | Raise e => (g1, Raise e)
  | Ok ys =>
  match filter_view g1 (filters w) with
  | Raise e => (g1, Raise e)
  | Ok fdf =>
  match kpis fdf with
  | Raise e => (g1, Raise e)
  | Ok t =>
  match match submitted w with
        | None => Ok (g1, false)
        | Some f => g2 ← add_gift today g1 f; Ok (g2, true)
        end with
  | Raise e => (g1, Raise e)
  | Ok (g2, a) =>
  match edit_step g2 fdf (edits w) with
  | Raise e => (g2, Raise e)
  | Ok g3 =>
      (g3, Ok (mkPage note (if df_empty g1 then None else Some (download_csv g1))
                      ys fdf
                      (map money_label [total_budget t; total_spent t; remaining t])
                      a))
  end end end end end.
Proof.
  unfold page, upload_step, submit_step, table_step, lift, get_gifts, set_gifts.
  unfold mbind, session_bind, mret, session_ret, result_bind.
  destruct (up w) as [bytes|].
  - destruct (import_csv today g bytes) as [g1 err].
    destruct (year_options today g1) as [ys|]; [|reflexivity].
    destruct (filter_view g1 (filters w)) as [fdf|]; [|reflexivity].
    destruct (kpis fdf) as [t|]; [|reflexivity].
    destruct (submitted w) as [f|].
    + destruct (add_gift today g1 f) as [g2|]; [|reflexivity].
      now destruct (edit_step g2 fdf (edits w)).
    + now destruct (edit_step g1 fdf (edits w)).
  - destruct (year_options today g) as [ys|]; [|reflexivity].
    destruct (filter_view g (filters w)) as [fdf|]; [|reflexivity].
    destruct (kpis fdf) as [t|]; [|reflexivity].
    destruct (submitted w) as [f|].
    + destruct (add_gift today g f) as [g2|]; [|reflexivity].
      now destruct (edit_step g2 fdf (edits w)).
    + now destruct (edit_step g fdf (edits w)).
Qed.

Lemma read_csv_index bytes df : read_csv bytes = Ok df -> index df = seq 0 (nrows df).
Proof.
  unfold read_csv. destruct (tokenize bytes) as [rows|e]; [|discriminate].
  cbn [mbind result_bind]. destruct rows as [|hdr data]; [discriminate|].
  destruct (existsb _ data); [discriminate|].
  destruct (length hdr <? _)%nat; [discriminate|].
  destruct (forallb _ _); [|discriminate].
  intros [= <-]. unfold nrows. cbn [index]. now rewrite length_seq.
Qed.

Lemma ensure_df_index today df df' : ensure_df today df = Ok df' -> index df' = index df.
Proof. intros E. apply ensure_df_inv in E as [y [_ ->]]. reflexivity. Qed.

Lemma ensure_df_inv_rows today df df' :
  rectangular df -> index df = seq 0 (nrows df) ->
  ensure_df today df = Ok df' -> ledger_inv df'.
Proof.
  intros Hr Hi E. split; [eapply ensure_df_ledger_ok; eauto|].
  pose proof (ensure_df_index _ _ _ E) as Hx. unfold nrows in *. now rewrite Hx.
Qed.

Lemma ledger_ok_empty : ledger_ok empty_df.
Proof. split; [reflexivity | repeat constructor]. Qed.

Lemma init_state_inv today stored :
  (forall g, stored = Some g -> ledger_inv g) ->
  exists g, init_state today stored = Ok g /\ ledger_inv g.
Proof.
  intros H. destruct stored as [g|]; simpl.
  - exists g. auto.
  - exists empty_df. split; [apply ensure_df_ledger, ledger_ok_empty|].
    split; [apply ledger_ok_empty | reflexivity].
Qed.

(** The upload step keeps the invariant, whatever the file. *)
Lemma import_csv_inv today g bytes g1 err :
  ledger_inv g -> import_csv today g bytes = (g1, err) -> ledger_inv g1.
Proof.
  intros Hg. unfold import_csv.
  destruct (read_csv bytes) as [df|] eqn:Er; cbn [mbind result_bind].
  - destruct (ensure_df today df) as [g'|] eqn:E; intros [= <- _]; [|exact Hg].
    eauto using ensure_df_inv_rows, read_csv_rectangular, read_csv_index.
  - now intros [= <- _].
Qed.

Lemma add_gift_inv today g f g2 :
  ledger_inv g -> add_gift today g f = Ok g2 ->
  ledger_inv g2 /\ forall l, In l (index g) -> In l (index g2).
Proof.
  intros [Hg Hi] E. split.
  - unfold add_gift in E. eapply ensure_df_inv_rows; [| |exact E].
    + now apply concat_row_rectangular, ledger_ok_rectangular.
    + unfold concat_row, nrows. cbn [index]. now rewrite length_seq.
  - eapply add_gift_keeps_labels; eauto.
Qed.


End Run.



Section RunOutcome.

Lemma upload_inv today w g :
  ledger_inv g ->
  exists g1 note,
    match up w with
    | None => (g, None)
    | Some bytes => let '(g', err) := import_csv today g bytes in (g', Some err)
    end = (g1, note) /\ ledger_inv g1.
Proof.
  intros Hg. destruct (up w) as [bytes|]; [|eauto].
  destruct (import_csv today g bytes) as [g1 err] eqn:E.
  eauto using import_csv_inv.
Qed.

(** A run on plain search texts and the values the widgets can give. *)
Lemma page_completes today w g :
  ledger_inv g -> typed_edits (edits w) ->
  has_meta (lower (strip (rec_text (filters w)))) = false ->
  has_meta (lower (strip (occ_text (filters w)))) = false ->
  (forall f, submitted w = Some f ->
     in_int64 (year_val f) = true /\ float_is_nan (budget f) = false /\
     float_is_nan (purchased_cost f) = false) ->
  exists g' p,
    page today w g = (g', Ok p) /\
    added p = match submitted w with Some _ => true | None => false end.
Proof.
  intros Hg He Hr Ho Hf. rewrite page_cases.
  destruct (upload_inv today w g Hg) as (g1 & note & -> & Hg1).
  pose proof (proj1 Hg1) as Hok.
  destruct (year_options_ledger today g1 Hok) as (y0 & zs0 & _ & _ & _ & ->).
  assert (Hv : filter_view g1 (filters w)
               = Ok (loc_mask (map (keep_row g1 (filters w)) (seq 0 (nrows g1))) g1)).
  { unfold filter_view. now rewrite (filter_mask_rows g1 (filters w) Hok Hr Ho). }
  rewrite Hv.
  destruct (kpis_ledger _ (loc_mask_ledger_ok
                             (map (keep_row g1 (filters w)) (seq 0 (nrows g1))) g1 Hok))
    as (bs & ps & cs & _ & _ & _ & _ & _ & _ & _ & _ & ->).
  destruct (submitted w) as [f|].
  - destruct (Hf f eq_refl) as (Hy & Hb & Hc).
    destruct (ledger_ok_columns g1 Hok)
      as (d & y & r & o & i & b & p & c & Hcols & _).
    destruct (add_gift_frame today g1 f d y r o i b p c Hok Hcols Hy Hb Hc)
      as (Ea & Hg2 & _).
    rewrite Ea. cbn [mbind result_bind].
    destruct (add_gift_inv today g1 f _ Hg1 Ea) as [_ Hl].
    destruct (edit_step_ledger g1 _ (filters w) _ (edits w) Hok Hg2 Hl He Hv)
      as (g3 & -> & _). eauto.
  - destruct (edit_step_ledger g1 g1 (filters w) _ (edits w) Hok Hok (fun l H => H) He Hv)
      as (g3 & -> & _). eauto.
Qed.

End RunOutcome.

(** X15.  A run is not stopped by an exception when the stored ledger
    is well formed, the two search texts hold no character that is
    special in a regular expression, the editor returns booleans and
    floats, and the form, when it is submitted, holds a year that fits
    64 bits and amounts that are numbers: whatever file of the modelled
    fragment is uploaded, one that is read or one that is refused, the
    page is shown, and it reports "Added." exactly when the form was
    submitted. *)
Theorem main_completes today stored w :
  (forall g, stored = Some g -> ledger_inv g) ->
  typed_edits (edits w) ->
  upload_modelled w = true ->
  has_meta (lower (strip (rec_text (filters w)))) = false ->
  has_meta (lower (strip (occ_text (filters w)))) = false ->
  (forall f, submitted w = Some f ->
     in_int64 (year_val f) = true /\ float_is_nan (budget f) = false /\
     float_is_nan (purchased_cost f) = false) ->
  exists g' p,
    main today stored w = (Some g', Ok p) /\
    added p = match submitted w with Some _ => true | None => false end.
Proof.
  intros Hs He _ Hr Ho Hf. destruct (init_state_inv today stored Hs) as (g & Ei & Hg).
  unfold main. rewrite Ei.
  destruct (page_completes today w g Hg He Hr Ho Hf) as (g' & p & -> & Ha). eauto.
Qed.

Lemma main_completes_example :
  let w := mkWidgets (Some example_bad_csv) example_filter (Some example_form)
                     example_edits in
  (forall g, Some example_ledger = Some g -> ledger_inv g) /\
  typed_edits (edits w) /\
  upload_modelled w = true /\
  has_meta (lower (strip (rec_text (filters w)))) = false /\
  has_meta (lower (strip (occ_text (filters w)))) = false /\
  (forall f, submitted w = Some f ->
     in_int64 (year_val f) = true /\ float_is_nan (budget f) = false /\
     float_is_nan (purchased_cost f) = false) /\
  exists g' p,
    main example_today (Some example_ledger) w = (Some g', Ok p) /\ added p = true.
Proof.
  intros w.
  assert (Hs : forall g, Some example_ledger = Some g -> ledger_inv g).
  { intros g [= <-]. split; [split; [reflexivity | repeat constructor] | reflexivity]. }
  assert (He : typed_edits (edits w)) by (split; intros; reflexivity).
  assert (Hf : forall f, submitted w = Some f ->
             in_int64 (year_val f) = true /\ float_is_nan (budget f) = false /\
             float_is_nan (purchased_cost f) = false).
  { intros f [= <-]. repeat split. }
  split; [exact Hs|]. split; [exact He|]. split; [reflexivity|].
  split; [reflexivity|]. split; [reflexivity|]. split; [exact Hf|].
  exact (main_completes example_today (Some example_ledger) w Hs He eq_refl
           eq_refl eq_refl Hf).
Defined.

(** X16.  A run in which nothing is done changes nothing: with no file
    in the uploader, the form not submitted and no edit in the table,
    the stored ledger after the run is the stored ledger before it,
    whatever the filter is (with search texts of the modelled
    fragment), even one that stops the run. *)
Theorem main_idle_run today g w :
  ledger_inv g -> search_modelled (filters w) = true ->
  up w = None -> submitted w = None ->
  (forall l c, edit_purchased (edits w) l c = c) ->
  (forall l c, edit_cost (edits w) l c = c) ->
  fst (main today (Some g) w) = Some g.
Proof.
  intros Hg _ Hu Hs Hp Hc. unfold main, init_state. rewrite page_cases, Hu, Hs.
  destruct (year_options today g) as [ys|]; [|reflexivity].
  destruct (filter_view g (filters w)) as [fdf|] eqn:Hv; [|reflexivity].
  destruct (kpis fdf) as [t|]; [|reflexivity].
  apply filter_view_inv in Hv as [mask [_ ->]].
  rewrite (edit_step_selection g mask (edits w) (proj1 Hg) (ledger_inv_NoDup g Hg) Hp Hc).
  reflexivity.
Qed.

Lemma main_idle_run_example :
  let w := mkWidgets None example_filter None (mkEdits (fun _ c => c) (fun _ c => c)) in
  ledger_inv example_ledger /\ search_modelled (filters w) = true /\
  up w = None /\ submitted w = None /\
  fst (main example_today (Some example_ledger) w) = Some example_ledger.
Proof.
  intros w.
  assert (Hs : ledger_inv example_ledger)
    by (split; [split; [reflexivity | repeat constructor] | reflexivity]).
  split; [exact Hs|]. split; [reflexivity|]. split; [reflexivity|].
  split; [reflexivity|].
  exact (main_idle_run example_today example_ledger w Hs eq_refl eq_refl eq_refl
           (fun _ _ => eq_refl) (fun _ _ => eq_refl)).
Defined.



(** X18.  A search text that [re] rejects stops the run where the
    filter is computed: with no file in the uploader the stored ledger
    stays as it was and the run ends with that exception.  The form is
    read after the filter, so a gift submitted in the same run is not
    added. *)
Theorem bad_search_stops_the_run today g w e :
  ledger_ok g -> up w = None -> search_modelled (filters w) = true ->
  filter_view g (filters w) = Raise e ->
  main today (Some g) w = (Some g, Raise e).
Proof.
  intros Hok Hu _ Hv. unfold main, init_state. rewrite page_cases, Hu.
  destruct (year_options_ledger today g Hok) as (y0 & zs0 & _ & _ & _ & ->).
  now rewrite Hv.
Qed.

Lemma bad_search_stops_the_run_example :
  let w := mkWidgets None (mkFilter [2025] "(" "" false) (Some example_form)
                     example_edits in
  let e := ReError "missing ), unterminated subpattern" in
  ledger_ok example_ledger /\ up w = None /\ submitted w = Some example_form /\
  search_modelled (filters w) = true /\
  filter_view example_ledger (filters w) = Raise e /\
  main example_today (Some example_ledger) w = (Some example_ledger, Raise e).
Proof.
  intros w e.
  assert (Hok : ledger_ok example_ledger)
    by (split; [reflexivity | repeat constructor]).
  assert (Hv : filter_view example_ledger (filters w) = Raise e)
    by (vm_compute; reflexivity).
  split; [exact Hok|]. split; [reflexivity|]. split; [reflexivity|].
  split; [reflexivity|]. split; [exact Hv|].
  exact (bad_search_stops_the_run example_today example_ledger w e Hok eq_refl
           eq_refl Hv).
Defined.

Section RunWithForm.


End RunWithForm.



(** ** Files that are not tables, and the text of the export *)

Section BadFiles.

Lemma tok_step_blank c t :
  (Ascii.eqb c newline || Ascii.eqb c cr || is_blank c) = true ->
  (t_state t = START_RECORD \/ t_state t = WHITESPACE_LINE \/ t_state t = EAT_CRNL_NOP) ->
  t_line t = [] -> t_lines t = [] ->
  let t' := tok_step c t in
  (t_state t' = START_RECORD \/ t_state t' = WHITESPACE_LINE \/
   t_state t' = EAT_CRNL_NOP) /\
  t_line t' = [] /\ t_lines t' = [].
Proof.
  intros Hc Hs Hl Hls. destruct t as [st fld line lines]. cbn in Hs, Hl, Hls. subst.
  cbv zeta. unfold tok_step, record_step. cbn [t_state].
  destruct (Ascii.eqb c newline) eqn:E1.
  { destruct Hs as [->|[->| ->]]; cbn; auto. }
  destruct (Ascii.eqb c cr) eqn:E2.
  { assert (Ec : Ascii.eqb c comma = false).
    { apply Ascii.eqb_eq in E2. now subst. }
    change (Ascii.eqb c ","%char = false) in Ec. destruct Hs as [->|[->| ->]]; cbn; rewrite ?Ec; cbn; auto. }
  cbn in Hc. rewrite Hc.
  assert (Ec : Ascii.eqb c comma = false).
  { unfold is_blank in Hc. apply orb_prop in Hc as [H|H].
    - apply Ascii.eqb_eq in H. now subst.
    - unfold code in H. apply Z.eqb_eq in H.
      destruct (Ascii.eqb_spec c comma) as [->|]; [discriminate H|reflexivity]. }
  change (Ascii.eqb c ","%char = false) in Ec. destruct Hs as [->|[->| ->]]; cbn; rewrite ?Ec; cbn; auto.
Qed.

Lemma tok_run_blank s t :
  is_blank_text s = true ->
  (t_state t = START_RECORD \/ t_state t = WHITESPACE_LINE \/ t_state t = EAT_CRNL_NOP) ->
  t_line t = [] -> t_lines t = [] ->
  tok_eof (tok_run s t) = Ok [].
Proof.
  revert t. induction s as [|c s IH]; intros t Hb Hs Hl Hls.
  - cbn [tok_run]. unfold tok_eof. rewrite Hls.
    destruct Hs as [->|[->| ->]]; reflexivity.
  - cbn [is_blank_text] in Hb. apply andb_prop in Hb as [Hc Hb].
    destruct (tok_step_blank c t Hc Hs Hl Hls) as (Hs' & Hl' & Hls').
    cbn [tok_run]. now apply IH.
Qed.


End BadFiles.

(** X19.  A file without any record is refused and the ledger is kept:
    for bytes that are empty, or hold spaces, tabs and line ends only,
    the import reports "No columns to parse from file" and the ledger
    is the prior one. *)
Theorem import_of_blank_file today gifts bytes :
  is_blank_text bytes = true ->
  import_csv today gifts bytes = (gifts, Some EmptyDataError).
Proof.
  intros Hb. unfold import_csv, read_csv, tokenize.
  rewrite (tok_run_blank bytes _ Hb) by (cbn; auto). reflexivity.
Qed.

Lemma import_of_blank_file_example :
  let bytes := nl ++ "  " ++ String cr nl ++ nl in
  is_blank_text bytes = true /\
  import_csv example_today example_ledger bytes = (example_ledger, Some EmptyDataError) /\
  import_csv example_today example_ledger "" = (example_ledger, Some EmptyDataError).
Proof.
  intros bytes. split; [reflexivity|]. split.
  - exact (import_of_blank_file example_today example_ledger bytes eq_refl).
  - exact (import_of_blank_file example_today example_ledger "" eq_refl).
Defined.



(** X21.  The text of an export splits back into its cells: for any
    table of at least two columns, the reader takes the exported text
    apart into the header and, row by row, the printed cells, whatever
    commas, double quotes and line feeds the names and the cells hold.
    (A carriage return must stand in a cell that is quoted anyway.) *)
Theorem export_splits_into_cells df :
  (2 <= length (columns df))%nat ->
  forallb cr_safe (names df) = true ->
  Forall (fun nc => forallb (fun c => cr_safe (csv_cell c)) (snd nc) = true)
         (columns df) ->
  tokenize (download_csv df)
    = Ok (names df :: map (fun i => map csv_cell (row_at df i)) (seq 0 (nrows df))).
Proof.
  intros Hw Hn Hc. unfold download_csv. rewrite to_csv_rows. apply tokenize_rows.
  constructor.
  - split; [exact Hn|]. unfold names. now rewrite length_map.
  - apply Forall_forall. intros fs Hfs. apply list_elem_of_In in Hfs.
    apply in_map_iff in Hfs as [k [<- _]]. split.
    + now apply row_fields_cr_safe.
    + rewrite length_map. unfold row_at. now rewrite length_map.
Qed.

Lemma export_splits_into_cells_example :
  let q := String dquote "" in
  let df := mkDF [0; 1]%nat
              [("idea", [VStr ("a " ++ q ++ "big" ++ q ++ " box, red"); VStr ""]);
               ("note, long", [VStr ("two" ++ nl ++ "lines"); VNone])] in
  (2 <= length (columns df))%nat /\
  forallb cr_safe (names df) = true /\
  Forall (fun nc => forallb (fun c => cr_safe (csv_cell c)) (snd nc) = true)
         (columns df) /\
  tokenize (download_csv df)
    = Ok [["idea"; "note, long"];
          ["a " ++ q ++ "big" ++ q ++ " box, red"; "two" ++ nl ++ "lines"];
          [""; ""]].
Proof.
  intros q df.
  assert (Hw : (2 <= length (columns df))%nat) by (cbv; repeat constructor).
  assert (Hc : Forall (fun nc => forallb (fun c => cr_safe (csv_cell c)) (snd nc) = true)
                      (columns df)) by (repeat constructor).
  split; [exact Hw|]. split; [reflexivity|]. split; [exact Hc|].
  exact (export_splits_into_cells df Hw eq_refl Hc).
Defined.

(** ** Dates *)

Section IsoDates.

Lemma four_digits_table :
  forallb (fun n =>
             match zero_pad 4 (Z.of_nat n) with
             | String a (String b (String c (String d EmptyString))) =>
                 forallb is_digit [a; b; c; d]
                 && (digits_val 0 (String a (String b (String c (String d "")))) =? Z.of_nat n)
             | _ => false
             end) (seq 1 (Z.to_nat 9999)) = true.
Proof. vm_compute. reflexivity. Qed.

Lemma two_digits_shape :
  forallb (fun n =>
             match zero_pad 2 (Z.of_nat n) with
             | String a (String b EmptyString) =>
                 forallb is_digit [a; b]
                 && (digits_val 0 (String a (String b "")) =? Z.of_nat n)
             | _ => false
             end) (seq 0 100) = true.
Proof. vm_compute. reflexivity. Qed.

Lemma zero_pad_four y : 1 <= y <= 9999 ->
  exists a b c d,
    zero_pad 4 y = String a (String b (String c (String d ""))) /\
    forallb is_digit [a; b; c; d] = true /\
    digits_val 0 (String a (String b (String c (String d "")))) = y.
Proof.
  intros Hy. pose proof four_digits_table as H. rewrite forallb_forall in H.
  specialize (H (Z.to_nat y)). rewrite Z2Nat.id in H by lia.
  assert (Hin : In (Z.to_nat y) (seq 1 (Z.to_nat 9999))) by (apply in_seq; lia).
  apply H in Hin.
  destruct (zero_pad 4 y) as [|a [|b [|c [|d [|]]]]]; try discriminate.
  apply andb_prop in Hin as [H1 H2]. apply Z.eqb_eq in H2.
  exists a, b, c, d. auto.
Qed.

Lemma zero_pad_shape n : 0 <= n < 100 ->
  exists a b,
    zero_pad 2 n = String a (String b "") /\
    forallb is_digit [a; b] = true /\
    digits_val 0 (String a (String b "")) = n.
Proof.
  intros Hn. pose proof two_digits_shape as H. rewrite forallb_forall in H.
  specialize (H (Z.to_nat n)). rewrite Z2Nat.id in H by lia.
  assert (Hin : In (Z.to_nat n) (seq 0 100)) by (apply in_seq; lia).
  apply H in Hin.
  destruct (zero_pad 2 n) as [|a [|b [|]]]; try discriminate.
  apply andb_prop in Hin as [H1 H2]. apply Z.eqb_eq in H2.
  exists a, b. auto.
Qed.

Lemma days_in_month_bound y m : days_in_month y m <= 31.
Proof.
  unfold days_in_month. destruct (m =? 2); [destruct (is_leap y); lia|].
  destruct ((m =? 4) || (m =? 6) || (m =? 9) || (m =? 11)); lia.
Qed.

End IsoDates.

(** X22.  The date that [isoformat] prints for a calendar date is a
    valid ISO-8601 date: the default of a missing [date] column and the
    date that Add stores always pass [is_iso_date]. *)
Theorem isoformat_is_iso_date d :
  valid_date d -> is_iso_date (isoformat d) = true.
Proof.
  intros (Hy & Hm & Hd). pose proof (days_in_month_bound (d_year d) (d_month d)).
  destruct (zero_pad_four (d_year d) Hy) as (y1 & y2 & y3 & y4 & Ey & Dy & Vy).
  destruct (zero_pad_shape (d_month d)) as (m1 & m2 & Em & Dm & Vm); [lia|].
  destruct (zero_pad_shape (d_day d)) as (d1 & d2 & Ed & Dd & Vd); [lia|].
  unfold isoformat. rewrite Ey, Em, Ed. cbn [String.append].
  unfold is_iso_date. change (Ascii.eqb "-" "-") with true.
  rewrite Vy, Vm, Vd.
  cbn [forallb] in *. rewrite andb_true_r in *.
  apply andb_prop in Dy as [A1 Dy]. apply andb_prop in Dy as [A2 Dy].
  apply andb_prop in Dy as [A3 A4]. apply andb_prop in Dm as [B1 B2].
  apply andb_prop in Dd as [C1 C2].
  rewrite A1, A2, A3, A4, B1, B2, C1, C2. cbn [andb].
  repeat (apply andb_true_intro; split); apply Z.leb_le; lia.
Qed.

Lemma isoformat_is_iso_date_example :
  valid_date (mkDate 2024 2 29) /\
  isoformat (mkDate 2024 2 29) = "2024-02-29" /\
  is_iso_date (isoformat (mkDate 2024 2 29)) = true /\
  is_iso_date "2023-02-29" = false.
Proof.
  assert (Hd : valid_date (mkDate 2024 2 29)) by (cbv; repeat split; discriminate).
  split; [exact Hd|]. split; [reflexivity|]. split; [|reflexivity].
  exact (isoformat_is_iso_date (mkDate 2024 2 29) Hd).
Defined.

(** ** Amounts that read as numbers *)

Section Amounts.











End Amounts.


